(** * libipc, POSIX message-queue backend (src/libipc/msgq_posix.c)

    The backend is a handful of loop-free C functions that talk to the
    kernel (mq_open, mq_notify, mq_send, ...) and to libc (calloc,
    sem_wait, ...).  Each C function is embedded as a finite tree of calls
    ([prog]); a small model of the kernel's message-queue name space, of the
    process heap and of the semaphores ([world], [step]) interprets the
    trees ([run]).  A thread that cannot go on (sem_wait on a zero count)
    stops with its continuation, so that a handshake can be replayed thread
    by thread. *)

From Stdlib Require Import ZArith String Ascii List Bool Lia.
From stdpp Require Import base option gmap strings.
Import ListNotations.

Local Open Scope string_scope.
Local Open Scope list_scope.
Local Open Scope Z_scope.

(** ** C strings and byte arrays

    A [string] stands for the bytes found at a [char *]: an array may hold
    NUL bytes, and the C library reads it up to the first one. *)

Definition NUL : ascii := Ascii.zero.

Definition is_nul (c : ascii) : bool := Ascii.eqb c NUL.

(** The bytes before the first NUL (all of them when there is none: the
    end of an array reads as a NUL, where C would read on; see
    [terminated]). *)
Fixpoint cstr (s : string) : string :=
  match s with
  | EmptyString => EmptyString
  | String c r => if is_nul c then EmptyString else String c (cstr r)
  end.

Definition strlen (s : string) : Z := Z.of_nat (String.length (cstr s)).

Fixpoint zeros (n : nat) : string :=
  match n with
  | O => EmptyString
  | S k => String NUL (zeros k)
  end.

Fixpoint str_take (n : nat) (s : string) : string :=
  match n, s with
  | S k, String c r => String c (str_take k r)
  | _, _ => EmptyString
  end.

Fixpoint str_drop (n : nat) (s : string) : string :=
  match n, s with
  | S k, String _ r => str_drop k r
  | _, _ => s
  end.

(** [strncpy(dst, src, n)]: the [n] bytes left in [dst]; the copy stops at
    the NUL of [src] and pads with NUL, and leaves no NUL when [src] has
    [n] bytes or more before its own. *)
Fixpoint strncpy (src : string) (n : nat) : string :=
  match n with
  | O => EmptyString
  | S k =>
      match src with
      | EmptyString => zeros n
      | String c r => if is_nul c then zeros n else String c (strncpy r k)
      end
  end.

(** [strcmp(a, b)]: the difference of the first two bytes that differ, an
    array's end reading as NUL. *)
Fixpoint strcmp (a b : string) : Z :=
  match a, b with
  | EmptyString, EmptyString => 0
  | EmptyString, String d _ => 0 - Z.of_nat (nat_of_ascii d)
  | String c _, EmptyString => Z.of_nat (nat_of_ascii c)
  | String c r, String d q =>
      if Ascii.eqb c d
      then (if is_nul c then 0 else strcmp r q)
      else Z.of_nat (nat_of_ascii c) - Z.of_nat (nat_of_ascii d)
  end.

(** A write of [data] at the start of a buffer that held [old]. *)
Definition overwrite (data old : string) : string :=
  String.append data (str_drop (String.length data) old).

(** ** Constants of the file *)

Definition MQ_MAXMSG : Z := 5.
Definition MQ_MSGSIZE : Z := 1024.
Definition MQ_MSG_PRIO : Z := 10.
Definition MAX_MQ_NAME : nat := 256.

(** Modelled from the spec: [MAX_IPC_MESSAGE_SIZE] is defined in libipc.h,
    which is not part of the sources at hand.  Payloads go "up to a fixed
    maximum message size (must be <= the configured queue's maximum)", and
    the source asks that the receive length be no less than mq_msgsize;
    both hold of the queue's own message size. *)
Definition MAX_IPC_MESSAGE_SIZE : Z := 1024.

(** <fcntl.h>, <sys/stat.h> and <signal.h> on Linux. *)
Definition O_RDONLY : Z := 0.
Definition O_WRONLY : Z := 1.
Definition O_RDWR : Z := 2.
Definition O_ACCMODE : Z := 3.
Definition O_CREAT : Z := 64.
Definition O_EXCL : Z := 128.
Definition O_NONBLOCK : Z := 2048.
Definition S_IRWXU : Z := 448.
Definition S_IRWXG : Z := 56.
Definition SIGEV_THREAD : Z := 2.

Definition has_flag (oflag f : Z) : bool := negb (Z.land oflag f =? 0).

Definition can_read (oflag : Z) : bool :=
  let m := Z.land oflag O_ACCMODE in (m =? O_RDONLY) || (m =? O_RDWR).

Definition can_write (oflag : Z) : bool :=
  let m := Z.land oflag O_ACCMODE in (m =? O_WRONLY) || (m =? O_RDWR).

Inductive errno : Set :=
| ENOENT | EBADF | EAGAIN | ENOMEM | EFAULT | EBUSY | EEXIST | EINVAL
| ENOSPC | ENOSYS | EMSGSIZE | ETIMEDOUT.

(** ** Data of the backend *)

(** Modelled from the spec: [enum ipc_role] comes from libipc.h; the spec
    gives the two roles, and the source names them IPC_SERVER and
    IPC_CLIENT. *)
Inductive ipc_role : Set := IPC_SERVER | IPC_CLIENT.

(** The two notification functions; [mq_notify] gets one of them as a
    function pointer. *)
Inductive mq_notify_cb : Set := cb_on_connect | cb_on_recv.

(** Pointers are addresses, [0] is NULL. *)
Definition ptr := Z.
Definition NULL : ptr := 0.

Record mq_ctx := Mq_ctx {
  mq_wr : Z;
  mq_rd : Z;
  mq_wr_name : string;          (* char [MAX_MQ_NAME] *)
  mq_rd_name : string;          (* char [MAX_MQ_NAME] *)
  role : ipc_role;
  sem : option nat;             (* sem_t: its count once initialised *)
  parent : ptr
}.

(** What CALLOC(1, struct mq_ctx) hands out: every byte zero (the role
    reads as the enumerator of value 0, and is assigned before it is ever
    read). *)
Definition zero_ctx : mq_ctx :=
  Mq_ctx 0 0 (zeros MAX_MQ_NAME) (zeros MAX_MQ_NAME) IPC_SERVER None NULL.

Definition set_mq_wr (v : Z) (c : mq_ctx) : mq_ctx :=
  Mq_ctx v (mq_rd c) (mq_wr_name c) (mq_rd_name c) (role c) (sem c) (parent c).
Definition set_mq_rd (v : Z) (c : mq_ctx) : mq_ctx :=
  Mq_ctx (mq_wr c) v (mq_wr_name c) (mq_rd_name c) (role c) (sem c) (parent c).
Definition set_mq_wr_name (v : string) (c : mq_ctx) : mq_ctx :=
  Mq_ctx (mq_wr c) (mq_rd c) v (mq_rd_name c) (role c) (sem c) (parent c).
Definition set_mq_rd_name (v : string) (c : mq_ctx) : mq_ctx :=
  Mq_ctx (mq_wr c) (mq_rd c) (mq_wr_name c) v (role c) (sem c) (parent c).
Definition set_role (v : ipc_role) (c : mq_ctx) : mq_ctx :=
  Mq_ctx (mq_wr c) (mq_rd c) (mq_wr_name c) (mq_rd_name c) v (sem c) (parent c).
Definition set_sem (v : option nat) (c : mq_ctx) : mq_ctx :=
  Mq_ctx (mq_wr c) (mq_rd c) (mq_wr_name c) (mq_rd_name c) (role c) v (parent c).
Definition set_parent (v : ptr) (c : mq_ctx) : mq_ctx :=
  Mq_ctx (mq_wr c) (mq_rd c) (mq_wr_name c) (mq_rd_name c) (role c) (sem c) v.

Record mq_attr := Mq_attr {
  mq_flags : Z; mq_maxmsg : Z; mq_msgsize : Z; mq_curmsgs : Z
}.

Record sigevent := Sigevent {
  sigev_notify : Z;
  sigev_notify_function : mq_notify_cb;
  sigev_notify_attributes : ptr;
  sigev_value : ptr
}.

Record timeval := Timeval { tv_sec : Z; tv_usec : Z }.
Record timespec := Timespec { ts_sec : Z; ts_nsec : Z }.

(** ** Calls

    [sysE X] is a call that answers with an [X]: the accesses to the
    memory shared by the threads of the process (the contexts, the two
    globals, byte buffers), and the calls to libc and to the kernel. *)

Inductive sysE : Type -> Type :=
(* memory *)
| CtxLoad (p : ptr) : sysE mq_ctx
| CtxStore (p : ptr) (f : mq_ctx -> mq_ctx) : sysE unit
| IpcCtx (ipc : ptr) : sysE ptr
| GetRecvCb : sysE ptr
| SetRecvCb (cb : ptr) : sysE unit
| GetRecvBuf : sysE ptr
| SetRecvBuf (p : ptr) : sysE unit
| Alloca (n : Z) : sysE ptr
| Dealloca (p : ptr) : sysE unit
| Memset0 (p : ptr) (n : Z) : sysE unit
| BufLoad (p : ptr) : sysE string
(* libc and kernel *)
| CallocCtx : sysE ptr
| Calloc (n size : Z) : sysE ptr
| Free (p : ptr) : sysE unit
| MqUnlink (name : string) : sysE Z
| MqOpen (name : string) (oflag mode : Z) (attr : mq_attr) : sysE Z
| MqClose (mqd : Z) : sysE Z
| MqNotify (mqd : Z) (sev : sigevent) : sysE Z
| MqReceive (mqd : Z) (buf : ptr) (len : Z) : sysE Z
| MqSend (mqd : Z) (data : string) (len prio : Z) : sysE Z
| SemInit (p : ptr) (pshared value : Z) : sysE Z
| SemWait (p : ptr) : sysE Z
| SemTimedwait (p : ptr) (abs_time : timespec) : sysE Z
| SemPost (p : ptr) : sysE Z
| SemDestroy (p : ptr) : sysE Z
| Gettimeofday : sysE timeval
| Printf (fmt : string) : sysE unit
| RecvCb (cb ipc buf : ptr) (len : Z) : sysE unit.

(** The calls that leave the process or the file are kept in the trace;
    plain memory accesses are not. *)
Definition traced {X} (e : sysE X) : bool :=
  match e with
  | CtxLoad _ | CtxStore _ _ | IpcCtx _ | GetRecvCb | SetRecvCb _
  | GetRecvBuf | SetRecvBuf _ | Alloca _ | Dealloca _ | Memset0 _ _
  | BufLoad _ => false
  | _ => true
  end.

Record call := Called { c_ty : Type; c_ev : sysE c_ty; c_ret : c_ty }.
Arguments Called {c_ty} c_ev c_ret.

(** ** Programs: finite trees of calls *)

Inductive prog (A : Type) : Type :=
| Ret (a : A)
| Vis (X : Type) (e : sysE X) (k : X -> prog A).
Arguments Ret {A} a.
Arguments Vis {A X} e k.

Fixpoint bind {A B} (p : prog A) (f : A -> prog B) : prog B :=
  match p with
  | Ret a => f a
  | Vis e k => Vis e (fun x => bind (k x) f)
  end.

Definition sys {X} (e : sysE X) : prog X := Vis e Ret.

Declare Scope prog_scope.
Delimit Scope prog_scope with prog.
Notation "x <- p ;; q" := (bind p (fun x => q))
  (at level 100, p at next level, right associativity) : prog_scope.
Notation "p ;; q" := (bind p (fun _ => q))
  (at level 100, right associativity) : prog_scope.
Local Open Scope prog_scope.

(** ** The world: kernel queues, process memory, environment

    Name syntax and permissions are left out of the kernel model: every
    name is well formed and every queue belongs to the caller's user. *)

(** A notification request on a queue: this process's own (with the
    sigevent it gave), or another process's. *)
Inductive registration : Type :=
| reg_self (sev : sigevent)
| reg_other.

Record mqueue := Mqueue {
  q_maxmsg : Z;
  q_msgsize : Z;
  q_msgs : list (Z * string);       (* priority, payload; head is next *)
  q_notify : option registration
}.

Definition set_q_msgs (l : list (Z * string)) (q : mqueue) : mqueue :=
  Mqueue (q_maxmsg q) (q_msgsize q) l (q_notify q).
Definition set_q_notify (r : option registration) (q : mqueue) : mqueue :=
  Mqueue (q_maxmsg q) (q_msgsize q) (q_msgs q) r.

(** What lives at an address of the process. *)
Inductive obj : Type :=
| O_ctx (c : mq_ctx)
| O_ipc (ctx : ptr)                 (* struct ipc, of which only ->ctx is used *)
| O_buf (bytes : string).

Record world := World {
  w_names : gmap string nat;        (* /dev/mqueue: name -> queue object *)
  w_queues : gmap nat mqueue;
  w_queues_max : nat;               (* fs.mqueue.queues_max *)
  w_fds : gmap nat (nat * Z);       (* descriptor -> queue object, oflag *)
  w_heap : gmap positive obj;
  w_recv_cb : ptr;                  (* static _mq_recv_cb *)
  w_recv_buf : ptr;                 (* static _mq_recv_buf *)
  w_errno : option errno;
  w_now : timeval;                  (* the wall clock *)
  w_calloc_left : nat;              (* allocations that still succeed *)
  w_sem_ok : bool;                  (* sem_init is supported *)
  w_spawned : list sigevent;        (* notification threads to be started *)
  w_trace : list call
}.

Definition set_names v w := World v (w_queues w) (w_queues_max w) (w_fds w)
  (w_heap w) (w_recv_cb w) (w_recv_buf w) (w_errno w) (w_now w)
  (w_calloc_left w) (w_sem_ok w) (w_spawned w) (w_trace w).
Definition set_queues v w := World (w_names w) v (w_queues_max w) (w_fds w)
  (w_heap w) (w_recv_cb w) (w_recv_buf w) (w_errno w) (w_now w)
  (w_calloc_left w) (w_sem_ok w) (w_spawned w) (w_trace w).
Definition set_fds v w := World (w_names w) (w_queues w) (w_queues_max w) v
  (w_heap w) (w_recv_cb w) (w_recv_buf w) (w_errno w) (w_now w)
  (w_calloc_left w) (w_sem_ok w) (w_spawned w) (w_trace w).
Definition set_heap v w := World (w_names w) (w_queues w) (w_queues_max w)
  (w_fds w) v (w_recv_cb w) (w_recv_buf w) (w_errno w) (w_now w)
  (w_calloc_left w) (w_sem_ok w) (w_spawned w) (w_trace w).
Definition set_recv_cb v w := World (w_names w) (w_queues w) (w_queues_max w)
  (w_fds w) (w_heap w) v (w_recv_buf w) (w_errno w) (w_now w)
  (w_calloc_left w) (w_sem_ok w) (w_spawned w) (w_trace w).
Definition set_recv_buf v w := World (w_names w) (w_queues w) (w_queues_max w)
  (w_fds w) (w_heap w) (w_recv_cb w) v (w_errno w) (w_now w)
  (w_calloc_left w) (w_sem_ok w) (w_spawned w) (w_trace w).
Definition set_errno v w := World (w_names w) (w_queues w) (w_queues_max w)
  (w_fds w) (w_heap w) (w_recv_cb w) (w_recv_buf w) v (w_now w)
  (w_calloc_left w) (w_sem_ok w) (w_spawned w) (w_trace w).
Definition set_now v w := World (w_names w) (w_queues w) (w_queues_max w)
  (w_fds w) (w_heap w) (w_recv_cb w) (w_recv_buf w) (w_errno w) v
  (w_calloc_left w) (w_sem_ok w) (w_spawned w) (w_trace w).
Definition set_calloc_left v w := World (w_names w) (w_queues w)
  (w_queues_max w) (w_fds w) (w_heap w) (w_recv_cb w) (w_recv_buf w)
  (w_errno w) (w_now w) v (w_sem_ok w) (w_spawned w) (w_trace w).
Definition set_spawned v w := World (w_names w) (w_queues w) (w_queues_max w)
  (w_fds w) (w_heap w) (w_recv_cb w) (w_recv_buf w) (w_errno w) (w_now w)
  (w_calloc_left w) (w_sem_ok w) v (w_trace w).
Definition set_trace v w := World (w_names w) (w_queues w) (w_queues_max w)
  (w_fds w) (w_heap w) (w_recv_cb w) (w_recv_buf w) (w_errno w) (w_now w)
  (w_calloc_left w) (w_sem_ok w) (w_spawned w) v.

(** Lookups by C values: an address, a descriptor. *)
Definition heap_at (w : world) (p : ptr) : option obj :=
  match p with
  | Z.pos a => w_heap w !! a
  | _ => None
  end.

Definition heap_put (p : ptr) (o : obj) (w : world) : world :=
  match p with
  | Z.pos a => set_heap (<[a := o]> (w_heap w)) w
  | _ => w
  end.

Definition heap_del (p : ptr) (w : world) : world :=
  match p with
  | Z.pos a => set_heap (delete a (w_heap w)) w
  | _ => w
  end.

Definition ctx_at (w : world) (p : ptr) : option mq_ctx :=
  match heap_at w p with
  | Some (O_ctx c) => Some c
  | _ => None
  end.

Definition buf_at (w : world) (p : ptr) : option string :=
  match heap_at w p with
  | Some (O_buf s) => Some s
  | _ => None
  end.

Definition fd_at (w : world) (mqd : Z) : option (nat * Z) :=
  if mqd <? 0 then None else w_fds w !! Z.to_nat mqd.

(** The queue a descriptor is open on. *)
Definition queue_of (w : world) (mqd : Z) : option (nat * Z * mqueue) :=
  match fd_at w mqd with
  | Some (q, oflag) =>
      match w_queues w !! q with
      | Some mq => Some (q, oflag, mq)
      | None => None
      end
  | None => None
  end.

(** The queue behind a name. *)
Definition named_queue (w : world) (name : string) : option mqueue :=
  match w_names w !! cstr name with
  | Some q => w_queues w !! q
  | None => None
  end.

(** Queues hand out the oldest message of the highest priority. *)
Fixpoint mq_insert (m : Z * string) (l : list (Z * string)) : list (Z * string) :=
  match l with
  | [] => [m]
  | x :: r => if fst x <? fst m then m :: l else x :: mq_insert m r
  end.

(** A message reaches queue object [q].  A request for notification is
    served, and spent, when the message lands on an empty queue; a request
    of this process then starts a thread on its function. *)
Definition deliver (q : nat) (prio : Z) (data : string) (w : world) : world :=
  match w_queues w !! q with
  | None => w
  | Some mq =>
      let mq' := set_q_msgs (mq_insert (prio, data) (q_msgs mq)) mq in
      match q_msgs mq, q_notify mq with
      | [], Some r =>
          let w' := set_queues (<[q := set_q_notify None mq']> (w_queues w)) w in
          match r with
          | reg_self sev => set_spawned (w_spawned w ++ [sev]) w'
          | reg_other => w'
          end
      | _, _ => set_queues (<[q := mq']> (w_queues w)) w
      end
  end.

Definition now_ns (tv : timeval) : Z := tv_sec tv * 1000000000 + tv_usec tv * 1000.
Definition deadline_ns (ts : timespec) : Z := ts_sec ts * 1000000000 + ts_nsec ts.

(** ** One call against the world *)

Inductive result (X : Type) : Type :=
| Ok (x : X) (w : world)            (* the call returns *)
| Block                              (* the caller sleeps in the call *)
| Crash.                             (* invalid access: the process dies *)
Arguments Ok {X} x w.
Arguments Block {X}.
Arguments Crash {X}.

Definition fails (e : errno) (w : world) : result Z :=
  Ok (-1) (set_errno (Some e) w).

Definition fresh_addr (w : world) : positive := fresh (dom (w_heap w)).
Definition fresh_fd (w : world) : nat := fresh (dom (w_fds w)).
Definition fresh_queue (w : world) : nat := fresh (dom (w_queues w)).

Definition do_alloc (o : obj) (w : world) : result ptr :=
  let a := fresh_addr w in Ok (Z.pos a) (set_heap (<[a := o]> (w_heap w)) w).

Definition do_calloc (o : obj) (w : world) : result ptr :=
  match w_calloc_left w with
  | O => Ok NULL (set_errno (Some ENOMEM) w)
  | S n => do_alloc o (set_calloc_left n w)
  end.

Definition do_free (p : ptr) (w : world) : result unit :=
  if p =? NULL then Ok tt w
  else match heap_at w p with
       | Some _ => Ok tt (heap_del p w)
       | None => Crash
       end.

Definition open_on (q : nat) (oflag : Z) (w : world) : result Z :=
  let fd := fresh_fd w in
  Ok (Z.of_nat fd) (set_fds (<[fd := (q, oflag)]> (w_fds w)) w).

Definition do_mq_open (name : string) (oflag : Z) (attr : mq_attr) (w : world)
  : result Z :=
  match w_names w !! cstr name with
  | Some q =>
      if has_flag oflag O_CREAT && has_flag oflag O_EXCL then fails EEXIST w
      else open_on q oflag w
  | None =>
      if has_flag oflag O_CREAT then
        if (w_queues_max w <=? size (w_names w))%nat then fails ENOSPC w
        else
          let q := fresh_queue w in
          let mq := Mqueue (mq_maxmsg attr) (mq_msgsize attr) [] None in
          open_on q oflag
            (set_names (<[cstr name := q]> (w_names w))
               (set_queues (<[q := mq]> (w_queues w)) w))
      else fails ENOENT w
  end.

Definition do_mq_unlink (name : string) (w : world) : result Z :=
  match w_names w !! cstr name with
  | Some _ => Ok 0 (set_names (delete (cstr name) (w_names w)) w)
  | None => fails ENOENT w
  end.

(** Closing a descriptor also withdraws the process's own notification
    request on the queue. *)
Definition do_mq_close (mqd : Z) (w : world) : result Z :=
  match queue_of w mqd with
  | Some (q, _, mq) =>
      let mq' := match q_notify mq with
                 | Some (reg_self _) => set_q_notify None mq
                 | _ => mq
                 end in
      Ok 0 (set_fds (delete (Z.to_nat mqd) (w_fds w))
              (set_queues (<[q := mq']> (w_queues w)) w))
  | None => fails EBADF w
  end.

(** mq_notify fails on a bad descriptor and on a queue that has a request
    already; its failures for want of memory are not in this world, and
    are met with [replay]. *)
Definition do_mq_notify (mqd : Z) (sev : sigevent) (w : world) : result Z :=
  match queue_of w mqd with
  | Some (q, _, mq) =>
      match q_notify mq with
      | Some _ => fails EBUSY w
      | None =>
          Ok 0 (set_queues (<[q := set_q_notify (Some (reg_self sev)) mq]>
                              (w_queues w)) w)
      end
  | None => fails EBADF w
  end.

Definition do_mq_receive (mqd : Z) (buf : ptr) (len : Z) (w : world) : result Z :=
  match queue_of w mqd with
  | Some (q, oflag, mq) =>
      if negb (can_read oflag) then fails EBADF w
      else if len <? q_msgsize mq then fails EMSGSIZE w
      else match q_msgs mq with
           | [] => if has_flag oflag O_NONBLOCK then fails EAGAIN w else Block
           | (_, data) :: rest =>
               match buf_at w buf with
               | Some old =>
                   Ok (Z.of_nat (String.length data))
                      (heap_put buf (O_buf (overwrite data old))
                         (set_queues (<[q := set_q_msgs rest mq]> (w_queues w)) w))
               | None => fails EFAULT w
               end
           end
  | None => fails EBADF w
  end.

Definition do_mq_send (mqd : Z) (data : string) (len prio : Z) (w : world)
  : result Z :=
  match queue_of w mqd with
  | Some (q, oflag, mq) =>
      if negb (can_write oflag) then fails EBADF w
      else if q_msgsize mq <? len then fails EMSGSIZE w
      else if q_maxmsg mq <=? Z.of_nat (length (q_msgs mq)) then
        if has_flag oflag O_NONBLOCK then fails EAGAIN w else Block
      else Ok 0 (deliver q prio (str_take (Z.to_nat len) data) w)
  | None => fails EBADF w
  end.

(** The semaphore of a context is addressed by the context. *)
Definition do_sem_init (p : ptr) (value : Z) (w : world) : result Z :=
  match ctx_at w p with
  | Some c =>
      if w_sem_ok w
      then Ok 0 (heap_put p (O_ctx (set_sem (Some (Z.to_nat value)) c)) w)
      else fails ENOSYS w
  | None => Crash
  end.

Definition do_sem_wait (p : ptr) (w : world) : result Z :=
  match ctx_at w p with
  | Some c =>
      match sem c with
      | Some (S n) => Ok 0 (heap_put p (O_ctx (set_sem (Some n) c)) w)
      | Some O => Block
      | None => fails EINVAL w
      end
  | None => Crash
  end.

Definition do_sem_timedwait (p : ptr) (abs_time : timespec) (w : world)
  : result Z :=
  match ctx_at w p with
  | Some c =>
      match sem c with
      | Some (S n) => Ok 0 (heap_put p (O_ctx (set_sem (Some n) c)) w)
      | Some O =>
          if (ts_nsec abs_time <? 0) || (1000000000 <=? ts_nsec abs_time)
          then fails EINVAL w
          else if deadline_ns abs_time <=? now_ns (w_now w)
          then fails ETIMEDOUT w
          else Block
      | None => fails EINVAL w
      end
  | None => Crash
  end.

Definition do_sem_post (p : ptr) (w : world) : result Z :=
  match ctx_at w p with
  | Some c =>
      match sem c with
      | Some n => Ok 0 (heap_put p (O_ctx (set_sem (Some (S n)) c)) w)
      | None => fails EINVAL w
      end
  | None => Crash
  end.

Definition do_sem_destroy (p : ptr) (w : world) : result Z :=
  match ctx_at w p with
  | Some c => Ok 0 (heap_put p (O_ctx (set_sem None c)) w)
  | None => Crash
  end.

(** The answer of the world to a call.  An access through a pointer that
    holds nothing of the right kind kills the process.  A local array
    starts as zeros (its contents are indeterminate in C; [on_connect]
    clears it before reading it).  What the user's callback does is not
    known: it is only recorded that it was called. *)
Definition step {X} (e : sysE X) (w : world) : result X :=
  match e in sysE X return result X with
  | CtxLoad p =>
      match ctx_at w p with Some c => Ok c w | None => Crash end
  | CtxStore p f =>
      match ctx_at w p with
      | Some c => Ok tt (heap_put p (O_ctx (f c)) w)
      | None => Crash
      end
  | IpcCtx ipc =>
      match heap_at w ipc with Some (O_ipc ctx) => Ok ctx w | _ => Crash end
  | GetRecvCb => Ok (w_recv_cb w) w
  | SetRecvCb cb => Ok tt (set_recv_cb cb w)
  | GetRecvBuf => Ok (w_recv_buf w) w
  | SetRecvBuf p => Ok tt (set_recv_buf p w)
  | Alloca n => do_alloc (O_buf (zeros (Z.to_nat n))) w
  | Dealloca p => Ok tt (heap_del p w)
  | Memset0 p n =>
      match buf_at w p with
      | Some old => Ok tt (heap_put p (O_buf (overwrite (zeros (Z.to_nat n)) old)) w)
      | None => Crash
      end
  | BufLoad p =>
      match buf_at w p with Some s => Ok s w | None => Crash end
  | CallocCtx => do_calloc (O_ctx zero_ctx) w
  | Calloc n size => do_calloc (O_buf (zeros (Z.to_nat (n * size)))) w
  | Free p => do_free p w
  | MqUnlink name => do_mq_unlink name w
  | MqOpen name oflag _ attr => do_mq_open name oflag attr w
  | MqClose mqd => do_mq_close mqd w
  | MqNotify mqd sev => do_mq_notify mqd sev w
  | MqReceive mqd buf len => do_mq_receive mqd buf len w
  | MqSend mqd data len prio => do_mq_send mqd data len prio w
  | SemInit p _ value => do_sem_init p value w
  | SemWait p => do_sem_wait p w
  | SemTimedwait p abs_time => do_sem_timedwait p abs_time w
  | SemPost p => do_sem_post p w
  | SemDestroy p => do_sem_destroy p w
  | Gettimeofday => Ok (w_now w) w
  | Printf _ => Ok tt w
  | RecvCb _ _ _ _ => Ok tt w
  end.

(** ** Running a thread *)

Inductive outcome (A : Type) : Type :=
| Done (a : A)
| Blocked (k : prog A)               (* what is left to run once woken *)
| Crashed.
Arguments Done {A} a.
Arguments Blocked {A} k.
Arguments Crashed {A}.

(** The trace keeps a call when it returns, with what it returned; a call
    in which the thread sleeps is kept once the thread has been woken and
    the call has returned. *)
Definition record {X} (e : sysE X) (x : X) (w : world) : world :=
  if traced e then set_trace (w_trace w ++ [Called e x]) w else w.

Fixpoint run {A} (p : prog A) (w : world) : world * outcome A :=
  match p with
  | Ret a => (w, Done a)
  | Vis e k =>
      match step e w with
      | Ok x w' => run (k x) (record e x w')
      | Block => (w, Blocked p)
      | Crash => (w, Crashed)
      end
  end.

(** ** C integers (LP64) *)

Definition wrap_signed (bits : Z) (z : Z) : Z :=
  (z + 2 ^ (bits - 1)) mod 2 ^ bits - 2 ^ (bits - 1).
Definition to_int (z : Z) : Z := wrap_signed 32 z.
Definition to_long (z : Z) : Z := wrap_signed 64 z.
Definition to_uint32 (z : Z) : Z := z mod 2 ^ 32.

(** ** The functions of msgq_posix.c *)

Definition printf (fmt : string) : prog unit := sys (Printf fmt).

Definition _mq_notify_update (ctx : ptr) (cb : mq_notify_cb) : prog Z :=
  let sv := Sigevent SIGEV_THREAD cb NULL ctx in
  c <- sys (CtxLoad ctx) ;;
  r <- sys (MqNotify (mq_rd c) sv) ;;
  if r =? -1 then
    printf "mq_notify failed %d: %s\n" ;;
    Ret (-1)
  else Ret 0.

Definition _mq_send (ipc : ptr) (buf : string) (len : Z) : prog Z :=
  ctx <- sys (IpcCtx ipc) ;;
  c <- sys (CtxLoad ctx) ;;
  r <- sys (MqSend (mq_wr c) buf len MQ_MSG_PRIO) ;;
  if negb (0 =? r) then
    printf "mq_send failed %d: %s\n" ;;
    Ret (-1)
  else Ret (to_int len).

Definition _mq_recv (ipc : ptr) (buf : ptr) (len : Z) : prog Z :=
  ctx <- sys (IpcCtx ipc) ;;
  c <- sys (CtxLoad ctx) ;;
  ret <- sys (MqReceive (mq_rd c) buf len) ;;
  if -1 =? ret then
    printf "mq_receive failed %d: %s\n" ;;
    Ret (-1)
  else Ret (to_int ret).

Definition on_recv (sv : ptr) : prog unit :=
  let ctx := sv in
  c <- sys (CtxLoad ctx) ;;
  let ipc := parent c in
  r <- _mq_notify_update ctx cb_on_recv ;;
  if -1 =? r then
    printf "_mq_notify_update failed!\n"
  else
    buf <- sys GetRecvBuf ;;
    len <- _mq_recv ipc buf MAX_IPC_MESSAGE_SIZE ;;
    if len =? -1 then
      printf "_mq_recv failed!\n"
    else
      cb <- sys GetRecvCb ;;
      if negb (cb =? NULL) then
        cb <- sys GetRecvCb ;;
        buf <- sys GetRecvBuf ;;
        sys (RecvCb cb ipc buf len)
      else Ret tt.

(** The body of [on_connect], given the address of its local [buf]. *)
Definition on_connect_body (sv : ptr) (buf : ptr) : prog unit :=
  let ctx := sv in
  c <- sys (CtxLoad ctx) ;;
  let ipc := parent c in
  r <- _mq_notify_update ctx cb_on_recv ;;
  if -1 =? r then
    printf "_mq_notify_update failed!\n"
  else
    sys (Memset0 buf MAX_IPC_MESSAGE_SIZE) ;;
    len <- _mq_recv ipc buf MAX_IPC_MESSAGE_SIZE ;;
    if len <=? 0 then
      printf "_mq_recv failed!\n"
    else
      c <- sys (CtxLoad ctx) ;;
      match role c with
      | IPC_SERVER =>
          b <- sys (BufLoad buf) ;;
          sys (CtxStore ctx (set_mq_wr_name (strncpy b MAX_MQ_NAME))) ;;
          sys (SemPost ctx) ;;
          Ret tt
      | IPC_CLIENT =>
          b <- sys (BufLoad buf) ;;
          c <- sys (CtxLoad ctx) ;;
          if negb (strcmp b (mq_rd_name c) =? 0) then
            printf "connect response check failed!\n"
          else
            sys (SemPost ctx) ;;
            Ret tt
      end.

Definition on_connect (sv : ptr) : prog unit :=
  buf <- sys (Alloca MAX_IPC_MESSAGE_SIZE) ;;
  on_connect_body sv buf ;;
  sys (Dealloca buf).

(** What a notification thread runs. *)
Definition notify_function (cb : mq_notify_cb) : ptr -> prog unit :=
  match cb with
  | cb_on_connect => on_connect
  | cb_on_recv => on_recv
  end.

Definition _mq_init (name : string) (role : ipc_role) : prog ptr :=
  ctx <- sys CallocCtx ;;
  if ctx =? NULL then
    printf "malloc failed!\n" ;;
    Ret NULL
  else
    let attr := Mq_attr 0 MQ_MAXMSG MQ_MSGSIZE 0 in
    let rflag := Z.lor (Z.lor (Z.lor O_RDWR O_EXCL) O_CREAT) O_NONBLOCK in
    sys (MqUnlink name) ;;
    fd <- sys (MqOpen name rflag (Z.lor S_IRWXU S_IRWXG) attr) ;;
    sys (CtxStore ctx (set_mq_rd fd)) ;;
    if fd <? 0 then
      printf "mq_open %s failed %d:%s\n" ;;
      Ret NULL
    else
      sys (CtxStore ctx (set_role role)) ;;
      sys (CtxStore ctx (set_mq_rd_name (strncpy name MAX_MQ_NAME))) ;;
      r <- sys (SemInit ctx 0 0) ;;
      if -1 =? r then
        printf "sem_init failed %d:%s\n" ;;
        Ret NULL
      else
        b <- sys (Calloc 1 MAX_IPC_MESSAGE_SIZE) ;;
        sys (SetRecvBuf b) ;;
        b <- sys GetRecvBuf ;;
        if b =? NULL then
          printf "malloc failed!\n" ;;
          Ret NULL
        else
          r <- _mq_notify_update ctx cb_on_connect ;;
          if -1 =? r then
            printf "_mq_notify_update failed!\n" ;;
            Ret NULL
          else Ret ctx.

Definition _mq_set_recv_cb (ipc : ptr) (cb : ptr) : prog Z :=
  sys (SetRecvCb cb) ;;
  Ret 0.

Definition _mq_accept (ipc : ptr) : prog Z :=
  ctx <- sys (IpcCtx ipc) ;;
  sys (CtxStore ctx (set_parent ipc)) ;;
  let attr := Mq_attr 0 MQ_MAXMSG MQ_MSGSIZE 0 in
  sys (SemWait ctx) ;;
  c <- sys (CtxLoad ctx) ;;
  fd <- sys (MqOpen (mq_wr_name c) O_WRONLY (Z.lor S_IRWXU S_IRWXG) attr) ;;
  sys (CtxStore ctx (set_mq_wr fd)) ;;
  if fd <? 0 then
    printf "mq_open %s failed: %d:%s\n" ;;
    Ret (-1)
  else
    c <- sys (CtxLoad ctx) ;;
    r <- _mq_send ipc (mq_wr_name c) (strlen (mq_wr_name c)) ;;
    if r <? 0 then
      printf "_mq_send failed!\n" ;;
      Ret (-1)
    else Ret 0.

(** Lines 219-233 of [_mq_connect]: the timeout added to the time of day,
    the microseconds carried into the seconds, the result as a timespec. *)
Definition connect_abs_time (timeout : Z) (now : timeval) : timespec :=
  let usec := to_long (tv_usec now + to_uint32 (to_uint32 (timeout mod 1000) * 1000)) in
  let sec := to_long (tv_sec now + to_uint32 (timeout / 1000)) in
  let usec' := if 1000000 <=? usec then to_long (usec - 1000000) else usec in
  let sec' := if 1000000 <=? usec then to_long (sec + 1) else sec in
  Timespec sec' (to_long (usec' * 1000)).

Definition connect_timeout : Z := 5000.

Definition _mq_connect (ipc : ptr) (name : string) : prog Z :=
  ctx <- sys (IpcCtx ipc) ;;
  let attr := Mq_attr 0 MQ_MAXMSG MQ_MSGSIZE 0 in
  sys (CtxStore ctx (set_parent ipc)) ;;
  let wflag := Z.lor O_WRONLY O_EXCL in
  fd <- sys (MqOpen name wflag (Z.lor S_IRWXU S_IRWXG) attr) ;;
  sys (CtxStore ctx (set_mq_wr fd)) ;;
  if fd <? 0 then
    printf "mq_open %s failed: %d:%s\n" ;;
    Ret (-1)
  else
    sys (CtxStore ctx (set_mq_wr_name (strncpy name MAX_MQ_NAME))) ;;
    c <- sys (CtxLoad ctx) ;;
    r <- _mq_send ipc (mq_rd_name c) (strlen (mq_rd_name c)) ;;
    if r <? 0 then
      printf "_mq_send failed!\n" ;;
      Ret (-1)
    else
      now <- sys Gettimeofday ;;
      let abs_time := connect_abs_time connect_timeout now in
      r <- sys (SemTimedwait ctx abs_time) ;;
      if -1 =? r then
        printf "connect %s failed %d: %s\n" ;;
        Ret (-1)
      else Ret 0.

Definition _mq_deinit (ipc : ptr) : prog unit :=
  if ipc =? NULL then Ret tt
  else
    ctx <- sys (IpcCtx ipc) ;;
    c <- sys (CtxLoad ctx) ;;
    sys (MqClose (mq_rd c)) ;;
    c <- sys (CtxLoad ctx) ;;
    sys (MqClose (mq_wr c)) ;;
    c <- sys (CtxLoad ctx) ;;
    sys (MqUnlink (mq_rd_name c)) ;;
    c <- sys (CtxLoad ctx) ;;
    sys (MqUnlink (mq_wr_name c)) ;;
    sys (SemDestroy ctx) ;;
    b <- sys GetRecvBuf ;;
    (if negb (b =? NULL) then
       b <- sys GetRecvBuf ;;
       sys (Free b)
     else Ret tt) ;;
    sys (Free ctx).

(** ** The environment of the backend *)

(** The dispatch layer owns the [struct ipc]; it stores there what [init]
    returned. *)
Definition new_ipc (ctx : ptr) (w : world) : ptr * world :=
  let a := fresh_addr w in
  (Z.pos a, set_heap (<[a := O_ipc ctx]> (w_heap w)) w).

(** Another process sends to a queue it has open. *)
Definition peer_send (name : string) (prio : Z) (data : string) (w : world) : world :=
  match w_names w !! cstr name with
  | Some q => deliver q prio data w
  | None => w
  end.

(** The next notification thread, if one is due. *)
Definition next_thread (w : world) : option (prog unit * world) :=
  match w_spawned w with
  | [] => None
  | sev :: rest =>
      Some (notify_function (sigev_notify_function sev) (sigev_value sev),
            set_spawned rest w)
  end.

(** Time passes. *)
Definition later (secs : Z) (w : world) : world :=
  set_now (Timeval (tv_sec (w_now w) + secs) (tv_usec (w_now w))) w.

(** The world in which the next notification thread starts. *)
Definition started (w : world) : world :=
  match next_thread w with
  | Some (_, w') => w'
  | None => w
  end.

(** The context found at an address. *)
Definition ctx_of (w : world) (p : ptr) : mq_ctx :=
  match ctx_at w p with
  | Some c => c
  | None => zero_ctx
  end.

(** A fresh process on a machine without queues. *)
Definition boot : world :=
  World ∅ ∅ 256 ∅ ∅ NULL NULL None (Timeval 1700000000 0) 64 true [] [].

(** The calls of a trace that satisfy [f]. *)
Definition calls_where (f : call -> bool) (t : list call) : list call :=
  List.filter f t.

Definition is_mq_notify (c : call) : bool :=
  match c_ev c with MqNotify _ _ => true | _ => false end.
Definition is_mq_receive (c : call) : bool :=
  match c_ev c with MqReceive _ _ _ => true | _ => false end.
Definition is_mq_send (c : call) : bool :=
  match c_ev c with MqSend _ _ _ _ => true | _ => false end.
Definition is_mq_unlink (c : call) : bool :=
  match c_ev c with MqUnlink _ => true | _ => false end.
Definition is_mq_close (c : call) : bool :=
  match c_ev c with MqClose _ => true | _ => false end.
Definition is_free (c : call) : bool :=
  match c_ev c with Free _ => true | _ => false end.
Definition is_sem_timedwait (c : call) : bool :=
  match c_ev c with SemTimedwait _ _ => true | _ => false end.
Definition is_recv_cb (c : call) : bool :=
  match c_ev c with RecvCb _ _ _ _ => true | _ => false end.

(** The calls made between two worlds of one run. *)
Definition since (w w' : world) : list call :=
  skipn (length (w_trace w)) (w_trace w').

(** The payloads of the sends of a trace that went through. *)
Definition sent_payload (c : call) : option string :=
  match c with
  | Called e r =>
      match e in sysE X return X -> option string with
      | MqSend _ data len _ =>
          fun r => if r =? 0 then Some (str_take (Z.to_nat len) data) else None
      | _ => fun _ => None
      end r
  end.

Definition payloads_sent (t : list call) : list string :=
  omap sent_payload t.

(** The deadline a thread sleeps on, when it sleeps in sem_timedwait. *)
Definition waits_until {A} (o : outcome A) : option timespec :=
  match o with
  | Blocked (Vis e _) =>
      match e with
      | SemTimedwait _ abs_time => Some abs_time
      | _ => None
      end
  | _ => None
  end.

(** The notification request this process holds on the queue behind a
    descriptor. *)
Definition own_request (w : world) (mqd : Z) : option sigevent :=
  match queue_of w mqd with
  | Some (_, _, mq) =>
      match q_notify mq with
      | Some (reg_self sev) => Some sev
      | _ => None
      end
  | None => None
  end.

(** The count of the gate of a context. *)
Definition gate (w : world) (ctx : ptr) : option nat :=
  match ctx_at w ctx with
  | Some c => sem c
  | None => None
  end.

(** Running some more: a sleeping thread is woken, the next notification
    thread is started. *)
Definition resume {A} (o : outcome A) (w : world) : world * outcome A :=
  match o with
  | Blocked k => run k w
  | _ => (w, o)
  end.

Definition run_thread (w : world) : world * outcome unit :=
  match next_thread w with
  | Some (p, w') => run p w'
  | None => (w, Done tt)
  end.

Definition value_of (o : outcome ptr) : ptr :=
  match o with
  | Done a => a
  | _ => NULL
  end.

(** [register_receive_callback], called for each (endpoint, callback) of
    a list in turn. *)
Fixpoint register_all (l : list (ptr * ptr)) : prog unit :=
  match l with
  | [] => Ret tt
  | (ipc, cb) :: r => _mq_set_recv_cb ipc cb ;; register_all r
  end.

(** The request a handler registers when it re-arms: a thread on
    [on_recv], with the context as its argument. *)
Definition rearm (sv : ptr) : sigevent :=
  Sigevent SIGEV_THREAD cb_on_recv NULL sv.

(** What the client's check of the confirmation comes to: the payload is
    not empty, and reads, as a C string, as the name does. *)
Definition echo_ok (data name : string) : bool :=
  negb (String.eqb data "") && String.eqb (cstr data) (cstr name).

(** The integer a call returned. *)
Definition ret_Z (c : call) : option Z :=
  match c with
  | Called e r =>
      match e in sysE X return X -> option Z with
      | MqUnlink _ | MqOpen _ _ _ _ | MqClose _ | MqNotify _ _
      | MqReceive _ _ _ | MqSend _ _ _ _ | SemInit _ _ _ | SemWait _
      | SemTimedwait _ _ | SemPost _ | SemDestroy _ => fun r => Some r
      | _ => fun _ => None
      end r
  end.

(** The calls that touch neither the descriptors nor the queues. *)
Definition off_queue {X} (e : sysE X) : bool :=
  match e with
  | MqNotify _ _ | MqClose _ | MqSend _ _ _ _ | MqOpen _ _ _ _
  | MqUnlink _ | MqReceive _ _ _ => false
  | _ => true
  end.

(** The context on whose gate a thread sleeps, when it sleeps in sem_wait. *)
Definition sleeps_on_gate {A} (o : outcome A) : option ptr :=
  match o with
  | Blocked (Vis e _) =>
      match e with
      | SemWait p => Some p
      | _ => None
      end
  | _ => None
  end.

(** [accept] returns [a], leaving the world [w']: called in [w] with the
    gate open, or woken in [w] from its sleep on the gate of [ctx]. *)
Definition accept_returns (ipc ctx : ptr) (w w' : world) (a : Z) : Prop :=
  run (_mq_accept ipc) w = (w', Done a) \/
  exists w0 w1 k,
    run (_mq_accept ipc) w0 = (w1, Blocked k) /\
    sleeps_on_gate (Blocked k) = Some ctx /\
    run k w = (w', Done a).

(** A notification thread starts on the context [sv] and will find [data]
    at the head of the read queue: the context is live and linked with its
    endpoint (accept or connect has set [parent]), its read descriptor is
    open for reading on a queue whose messages fit the receive length, and
    the firing has spent the endpoint's request on that queue. *)
Record finds_message (w : world) (sv : ptr) (c : mq_ctx) (q : nat) (oflag : Z)
    (mq : mqueue) (prio : Z) (data : string) (rest : list (Z * string))
  : Prop := {
  fm_ctx : ctx_at w sv = Some c;
  fm_ipc : heap_at w (parent c) = Some (O_ipc sv);
  fm_queue : queue_of w (mq_rd c) = Some (q, oflag, mq);
  fm_spent : q_notify mq = None;
  fm_read : can_read oflag = true;
  fm_size : q_msgsize mq <= MAX_IPC_MESSAGE_SIZE;
  fm_head : q_msgs mq = (prio, data) :: rest;
  fm_fits : Z.of_nat (String.length data) <= q_msgsize mq
}.

(** A name field that holds a C string: a NUL lies within the MAX_MQ_NAME
    bytes of the array.  strncpy leaves none when its source has
    MAX_MQ_NAME bytes or more before its NUL, and strlen, strcmp, mq_open
    and mq_unlink then read on into the next field of [struct mq_ctx],
    where [cstr] and [strcmp] stop at the end of the array.  What is
    proved of a name field read as a C string is proved of a terminated
    one. *)
Definition terminated (name : string) : Prop :=
  (String.length (cstr name) < MAX_MQ_NAME)%nat.

(** The arguments [_mq_init] gives to mq_open. *)
Definition rflag : Z := Z.lor (Z.lor (Z.lor O_RDWR O_EXCL) O_CREAT) O_NONBLOCK.
Definition init_attr : mq_attr := Mq_attr 0 MQ_MAXMSG MQ_MSGSIZE 0.
Definition init_mode : Z := Z.lor S_IRWXU S_IRWXG.

(** The clock read by gettimeofday: microseconds below a second, seconds
    far from the end of [time_t]. *)
Definition clock_ok (now : timeval) : Prop :=
  0 <= tv_usec now < 1000000 /\ 0 <= tv_sec now < 2 ^ 62.

(** ** Two endpoints and a handshake, step by step

    A process that holds both endpoints, as a test program would: the
    server and the client are initialised, the server sleeps in accept, the
    client connects and sleeps, and the notification threads do the rest. *)
Module Scenario.

Definition srv_name : string := "/IPC_SERVER.5555".
Definition cli_name : string := "/IPC_CLIENT.42".

Definition srv_init := run (_mq_init srv_name IPC_SERVER) boot.
Definition srv_ipc := new_ipc (value_of (snd srv_init)) (fst srv_init).
Definition cli_init := run (_mq_init cli_name IPC_CLIENT) (snd srv_ipc).
Definition cli_ipc := new_ipc (value_of (snd cli_init)) (fst cli_init).

Definition srv : ptr := fst srv_ipc.
Definition cli : ptr := fst cli_ipc.
Definition both_up : world := snd cli_ipc.

(** accept sleeps on the gate; connect opens, sends its name, sleeps. *)
Definition accept_sleeps := run (_mq_accept srv) both_up.
Definition connect_sleeps := run (_mq_connect cli srv_name) (fst accept_sleeps).
(** on_connect of the server, then accept goes on. *)
Definition srv_notified := run_thread (fst connect_sleeps).
Definition accept_wakes := resume (snd accept_sleeps) (fst srv_notified).
(** on_connect of the client, then connect goes on. *)
Definition cli_notified := run_thread (fst accept_wakes).
Definition connect_wakes := resume (snd connect_sleeps) (fst cli_notified).

Definition connected : world := fst connect_wakes.

Definition srv_ctx : ptr := value_of (snd srv_init).
Definition cli_ctx : ptr := value_of (snd cli_init).

(** The world in which the client's on_connect starts on the server's
    confirmation. *)
Definition cli_fires : world := started (fst accept_wakes).

(** accept called once more, the gate being open. *)
Definition accept_again := run (_mq_accept srv) (fst srv_notified).

(** Instead of the server's confirmation, the sleeping client gets its
    name followed by a NUL and one more byte. *)
Definition forged : string := String.append cli_name (String NUL "x").
Definition forged_sent :=
  peer_send cli_name MQ_MSG_PRIO forged (fst connect_sleeps).
Definition forged_srv := run_thread forged_sent.
Definition forged_fires := started (fst forged_srv).
Definition forged_checked := run (on_connect cli_ctx) forged_fires.
Definition forged_connect := resume (snd connect_sleeps) (fst forged_checked).

(** Instead of the server's confirmation, the sleeping client gets the
    server's own name; it is woken at once, and five seconds later. *)
Definition wrong_sent :=
  peer_send cli_name MQ_MSG_PRIO srv_name (fst connect_sleeps).
Definition wrong_srv := run_thread wrong_sent.
Definition wrong_checked := run_thread (fst wrong_srv).
Definition wrong_early := resume (snd connect_sleeps) (fst wrong_checked).
Definition wrong_late :=
  resume (snd connect_sleeps) (later 5 (fst wrong_checked)).

(** Connected, a callback registered, a message for the server. *)
Definition a_callback : ptr := 4096.
Definition registered := fst (run (_mq_set_recv_cb srv a_callback) connected).
Definition data_sent := peer_send srv_name MQ_MSG_PRIO "hello" registered.
Definition data_fires := started data_sent.

(** Connected, a message for the server; the main thread receives it
    before the notification thread does; then a second message comes. *)
Definition raced_sent := peer_send srv_name MQ_MSG_PRIO "hello" connected.
Definition raced_fires := started raced_sent.
Definition raced_drained :=
  run (_mq_recv srv (w_recv_buf raced_fires) MAX_IPC_MESSAGE_SIZE) raced_fires.
Definition raced_handler := run (on_recv srv_ctx) (fst raced_drained).
Definition raced_later :=
  peer_send srv_name MQ_MSG_PRIO "again" (fst raced_handler).

(** The server tears down while the client is connected. *)
Definition srv_deinit := run (_mq_deinit srv) connected.

(** A client alone on the machine. *)
Definition lone_init := run (_mq_init cli_name IPC_CLIENT) boot.
Definition lone_ipc := new_ipc (value_of (snd lone_init)) (fst lone_init).

(** The machine after the server died: its queue is still there, its
    memory and descriptors are gone. *)
Definition srv_died : world :=
  World (w_names (fst srv_init)) (w_queues (fst srv_init)) 256 ∅ ∅ NULL NULL
    None (Timeval 1700000060 0) 64 true [] [].


End Scenario.

(** ** Endpoints at work

    What is said of a world when a message travels: who writes to a queue,
    who reads from it, and in what state the queue waits. *)

(** The endpoint [ipc] has its write descriptor open, for writing, on the
    queue object [q], which is [mq]. *)
Definition writes_to (w : world) (ipc : ptr) (q : nat) (mq : mqueue) : Prop :=
  exists ctx c oflag,
    heap_at w ipc = Some (O_ipc ctx) /\
    ctx_at w ctx = Some c /\
    queue_of w (mq_wr c) = Some (q, oflag, mq) /\
    can_write oflag = true.

(** The context [ctx], which is [c], is linked with its endpoint and has
    its read descriptor open, for reading, on the queue object [q], which is
    [mq] and whose messages fit the shared receive buffer. *)
Definition reads_from (w : world) (ctx : ptr) (c : mq_ctx) (q : nat)
    (mq : mqueue) : Prop :=
  exists oflag,
    ctx_at w ctx = Some c /\
    heap_at w (parent c) = Some (O_ipc ctx) /\
    queue_of w (mq_rd c) = Some (q, oflag, mq) /\
    can_read oflag = true /\
    q_msgsize mq <= MAX_IPC_MESSAGE_SIZE.

(** A queue that is empty and on which the context [ctx] has asked for a
    thread on [on_recv]: the state of a read queue between two messages. *)
Definition idle (ctx : ptr) (mq : mqueue) : Prop :=
  q_msgs mq = [] /\ q_notify mq = Some (reg_self (rearm ctx)).

(** Messages reach the queue object [q] one after the other. *)
Definition deliver_all (q : nat) (l : list (Z * string)) (w : world) : world :=
  fold_left (fun w0 m => deliver q (fst m) (snd m) w0) l w.

(** Another process unlinks a name. *)
Definition peer_unlink (name : string) (w : world) : world :=
  set_names (delete (cstr name) (w_names w)) w.

(** [n] bytes [c]. *)
Fixpoint filled (n : nat) (c : ascii) : string :=
  match n with
  | O => EmptyString
  | S k => String c (filled k c)
  end.

(** Lines 251-255 of [_mq_deinit]: the semaphore, the shared buffer and
    the context are released. *)
Definition deinit_release (ctx : ptr) : prog unit :=
  sys (SemDestroy ctx) ;;
  b <- sys GetRecvBuf ;;
  (if negb (b =? NULL) then
     b <- sys GetRecvBuf ;;
     sys (Free b)
   else Ret tt) ;;
  sys (Free ctx).

(** ** Runs against any answers

    [run] takes the answer of each call from the world.  [replay] takes it
    from an oracle, call by call: what a function does whatever libc and
    the kernel answer, also where the world of this file has no such
    answer to give (an mq_notify that fails for want of memory).  The
    trace is kept as [run] keeps it. *)
Definition oracle : Type := nat -> forall X : Type, sysE X -> X.

Fixpoint replay {A} (ans : oracle) (n : nat) (p : prog A) (acc : list call)
  : list call * A :=
  match p with
  | Ret a => (acc, a)
  | Vis e k =>
      let x := ans n _ e in
      replay ans (S n) (k x) (if traced e then acc ++ [Called e x] else acc)
  end.



(** Oracles: every call succeeds; or all but one. *)
Definition all_goes_well : oracle :=
  fun _ X e =>
    match e in sysE T return T with
    | CtxLoad _ => zero_ctx
    | CtxStore _ _ => tt
    | IpcCtx _ => 4096
    | GetRecvCb => NULL
    | SetRecvCb _ => tt
    | GetRecvBuf => 8192
    | SetRecvBuf _ => tt
    | Alloca _ => 12288
    | Dealloca _ => tt
    | Memset0 _ _ => tt
    | BufLoad _ => EmptyString
    | CallocCtx => 4096
    | Calloc _ _ => 8192
    | Free _ => tt
    | MqOpen _ _ _ _ => 3
    | MqUnlink _ | MqClose _ | MqNotify _ _ | MqReceive _ _ _
    | MqSend _ _ _ _ | SemInit _ _ _ | SemWait _ | SemTimedwait _ _
    | SemPost _ | SemDestroy _ => 0
    | Gettimeofday => Timeval 1700000000 0
    | Printf _ => tt
    | RecvCb _ _ _ _ => tt
    end.




(** ** What a program may call

    [always P p]: every call of the tree [p], on every path, passes the
    test [P]. *)
Inductive always {A} (P : forall X, sysE X -> bool) : prog A -> Prop :=
| always_ret (a : A) : always P (Ret a)
| always_vis (X : Type) (e : sysE X) (k : X -> prog A) :
    P X e = true -> (forall x, always P (k x)) -> always P (Vis e k).

(** The test of a call kept in a trace. *)
Definition call_is (P : forall X, sysE X -> bool) (c : call) : bool :=
  P (c_ty c) (c_ev c).

(** The calls that take nothing away: no close, no unlink, no free. *)
Definition keeps_all (X : Type) (e : sysE X) : bool :=
  match e with
  | MqClose _ | MqUnlink _ | Free _ => false
  | _ => true
  end.

(** The calls that leave the queue names as they are: no unlink, and no
    open that may create. *)
Definition keeps_names (X : Type) (e : sysE X) : bool :=
  match e with
  | MqUnlink _ => false
  | MqOpen _ oflag _ _ => negb (has_flag oflag O_CREAT)
  | _ => true
  end.

(** The calls that open nothing for reading without O_NONBLOCK. *)
Definition opens_nonblocking (X : Type) (e : sysE X) : bool :=
  match e with
  | MqOpen _ oflag _ _ => negb (can_read oflag) || has_flag oflag O_NONBLOCK
  | _ => true
  end.

(** The calls in which a thread cannot sleep, but for a receive. *)
Definition sleeps_in_receive_only (X : Type) (e : sysE X) : bool :=
  match e with
  | MqSend _ _ _ _ | SemWait _ | SemTimedwait _ _ => false
  | _ => true
  end.

(** Every descriptor of the process that can be read is non-blocking. *)
Definition reads_nonblocking (w : world) : Prop :=
  forall fd q oflag,
    w_fds w !! fd = Some (q, oflag) -> can_read oflag = true ->
    has_flag oflag O_NONBLOCK = true.

(** The same, as a test on the descriptors one by one. *)
Definition all_reads_nonblocking (w : world) : bool :=
  forallb (fun e => negb (can_read (snd (snd e)))
                    || has_flag (snd (snd e)) O_NONBLOCK)
          (map_to_list (w_fds w)).

(** The programs of an endpoint in service, between [init] and [deinit]:
    the five entry points, the two notification functions, and what is
    left of one of them when its thread sleeps. *)
Inductive in_service : forall A : Type, prog A -> Prop :=
| svc_accept (ipc : ptr) : in_service Z (_mq_accept ipc)
| svc_connect (ipc : ptr) (name : string) : in_service Z (_mq_connect ipc name)
| svc_send (ipc : ptr) (buf : string) (len : Z) :
    in_service Z (_mq_send ipc buf len)
| svc_recv (ipc buf : ptr) (len : Z) : in_service Z (_mq_recv ipc buf len)
| svc_set_recv_cb (ipc cb : ptr) : in_service Z (_mq_set_recv_cb ipc cb)
| svc_notified (cb : mq_notify_cb) (sv : ptr) :
    in_service unit (notify_function cb sv)
| svc_woken (A : Type) (p k : prog A) (w w' : world) :
    in_service A p -> run p w = (w', Blocked k) -> in_service A k.

(** All the programs of the backend. *)
Inductive in_backend : forall A : Type, prog A -> Prop :=
| bk_init (name : string) (role : ipc_role) :
    in_backend ptr (_mq_init name role)
| bk_deinit (ipc : ptr) : in_backend unit (_mq_deinit ipc)
| bk_service (A : Type) (p : prog A) : in_service A p -> in_backend A p.

(** ** More turns of the same two endpoints *)
Module Cases.

(** The server is initialised and has not called accept yet when a
    client's name arrives: its on_connect starts. *)
Definition early_fires : world :=
  started (peer_send Scenario.srv_name MQ_MSG_PRIO Scenario.cli_name
             (snd Scenario.srv_ipc)).

(** The handshake, when the server's on_connect starts. *)
Definition srv_fires : world := started (fst Scenario.connect_sleeps).

(** A peer announces itself under a name of 300 bytes. *)
Definition long_name : string := filled 300 "a".
Definition long_fires : world :=
  started (peer_send Scenario.srv_name MQ_MSG_PRIO long_name
             (fst Scenario.accept_sleeps)).

(** Connected; two messages for the server come before its thread runs. *)
Definition burst : world :=
  peer_send Scenario.srv_name MQ_MSG_PRIO "two"
    (peer_send Scenario.srv_name MQ_MSG_PRIO "one" Scenario.connected).
Definition burst_fires : world := started burst.

(** A machine that takes no more queues, a process without memory. *)
Definition no_room : world :=
  World ∅ ∅ 0 ∅ ∅ NULL NULL None (Timeval 1700000000 0) 64 true [] [].
Definition no_memory : world := set_calloc_left 0 boot.

(** The client has gone, and its queue with it, when the server gets to
    accept. *)
Definition peer_gone : world :=
  peer_unlink Scenario.cli_name (fst Scenario.srv_notified).

(** The client sends five bytes once connected. *)
Definition cli_sends :=
  run (_mq_send Scenario.cli "hello" 5) Scenario.registered.

(** Connected, a callback registered; two messages for the server come
    before its thread runs, and then the thread runs. *)
Definition burst_registered : world :=
  peer_send Scenario.srv_name MQ_MSG_PRIO "two"
    (peer_send Scenario.srv_name MQ_MSG_PRIO "one" Scenario.registered).
Definition burst_handled := run_thread burst_registered.

(** The client has failed its check on a wrong payload; the server's
    accept then wakes and sends the genuine confirmation, the client's
    thread runs, and connect is woken. *)
Definition late_confirmation :=
  resume (snd Scenario.accept_sleeps) (fst Scenario.wrong_checked).
Definition late_taken := run_thread (fst late_confirmation).
Definition late_connect :=
  resume (snd Scenario.connect_sleeps) (fst late_taken).

End Cases.

(** An endpoint as [init] and the dispatch layer leave it: the context
    behind its [struct ipc], the gate closed, the read descriptor open with
    the flags of [init] on a new, empty queue that bears the endpoint's
    name and on which the handshake handler has been asked for. *)
Record ready (w : world) (ipc ctx : ptr) (c : mq_ctx) (q : nat)
    (r : ipc_role) : Prop := {
  rd_ipc : heap_at w ipc = Some (O_ipc ctx);
  rd_ctx : ctx_at w ctx = Some c;
  rd_role : role c = r;
  rd_gate : sem c = Some O;
  rd_queue :
    queue_of w (mq_rd c)
    = Some (q, rflag,
            Mqueue MQ_MAXMSG MQ_MSGSIZE []
              (Some (reg_self (Sigevent SIGEV_THREAD cb_on_connect NULL ctx))));
  rd_name : w_names w !! cstr (mq_rd_name c) = Some q
}.

(** * Reasoning about runs *)

(** ** Programs and traces *)

Lemma bind_ret_l {A B} (a : A) (f : A -> prog B) : bind (Ret a) f = f a.
Proof. reflexivity. Qed.

Lemma bind_sys {X B} (e : sysE X) (f : X -> prog B) :
  bind (sys e) f = Vis e f.
Proof. reflexivity. Qed.

Lemma run_bind {A B} (p : prog A) (f : A -> prog B) (w : world) :
  run (bind p f) w =
  match run p w with
  | (w', Done a) => run (f a) w'
  | (w', Blocked k) => (w', Blocked (bind k f))
  | (w', Crashed) => (w', Crashed)
  end.
Proof.
  revert w. induction p as [a | X e k IH]; intros w; simpl; [reflexivity |].
  destruct (step e w) as [x w' | |]; [apply IH | reflexivity | reflexivity].
Qed.

Lemma since_app (w w' : world) (l : list call) :
  w_trace w' = w_trace w ++ l -> since w w' = l.
Proof. intros E. unfold since. rewrite E. apply drop_app_length. Qed.

(** ** Lookups *)

Lemma ctx_at_inv w p c :
  ctx_at w p = Some c -> exists a, p = Z.pos a /\ w_heap w !! a = Some (O_ctx c).
Proof.
  unfold ctx_at, heap_at. destruct p as [| a |]; try discriminate.
  destruct (w_heap w !! a) as [[] |] eqn:E; try discriminate.
  intros [= ->]. eauto.
Qed.

Lemma buf_at_inv w p s :
  buf_at w p = Some s -> exists a, p = Z.pos a /\ w_heap w !! a = Some (O_buf s).
Proof.
  unfold buf_at, heap_at. destruct p as [| a |]; try discriminate.
  destruct (w_heap w !! a) as [[] |] eqn:E; try discriminate.
  intros [= ->]. eauto.
Qed.

Lemma ipc_at_inv w p ctx :
  heap_at w p = Some (O_ipc ctx) ->
  exists a, p = Z.pos a /\ w_heap w !! a = Some (O_ipc ctx).
Proof. unfold heap_at. destruct p as [| a |]; try discriminate. eauto. Qed.

Lemma queue_of_inv w mqd q oflag mq :
  queue_of w mqd = Some (q, oflag, mq) ->
  (mqd <? 0) = false /\ w_fds w !! Z.to_nat mqd = Some (q, oflag) /\
  w_queues w !! q = Some mq.
Proof.
  unfold queue_of, fd_at. destruct (mqd <? 0); try discriminate.
  destruct (w_fds w !! Z.to_nat mqd) as [[q' fl] |]; try discriminate.
  destruct (w_queues w !! q') eqn:E; try discriminate.
  intros [= -> -> ->]. auto.
Qed.

Lemma fresh_not_key {V} (m : gmap positive V) (k : positive) (v : V) :
  m !! k = Some v -> fresh (dom m) <> k.
Proof.
  intros H E. apply (is_fresh (dom m)). rewrite E. apply elem_of_dom. eauto.
Qed.

(** ** C strings *)

Lemma is_nul_spec (c : ascii) : is_nul c = true <-> c = NUL.
Proof. unfold is_nul. apply Ascii.eqb_eq. Qed.

Lemma nat_of_ascii_zero (c : ascii) : nat_of_ascii c = O <-> c = NUL.
Proof.
  split; [| intros ->; reflexivity].
  intros H. rewrite <- (ascii_nat_embedding c), H. reflexivity.
Qed.

Lemma nat_of_ascii_inj (c d : ascii) : nat_of_ascii c = nat_of_ascii d -> c = d.
Proof.
  intros H. rewrite <- (ascii_nat_embedding c), <- (ascii_nat_embedding d), H.
  reflexivity.
Qed.

Lemma strcmp_zero (a b : string) : strcmp a b = 0 <-> cstr a = cstr b.
Proof.
  revert b. induction a as [| c r IH]; intros [| d q]; cbn [strcmp cstr].
  - tauto.
  - destruct (is_nul d) eqn:E.
    + apply is_nul_spec in E. subst d. cbn. tauto.
    + split; [| discriminate]. intros H.
      assert (nat_of_ascii d = O) by lia.
      apply nat_of_ascii_zero, is_nul_spec in H0. congruence.
  - destruct (is_nul c) eqn:E.
    + apply is_nul_spec in E. subst c. cbn. tauto.
    + split; [| discriminate]. intros H.
      assert (nat_of_ascii c = O) by lia.
      apply nat_of_ascii_zero, is_nul_spec in H0. congruence.
  - destruct (Ascii.eqb c d) eqn:E.
    + apply Ascii.eqb_eq in E. subst d. destruct (is_nul c); [tauto |].
      rewrite IH. split; [intros ->; reflexivity | intros [= H]; exact H].
    + apply Ascii.eqb_neq in E. split.
      * intros H. exfalso. apply E, nat_of_ascii_inj. lia.
      * intros H. exfalso. destruct (is_nul c) eqn:Ec, (is_nul d) eqn:Ed;
          try discriminate; try (injection H; congruence).
        apply is_nul_spec in Ec, Ed. congruence.
Qed.

Lemma strcmp_eqb (a b : string) :
  (strcmp a b =? 0) = String.eqb (cstr a) (cstr b).
Proof.
  destruct (String.eqb (cstr a) (cstr b)) eqn:E.
  - apply String.eqb_eq in E. apply Z.eqb_eq, strcmp_zero, E.
  - apply String.eqb_neq in E. apply Z.eqb_neq. rewrite strcmp_zero. exact E.
Qed.

Lemma cstr_zeros (n : nat) : cstr (zeros n) = "".
Proof. destruct n; reflexivity. Qed.

Lemma cstr_app_zeros (s : string) (n : nat) :
  cstr (String.append s (zeros n)) = cstr s.
Proof.
  induction s as [| c r IH]; simpl.
  - destruct n; reflexivity.
  - destruct (is_nul c); [reflexivity | rewrite IH; reflexivity].
Qed.

Lemma str_drop_zeros (k n : nat) : str_drop k (zeros n) = zeros (n - k).
Proof.
  revert n. induction k as [| k IH]; intros [| n]; cbn; try reflexivity.
  apply IH.
Qed.

Lemma length_zeros (n : nat) : String.length (zeros n) = n.
Proof.
  induction n as [| n IH]; [reflexivity |].
  change (S (String.length (zeros n)) = S n). rewrite IH. reflexivity.
Qed.

Lemma append_empty_r (s : string) : String.append s "" = s.
Proof.
  induction s as [| c r IH]; [reflexivity |].
  change (String c (String.append r "") = String c r). rewrite IH. reflexivity.
Qed.

Lemma overwrite_zeros_self (n : nat) : overwrite (zeros n) (zeros n) = zeros n.
Proof.
  unfold overwrite. rewrite length_zeros, str_drop_zeros, Nat.sub_diag.
  apply append_empty_r.
Qed.

Lemma cstr_overwrite_zeros (data : string) (n : nat) :
  cstr (overwrite data (zeros n)) = cstr data.
Proof. unfold overwrite. rewrite str_drop_zeros. apply cstr_app_zeros. Qed.

Lemma cstr_strncpy (s : string) (n : nat) :
  (String.length (cstr s) < n)%nat -> cstr (strncpy s n) = cstr s.
Proof.
  revert s. induction n as [| k IH]; intros s H; [lia |].
  destruct s as [| c r]; [reflexivity |].
  cbn [strncpy cstr] in *. destruct (is_nul c) eqn:E.
  - apply (cstr_zeros (S k)).
  - cbn [cstr]. rewrite E. cbn [String.length] in H. rewrite IH by lia.
    reflexivity.
Qed.

Lemma str_take_strlen (s : string) : str_take (Z.to_nat (strlen s)) s = cstr s.
Proof.
  unfold strlen. rewrite Nat2Z.id.
  induction s as [| c r IH]; [reflexivity |].
  cbn [cstr]. destruct (is_nul c); [reflexivity |].
  cbn [String.length str_take]. rewrite IH. reflexivity.
Qed.

(** ** C integers *)

Lemma wrap_signed_small (bits z : Z) :
  0 < bits -> - 2 ^ (bits - 1) <= z < 2 ^ (bits - 1) -> wrap_signed bits z = z.
Proof.
  intros Hb Hz. unfold wrap_signed.
  assert (E : 2 ^ bits = 2 * 2 ^ (bits - 1)).
  { rewrite <- Z.pow_succ_r by lia. f_equal. lia. }
  rewrite Z.mod_small by lia. lia.
Qed.

Lemma to_long_small (z : Z) : - 2 ^ 63 <= z < 2 ^ 63 -> to_long z = z.
Proof. intros H. unfold to_long. apply wrap_signed_small; [lia | exact H]. Qed.

Lemma to_int_small (z : Z) : - 2 ^ 31 <= z < 2 ^ 31 -> to_int z = z.
Proof. intros H. unfold to_int. apply wrap_signed_small; [lia | exact H]. Qed.

(** ** Symbolic execution against a known world *)

(** Symbolic execution: unfold the model down to map lookups, compute on
    records, rewrite with what is known of the world. *)
Ltac wsimpl :=
  unfold named_queue, gate, ctx_at, buf_at, heap_at, heap_put, heap_del,
    queue_of, fd_at, fails, do_mq_open, do_mq_unlink, do_mq_close,
    do_mq_notify, do_mq_receive, do_mq_send, do_sem_init, do_sem_wait,
    do_sem_timedwait, do_sem_post, do_sem_destroy, do_calloc, do_alloc,
    do_free, open_on, fresh_addr, fresh_fd, fresh_queue;
  cbn [run bind sys printf step record traced
       w_names w_queues w_queues_max w_fds w_heap w_recv_cb w_recv_buf w_errno
       w_now w_calloc_left w_sem_ok w_spawned w_trace
       set_names set_queues set_fds set_heap set_recv_cb set_recv_buf set_errno
       set_now set_calloc_left set_spawned set_trace
       mq_wr mq_rd mq_wr_name mq_rd_name role sem parent
       set_mq_wr set_mq_rd set_mq_wr_name set_mq_rd_name set_role set_sem
       set_parent q_maxmsg q_msgsize q_msgs q_notify set_q_msgs set_q_notify
       mq_flags mq_maxmsg mq_msgsize mq_curmsgs
       sigev_notify sigev_notify_function sigev_notify_attributes sigev_value
       negb andb orb fst snd].

(** [t] is a closed term. *)
Ltac no_var t :=
  match t with
  | context [?v] => is_var v; fail 1
  | _ => idtac
  end.

Ltac use_hyps :=
  repeat match goal with
  | H : ?m !! ?k = _ |- context [?m !! ?k] => rewrite H
  | H : ?b = true |- context [?b] => rewrite H
  | H : ?b = false |- context [?b] => rewrite H
  | H : ?x = _ |- context [match ?x with _ => _ end] => rewrite H
  | |- context [Z.eqb ?x ?y] =>
      no_var x; no_var y;
      let v := eval vm_compute in (Z.eqb x y) in change (Z.eqb x y) with v
  | |- context [Z.ltb ?x ?y] =>
      no_var x; no_var y;
      let v := eval vm_compute in (Z.ltb x y) in change (Z.ltb x y) with v
  | |- context [Z.leb ?x ?y] =>
      no_var x; no_var y;
      let v := eval vm_compute in (Z.leb x y) in change (Z.leb x y) with v
  | |- context [<[?k := _]> (<[?k := _]> _)] => rewrite insert_insert_eq
  | |- context [<[?k := _]> _ !! ?k] => rewrite lookup_insert_eq
  | |- context [delete ?k _ !! ?k] => rewrite lookup_delete_eq
  | |- context [<[?k := _]> _ !! ?k'] =>
      rewrite (lookup_insert_ne _ k k') by congruence
  | |- context [delete ?k _ !! ?k'] =>
      rewrite (lookup_delete_ne _ k k') by congruence
  end.

Lemma wflag_no_creat : has_flag (Z.lor O_WRONLY O_EXCL) O_CREAT = false.
Proof. reflexivity. Qed.

Lemma wronly_no_creat : has_flag O_WRONLY O_CREAT = false.
Proof. reflexivity. Qed.

Lemma rflag_creat : has_flag rflag O_CREAT = true.
Proof. reflexivity. Qed.
Lemma rflag_excl : has_flag rflag O_EXCL = true.
Proof. reflexivity. Qed.
Lemma rflag_nonblock : has_flag rflag O_NONBLOCK = true.
Proof. reflexivity. Qed.
Lemma rflag_read : can_read rflag = true.
Proof. reflexivity. Qed.

Lemma pos_not_null (a : positive) : (Z.pos a =? NULL) = false.
Proof. reflexivity. Qed.

Lemma of_nat_not_neg (n : nat) : (Z.of_nat n <? 0) = false.
Proof. apply Z.ltb_ge. lia. Qed.

Ltac flags :=
  rewrite ?rflag_creat, ?rflag_excl, ?rflag_nonblock, ?rflag_read,
    ?wflag_no_creat, ?wronly_no_creat, ?pos_not_null, ?of_nat_not_neg,
    ?Nat2Z.id.

Ltac exec := repeat (progress (wsimpl; use_hyps; flags)).

Ltac since_tac :=
  unfold since; wsimpl; rewrite <- ?app_assoc; rewrite ?drop_app_length;
  cbn [app].

(** ** What a call leaves untouched *)

Lemma deliver_now q prio data w : w_now (deliver q prio data w) = w_now w.
Proof. unfold deliver. repeat case_match; reflexivity. Qed.

Lemma deliver_trace (q : nat) (prio : Z) (data : string) (w : world) :
  w_trace (deliver q prio data w) = w_trace w.
Proof. unfold deliver. repeat case_match; reflexivity. Qed.

(** A message that lands on an empty queue spends the request of the
    process and starts its thread; with no request, or on a queue that
    already holds a message, no thread is started. *)
Lemma deliver_fires (q : nat) (prio : Z) (data : string) (w : world)
    (mq : mqueue) (sev : sigevent) :
  w_queues w !! q = Some mq -> q_msgs mq = [] ->
  q_notify mq = Some (reg_self sev) ->
  w_spawned (deliver q prio data w) = w_spawned w ++ [sev] /\
  w_queues (deliver q prio data w) !! q
  = Some (Mqueue (q_maxmsg mq) (q_msgsize mq) [(prio, data)] None).
Proof.
  intros Hq Hm Hn. unfold deliver. rewrite Hq, Hm, Hn. cbn.
  split; [reflexivity | apply lookup_insert_eq].
Qed.

Lemma deliver_silent (q : nat) (prio : Z) (data : string) (w : world)
    (mq : mqueue) :
  w_queues w !! q = Some mq -> q_notify mq = None \/ q_msgs mq <> [] ->
  w_spawned (deliver q prio data w) = w_spawned w.
Proof.
  intros Hq H. unfold deliver. rewrite Hq.
  destruct (q_msgs mq) as [| m l]; [| reflexivity].
  destruct H as [-> | H]; [reflexivity | congruence].
Qed.

Lemma step_now {X} (e : sysE X) (w w' : world) (x : X) :
  step e w = Ok x w' -> w_now w' = w_now w.
Proof.
  destruct e; cbn [step]; exec; intros H; repeat (case_match; exec);
    try discriminate; simplify_eq; exec; rewrite ?deliver_now; reflexivity.
Qed.

Lemma record_now {X} (e : sysE X) (x : X) (w : world) : w_now (record e x w) = w_now w.
Proof. unfold record. destruct (traced e); reflexivity. Qed.

Lemma run_now {A} (p : prog A) (w w' : world) (o : outcome A) :
  run p w = (w', o) -> w_now w' = w_now w.
Proof.
  revert w. induction p as [a | X e k IH]; intros w; cbn [run].
  - intros [= <- _]. reflexivity.
  - destruct (step e w) as [x w1 | |] eqn:E.
    + intros H. apply IH in H. rewrite H, record_now. eapply step_now, E.
    + intros [= <- _]. reflexivity.
    + intros [= <- _]. reflexivity.
Qed.

Lemma step_trace {X} (e : sysE X) (w w' : world) (x : X) :
  step e w = Ok x w' -> w_trace w' = w_trace w.
Proof.
  assert (D : forall q prio data w0, w_trace (deliver q prio data w0) = w_trace w0).
  { intros. unfold deliver. repeat case_match; reflexivity. }
  destruct e; cbn [step]; exec; intros H; repeat (case_match; exec);
    try discriminate; simplify_eq; exec; rewrite ?D; reflexivity.
Qed.

Lemma own_request_ext (w w' : world) (mqd : Z) :
  w_fds w' = w_fds w -> w_queues w' = w_queues w ->
  own_request w' mqd = own_request w mqd.
Proof.
  intros Hf Hq. unfold own_request, queue_of, fd_at. rewrite Hf, Hq.
  reflexivity.
Qed.

Lemma own_request_record {X} (e : sysE X) (x : X) (w : world) (mqd : Z) :
  own_request (record e x w) mqd = own_request w mqd.
Proof. unfold record. destruct (traced e); reflexivity. Qed.

Lemma own_request_set_trace (t : list call) (w : world) (mqd : Z) :
  own_request (set_trace t w) mqd = own_request w mqd.
Proof. reflexivity. Qed.

Lemma step_off_queue {X} (e : sysE X) (w w' : world) (x : X) :
  off_queue e = true -> step e w = Ok x w' ->
  w_fds w' = w_fds w /\ w_queues w' = w_queues w /\ w_names w' = w_names w.
Proof.
  intros Hq. destruct e; try discriminate Hq; clear Hq; cbn [step]; exec;
    intros H; repeat (case_match; exec); try discriminate; simplify_eq;
    exec; repeat split; reflexivity.
Qed.

Lemma receive_keeps_request (mqd buf len r : Z) (w w' : world) (mqd' : Z) :
  step (MqReceive mqd buf len) w = Ok r w' ->
  own_request w' mqd' = own_request w mqd'.
Proof.
  cbn [step]. unfold do_mq_receive.
  destruct (queue_of w mqd) as [[[q oflag] mq] |] eqn:Hq; exec;
    [| intros [= <- <-]; apply own_request_ext; reflexivity].
  destruct (negb (can_read oflag));
    [intros [= <- <-]; apply own_request_ext; reflexivity |].
  destruct (len <? q_msgsize mq);
    [intros [= <- <-]; apply own_request_ext; reflexivity |].
  destruct (q_msgs mq) as [| [prio data] rest].
  { destruct (has_flag oflag O_NONBLOCK); [| discriminate].
    intros [= <- <-]; apply own_request_ext; reflexivity. }
  destruct buf as [| b |]; exec;
    try (intros [= <- <-]; apply own_request_ext; reflexivity).
  destruct (w_heap w !! b) as [[] |]; exec;
    try (intros [= <- <-]; apply own_request_ext; reflexivity).
  intros [= <- <-]. apply queue_of_inv in Hq as (_ & _ & Hq).
  unfold own_request, queue_of, fd_at. exec.
  destruct (mqd' <? 0); [reflexivity |].
  destruct (w_fds w !! Z.to_nat mqd') as [[q' fl] |]; [| reflexivity].
  destruct (decide (q = q')) as [<- | Hne].
  - rewrite lookup_insert_eq, Hq. reflexivity.
  - rewrite lookup_insert_ne by exact Hne. reflexivity.
Qed.

Lemma notify_total (mqd : Z) (sev : sigevent) (w : world) :
  exists r w', step (MqNotify mqd sev) w = Ok r w'.
Proof.
  cbn [step]. unfold do_mq_notify, fails.
  destruct (queue_of w mqd) as [[[q oflag] mq] |]; [| eauto].
  destruct (q_notify mq); eauto.
Qed.

Lemma notify_result (mqd : Z) (sev : sigevent) (r : Z) (w w' : world) :
  step (MqNotify mqd sev) w = Ok r w' ->
  (r = -1 /\ forall mqd', own_request w' mqd' = own_request w mqd') \/
  (r = 0 /\ own_request w' mqd = Some sev).
Proof.
  cbn [step]. unfold do_mq_notify.
  destruct (queue_of w mqd) as [[[q oflag] mq] |] eqn:Hq; exec;
    [| intros [= <- <-]; left; split; [reflexivity |];
       intros; apply own_request_ext; reflexivity].
  destruct (q_notify mq) eqn:Hn;
    [intros [= <- <-]; left; split; [reflexivity |];
     intros; apply own_request_ext; reflexivity |].
  intros [= <- <-]. right. split; [reflexivity |].
  apply queue_of_inv in Hq as (Hfd & Hq1 & Hq2).
  unfold own_request. exec. reflexivity.
Qed.

Lemma dealloca_total (p : ptr) (w : world) :
  exists w', step (Dealloca p) w = Ok tt w'.
Proof. cbn [step]. eauto. Qed.

Lemma close_total (mqd : Z) (w : world) :
  exists r w', step (MqClose mqd) w = Ok r w' /\
    w_heap w' = w_heap w /\ w_names w' = w_names w /\
    w_recv_buf w' = w_recv_buf w.
Proof.
  cbn [step]. unfold do_mq_close, fails.
  destruct (queue_of w mqd) as [[[q oflag] mq] |]; eauto 10.
Qed.

Lemma unlink_total (name : string) (w : world) :
  exists r w', step (MqUnlink name) w = Ok r w' /\
    w_heap w' = w_heap w /\
    w_names w' = delete (cstr name) (w_names w) /\
    w_recv_buf w' = w_recv_buf w /\
    (is_Some (w_names w !! cstr name) -> r = 0).
Proof.
  cbn [step]. unfold do_mq_unlink, fails.
  destruct (w_names w !! cstr name) eqn:E.
  - do 2 eexists. split; [reflexivity |]. cbn. auto.
  - do 2 eexists. split; [reflexivity |]. cbn. rewrite delete_id by exact E.
    repeat split; try reflexivity. intros [? ?]. discriminate.
Qed.

Lemma load_ctx_ext (w w0 : world) (p : ptr) (c : mq_ctx) :
  w_heap w0 = w_heap w -> ctx_at w p = Some c ->
  step (CtxLoad p) w0 = Ok c w0.
Proof.
  intros Hh Hc. cbn [step]. unfold ctx_at, heap_at in *. rewrite Hh.
  destruct p; try discriminate. destruct (w_heap w !! p) as [[] |];
    try discriminate. injection Hc as ->. reflexivity.
Qed.

Lemma alloca_keeps_ctx (n : Z) (w w0 : world) (b sv : ptr) (c : mq_ctx) :
  step (Alloca n) w = Ok b w0 -> ctx_at w sv = Some c -> ctx_at w0 sv = Some c.
Proof.
  cbn [step]. unfold do_alloc. intros [= <- <-] (a & -> & Ha)%ctx_at_inv.
  assert (fresh (dom (w_heap w)) <> a) by (eapply fresh_not_key, Ha).
  exec. reflexivity.
Qed.

(** ** Paths through a function, whatever the world answers *)

Ltac abs_step :=
  cbn [run bind sys printf record traced];
  match goal with
  | E : step ?e ?w0 = _ |- context [step ?e ?w0] => rewrite E
  | |- context [step (Printf ?f) ?w0] =>
      change (step (Printf f) w0) with (@Ok unit tt w0)
  | |- context [step GetRecvBuf ?w0] =>
      change (step GetRecvBuf w0) with (Ok (w_recv_buf w0) w0)
  | |- context [step GetRecvCb ?w0] =>
      change (step GetRecvCb w0) with (Ok (w_recv_cb w0) w0)
  | |- context [step (RecvCb ?a ?b ?c ?d) ?w0] =>
      change (step (RecvCb a b c d) w0) with (@Ok unit tt w0)
  | |- context [step (Dealloca ?p) ?w0] =>
      let E := fresh "E" in
      let w9 := fresh "w" in
      destruct (dealloca_total p w0) as (w9 & E); rewrite E
  | |- context [match step ?e ?w0 with _ => _ end] =>
      let E := fresh "E" in destruct (step e w0) as [? ? | |] eqn:E
  | |- context [Z.eqb ?x ?y] =>
      no_var x; no_var y;
      let v := eval vm_compute in (Z.eqb x y) in change (Z.eqb x y) with v
  | |- context [Z.leb ?x ?y] =>
      no_var x; no_var y;
      let v := eval vm_compute in (Z.leb x y) in change (Z.leb x y) with v
  | |- context [if ?b then _ else _] => destruct b eqn:?
  | |- context [match role ?c with _ => _ end] => destruct (role c) eqn:?
  end.

(** What is known, at descriptor [mqd], of the world after each call of a
    path; then the trace of each world. *)
Ltac facts mqd :=
  repeat match goal with
  | E : step (MqNotify _ _) _ = Ok _ _ |- _ =>
      apply step_trace in E; cbn [w_trace record traced set_trace] in E
  | E : step (MqReceive _ _ _) ?wa = Ok _ ?wb |- _ =>
      let H := fresh "K" in
      pose proof (receive_keeps_request _ _ _ _ _ _ mqd E) as H;
      rewrite ?own_request_set_trace in H;
      apply step_trace in E; cbn [w_trace record traced set_trace] in E
  | E : step ?e ?wa = Ok _ ?wb |- _ =>
      let H := fresh "K" in
      pose proof (step_off_queue e wa wb _ eq_refl E) as H;
      apply (fun p => own_request_ext wa wb mqd (proj1 p) (proj1 (proj2 p))) in H;
      rewrite ?own_request_set_trace in H;
      apply step_trace in E; cbn [w_trace record traced set_trace] in E
  end.

Ltac trace_tac :=
  unfold since; cbn [w_trace set_trace];
  repeat match goal with
  | H : w_trace ?a = _ |- context [w_trace ?a] => rewrite H
  end;
  rewrite <- ?app_assoc; rewrite ?drop_app_length; cbn [app].

Ltac close_request :=
  split; [reflexivity |]; split; [reflexivity |];
  rewrite ?own_request_set_trace; congruence.

Ltac close_leaf :=
  split;
  [ intros Hr; first [discriminate Hr | close_request]
  | let x := fresh "hd" in
    let rest' := fresh "tl" in
    intros x rest' Hx Hrecv Hret;
    first
      [ discriminate Hx
      | injection Hx as <- <-; cbn in Hrecv, Hret;
        first
          [ discriminate Hrecv
          | injection Hret as ->;
            first
              [ match goal with
                | H : (-1 =? -1) = false |- _ => discriminate H
                end
              | close_request ] ] ] ].

(** ** Runs and replays *)

Lemma replay_ext {A} (p : prog A) (ans ans' : oracle) (n : nat)
    (acc : list call) :
  (forall m X (e : sysE X), (n <= m)%nat -> ans m X e = ans' m X e) ->
  replay ans n p acc = replay ans' n p acc.
Proof.
  revert n acc. induction p as [a | X e k IH]; intros n acc H;
    [reflexivity |].
  cbn [replay]. rewrite (H n X e) by lia. apply IH.
  intros m Y e' Hm. apply H. lia.
Qed.

Lemma run_trace_grows {A} (p : prog A) (w w' : world) (o : outcome A) :
  run p w = (w', o) -> exists l, w_trace w' = w_trace w ++ l.
Proof.
  revert w. induction p as [a | X e k IH]; intros w; cbn [run].
  - intros [= <- _]. exists []. rewrite app_nil_r. reflexivity.
  - destruct (step e w) as [x w1 | |] eqn:E.
    + intros (l & Hl)%IH. apply step_trace in E. rewrite Hl.
      unfold record. destruct (traced e); cbn [w_trace set_trace];
        rewrite E, <- ?app_assoc; eauto.
    + intros [= <- _]. exists []. rewrite app_nil_r. reflexivity.
    + intros [= <- _]. exists []. rewrite app_nil_r. reflexivity.
Qed.

(** Every run that returns is a replay, with the same trace and the same
    result: the oracle answers as the world did.  What holds of every
    replay holds of every run. *)
Lemma run_is_a_replay {A} (p : prog A) (w w' : world) (a : A) (n : nat)
    (acc : list call) :
  run p w = (w', Done a) ->
  exists ans, replay ans n p acc = (acc ++ since w w', a).
Proof.
  revert w n acc. induction p as [a0 | X e k IH]; intros w n acc; cbn [run].
  - intros [= <- <-]. exists all_goes_well. cbn [replay].
    rewrite (since_app w w []), app_nil_r by (rewrite app_nil_r; reflexivity).
    reflexivity.
  - destruct (step e w) as [x w1 | |] eqn:E; try discriminate.
    intros Hrun.
    destruct (run_trace_grows _ _ _ _ Hrun) as (l & Hl).
    destruct (IH x _ (S n) (if traced e then acc ++ [Called e x] else acc) Hrun)
      as (ans1 & H1).
    exists (fun m Y e' =>
              if (m =? n)%nat
              then match step e' w with Ok y _ => y | _ => ans1 m Y e' end
              else ans1 m Y e').
    cbn [replay]. rewrite Nat.eqb_refl, E.
    erewrite replay_ext; [rewrite H1 |].
    + f_equal. rewrite (since_app _ _ _ Hl).
      apply step_trace in E. revert Hl. unfold record.
      destruct (traced e); cbn [w_trace set_trace]; rewrite E;
        rewrite <- ?app_assoc; intros Hl;
        rewrite (since_app _ _ _ Hl), <- ?app_assoc; reflexivity.
    + intros m Y e' Hm. cbn beta.
      destruct (Nat.eqb_spec m n); [lia | reflexivity].
Qed.

(** * The claims *)

(** ** init *)

(** C7. [init] unlinks the name and then opens it with exclusive creation:
    given memory, semaphores and room for one more queue, it succeeds
    whether or not a queue of that name was left behind (in which case the
    unlink returned 0), and the name then designates a new, empty queue
    armed for the handshake. *)
Theorem init_recovers_stale_queue (w : world) (name : string) (role : ipc_role)
    (n : nat) :
  w_calloc_left w = S (S n) ->
  w_sem_ok w = true ->
  (size (delete (cstr name) (w_names w)) < w_queues_max w)%nat ->
  exists w' a b r fd,
    run (_mq_init name role) w = (w', Done (Z.pos a)) /\
    since w w' =
      [Called CallocCtx (Z.pos a);
       Called (MqUnlink name) r;
       Called (MqOpen name rflag init_mode init_attr) fd;
       Called (SemInit (Z.pos a) 0 0) 0;
       Called (Calloc 1 MAX_IPC_MESSAGE_SIZE) b;
       Called (MqNotify fd (Sigevent SIGEV_THREAD cb_on_connect NULL (Z.pos a))) 0] /\
    (is_Some (w_names w !! cstr name) -> r = 0) /\
    0 <= fd /\
    named_queue w' name =
      Some (Mqueue MQ_MAXMSG MQ_MSGSIZE []
              (Some (reg_self (Sigevent SIGEV_THREAD cb_on_connect NULL (Z.pos a))))) /\
    ctx_at w' (Z.pos a) =
      Some (Mq_ctx 0 fd (zeros MAX_MQ_NAME) (strncpy name MAX_MQ_NAME) role
              (Some O) NULL).
Proof.
  intros Hc Hs Hroom.
  apply Nat.leb_gt in Hroom.
  unfold _mq_init, _mq_notify_update.
  fold rflag. fold init_mode. fold init_attr.
  destruct (w_names w !! cstr name) as [q0 |] eqn:Hn.
  - exec.
    set (a := fresh (dom (w_heap w))).
    set (fd := fresh (dom (w_fds w))).
    set (q := fresh (dom (w_queues w))).
    match goal with |- context [<[a := O_ctx ?c0]> (w_heap w)] => set (c := c0) end.
    set (b := fresh (dom (<[a := O_ctx c]> (w_heap w)))).
    assert (Hba : b <> a).
    { intros E. apply (is_fresh (dom (<[a := O_ctx c]> (w_heap w)))).
      fold b. rewrite E. apply elem_of_dom. rewrite lookup_insert_eq. eauto. }
    subst c. exec.
    do 5 eexists. split; [reflexivity |].
    split; [since_tac; reflexivity |].
    split; [reflexivity |]. split; [lia |]. split; exec; reflexivity.
  - rewrite delete_id in Hroom by exact Hn.
    exec.
    set (a := fresh (dom (w_heap w))).
    set (fd := fresh (dom (w_fds w))).
    set (q := fresh (dom (w_queues w))).
    match goal with |- context [<[a := O_ctx ?c0]> (w_heap w)] => set (c := c0) end.
    set (b := fresh (dom (<[a := O_ctx c]> (w_heap w)))).
    assert (Hba : b <> a).
    { intros E. apply (is_fresh (dom (<[a := O_ctx c]> (w_heap w)))).
      fold b. rewrite E. apply elem_of_dom. rewrite lookup_insert_eq. eauto. }
    subst c. exec.
    do 5 eexists. split; [reflexivity |].
    split; [since_tac; reflexivity |].
    split; [intros [? ?]; discriminate |]. split; [lia |].
    split; exec; reflexivity.
Qed.

Lemma init_recovers_stale_queue_witness :
  is_Some (w_names Scenario.srv_died !! Scenario.srv_name) /\
  exists w' a,
    run (_mq_init Scenario.srv_name IPC_SERVER) Scenario.srv_died
    = (w', Done (Z.pos a)).
Proof.
  split; [vm_compute; eauto |].
  destruct (init_recovers_stale_queue Scenario.srv_died Scenario.srv_name
              IPC_SERVER 62)
    as (w' & a & _ & _ & _ & Hrun & _).
  - vm_compute. reflexivity.
  - vm_compute. reflexivity.
  - vm_compute. lia.
  - exists w', a. exact Hrun.
Defined.




(** ** register_receive_callback *)

(** C9. Whatever was registered before, and on whichever endpoints, after
    a last [register_receive_callback (ipc, cb)] the one process-wide
    variable holds [cb] and nothing else of the world has changed: the
    last writer wins, registering twice is registering once, and the
    endpoint given plays no part. *)
Theorem recv_cb_last_writer_wins (l : list (ptr * ptr)) (ipc cb : ptr)
    (w : world) :
  run (register_all (l ++ [(ipc, cb)])) w = (set_recv_cb cb w, Done tt) /\
  w_recv_cb (fst (run (register_all (l ++ [(ipc, cb)])) w)) = cb /\
  run (register_all [(ipc, cb); (ipc, cb)]) w = run (register_all [(ipc, cb)]) w /\
  (forall ipc', run (_mq_set_recv_cb ipc' cb) w = run (_mq_set_recv_cb ipc cb) w).
Proof.
  assert (E : forall l w, run (register_all (l ++ [(ipc, cb)])) w
                          = (set_recv_cb cb w, Done tt)).
  { clear l w. induction l as [| [i f] l IH]; intros w; [reflexivity |].
    change (run (register_all (l ++ [(ipc, cb)])) (set_recv_cb f w)
            = (set_recv_cb cb w, Done tt)).
    rewrite IH. reflexivity. }
  split; [apply E |]. split; [rewrite E; reflexivity |].
  split; reflexivity.
Qed.

(** ** accept *)

Lemma accept_sleeping (ipc ctx : ptr) (w0 w1 : world) (k : prog Z) :
  run (_mq_accept ipc) w0 = (w1, Blocked k) ->
  sleeps_on_gate (Blocked k) = Some ctx ->
  k = Vis (SemWait ctx) (fun _ =>
        c <- sys (CtxLoad ctx) ;;
        fd <- sys (MqOpen (mq_wr_name c) O_WRONLY init_mode init_attr) ;;
        sys (CtxStore ctx (set_mq_wr fd)) ;;
        if fd <? 0 then
          printf "mq_open %s failed: %d:%s\n" ;;
          Ret (-1)
        else
          c <- sys (CtxLoad ctx) ;;
          r <- _mq_send ipc (mq_wr_name c) (strlen (mq_wr_name c)) ;;
          if r <? 0 then
            printf "_mq_send failed!\n" ;;
            Ret (-1)
          else Ret 0).
Proof.
  unfold _mq_accept, _mq_send. fold init_mode. fold init_attr.
  repeat abs_step; intros [= <- <-]; cbn [sleeps_on_gate]; intros [= <-];
    reflexivity.
Qed.

Lemma accept_tail_echoes (w w' : world) (ipc ctx : ptr) (c : mq_ctx) :
  heap_at w ipc = Some (O_ipc ctx) ->
  ctx_at w ctx = Some c ->
  run (sys (SemWait ctx) ;;
       c <- sys (CtxLoad ctx) ;;
       fd <- sys (MqOpen (mq_wr_name c) O_WRONLY init_mode init_attr) ;;
       sys (CtxStore ctx (set_mq_wr fd)) ;;
       if fd <? 0 then
         printf "mq_open %s failed: %d:%s\n" ;;
         Ret (-1)
       else
         c <- sys (CtxLoad ctx) ;;
         r <- _mq_send ipc (mq_wr_name c) (strlen (mq_wr_name c)) ;;
         if r <? 0 then
           printf "_mq_send failed!\n" ;;
           Ret (-1)
         else Ret 0) w = (w', Done 0) ->
  exists r fd,
    since w w' =
      [Called (SemWait ctx) r;
       Called (MqOpen (mq_wr_name c) O_WRONLY init_mode init_attr) fd;
       Called (MqSend fd (mq_wr_name c) (strlen (mq_wr_name c)) MQ_MSG_PRIO) 0] /\
    0 <= fd /\
    payloads_sent (since w w') = [cstr (mq_wr_name c)].
Proof.
  intros (i & -> & Hi)%ipc_at_inv (a & -> & Ha)%ctx_at_inv.
  assert (Hia : i <> a) by congruence.
  unfold _mq_send. exec.
  destruct (sem c) as [[| n] |] eqn:Hsem; exec; [discriminate | |].
  all: destruct (w_names w !! cstr (mq_wr_name c)) as [q |] eqn:Hq; exec;
    [| discriminate].
  all: destruct (w_queues w !! q) as [mq |] eqn:Hmq; exec; [| discriminate].
  all: change (can_write O_WRONLY) with true; exec.
  all: destruct (q_msgsize mq <? strlen (mq_wr_name c)); exec; [discriminate |].
  all: destruct (q_maxmsg mq <=? Z.of_nat (length (q_msgs mq))); exec.
  all: try (change (has_flag O_WRONLY O_NONBLOCK) with false; exec; discriminate).
  all: destruct (to_int (strlen (mq_wr_name c)) <? 0); exec; [discriminate |].
  all: intros [= <-]; do 2 eexists.
  all: match goal with
       | |- ?S = ?L /\ _ =>
           assert (E : S = L);
           [ unfold since; exec; rewrite deliver_trace; exec;
             rewrite <- ?app_assoc, drop_app_length; reflexivity
           | split; [exact E |]; split; [lia |]; rewrite E ]
       end.
  all: cbn [payloads_sent omap list_omap sent_payload]; cbn [Z.eqb];
    rewrite str_take_strlen; reflexivity.
Qed.

(** C1 (as amended). An [accept] that returns 0, called with the gate
    open or woken from its sleep on it, has opened a write queue on the
    name held in [mq_wr_name] (the name the server-side [on_connect] copied
    from the client's message) and has sent that same name back as the
    confirmation: the client's name, not the server's own. *)
Theorem accept_echoes_peer_name (w w' : world) (ipc ctx : ptr) (c : mq_ctx) :
  heap_at w ipc = Some (O_ipc ctx) ->
  ctx_at w ctx = Some c ->
  accept_returns ipc ctx w w' 0 ->
  exists r fd,
    since w w' =
      [Called (SemWait ctx) r;
       Called (MqOpen (mq_wr_name c) O_WRONLY init_mode init_attr) fd;
       Called (MqSend fd (mq_wr_name c) (strlen (mq_wr_name c)) MQ_MSG_PRIO) 0] /\
    0 <= fd /\
    payloads_sent (since w w') = [cstr (mq_wr_name c)].
Proof.
  intros Hipc Hctx [Hrun | (w0 & w1 & k & Hsleep & Hgate & Hrun)].
  - pose proof Hipc as (i & -> & Hi)%ipc_at_inv.
    pose proof Hctx as (a & -> & Ha)%ctx_at_inv.
    assert (Hia : i <> a) by congruence.
    set (wp := heap_put (Z.pos a) (O_ctx (set_parent (Z.pos i) c)) w).
    assert (E0 : step (IpcCtx (Z.pos i)) w = Ok (Z.pos a) w)
      by (cbn [step]; rewrite Hipc; reflexivity).
    assert (E1 : step (CtxStore (Z.pos a) (set_parent (Z.pos i))) w = Ok tt wp)
      by (cbn [step]; rewrite Hctx; reflexivity).
    revert Hrun. unfold _mq_accept. cbn [run bind sys]. rewrite E0.
    cbn [run bind sys record traced]. rewrite E1.
    cbn [record traced]. intros Hrun.
    apply (accept_tail_echoes wp w' (Z.pos i) (Z.pos a)
             (set_parent (Z.pos i) c)) in Hrun.
    + exact Hrun.
    + subst wp. exec. reflexivity.
    + subst wp. exec. reflexivity.
  - rewrite (accept_sleeping ipc ctx w0 w1 k Hsleep Hgate) in Hrun.
    apply (accept_tail_echoes w w' ipc ctx c Hipc Hctx), Hrun.
Qed.

(** Against C1 as the specification words it: in the handshake of the
    scenario the server's accept returns 0 having sent the client's name,
    which is not its own read-queue name. *)
Lemma accept_does_not_echo_own_name :
  snd Scenario.accept_wakes = Done 0 /\
  (exists c, ctx_at (fst Scenario.srv_notified) Scenario.srv_ctx = Some c /\
             cstr (mq_rd_name c) = Scenario.srv_name) /\
  payloads_sent (since (fst Scenario.srv_notified) (fst Scenario.accept_wakes))
  = [Scenario.cli_name] /\
  payloads_sent (since (fst Scenario.srv_notified) (fst Scenario.accept_wakes))
  <> [Scenario.srv_name].
Proof.
  split; [vm_compute; reflexivity |].
  split; [eexists; split; vm_compute; reflexivity |].
  split; [vm_compute; reflexivity |].
  vm_compute. discriminate.
Qed.

Lemma accept_echoes_peer_name_witness :
  payloads_sent (since (fst Scenario.srv_notified) (fst Scenario.accept_again))
  = [Scenario.cli_name].
Proof.
  destruct (accept_echoes_peer_name
              (fst Scenario.srv_notified) (fst Scenario.accept_again)
              Scenario.srv Scenario.srv_ctx
              (ctx_of (fst Scenario.srv_notified) Scenario.srv_ctx))
    as (r & fd & _ & _ & Hsent).
  - vm_compute. reflexivity.
  - vm_compute. reflexivity.
  - left. vm_compute. reflexivity.
  - rewrite Hsent. vm_compute. reflexivity.
Defined.

(** ** connect *)

(** C3. When no queue bears the server's name, [connect] fails at once in
    its non-creating open, with ENOENT: the open and the log line are the
    only calls made, nothing is sent and the timed wait is never reached
    (so the failure is no timeout). *)
Theorem connect_without_server (w : world) (ipc ctx : ptr) (c : mq_ctx)
    (name : string) :
  heap_at w ipc = Some (O_ipc ctx) ->
  ctx_at w ctx = Some c ->
  w_names w !! cstr name = None ->
  exists w',
    run (_mq_connect ipc name) w = (w', Done (-1)) /\
    w_errno w' = Some ENOENT /\
    since w w' =
      [Called (MqOpen name (Z.lor O_WRONLY O_EXCL) (Z.lor S_IRWXU S_IRWXG)
                 (Mq_attr 0 MQ_MAXMSG MQ_MSGSIZE 0)) (-1);
       Called (Printf "mq_open %s failed: %d:%s\n") tt] /\
    calls_where is_mq_send (since w w') = [] /\
    calls_where is_sem_timedwait (since w w') = [].
Proof.
  intros (i & -> & Hi)%ipc_at_inv (a & -> & Ha)%ctx_at_inv Hn.
  unfold _mq_connect. exec.
  eexists. split; [reflexivity |]. split; [reflexivity |].
  since_tac. auto.
Qed.

Lemma connect_without_server_witness :
  exists w',
    run (_mq_connect (fst Scenario.lone_ipc) Scenario.srv_name)
        (snd Scenario.lone_ipc) = (w', Done (-1)) /\
    w_errno w' = Some ENOENT.
Proof.
  destruct (connect_without_server (snd Scenario.lone_ipc)
              (fst Scenario.lone_ipc) 1
              (Mq_ctx 0 0 (zeros MAX_MQ_NAME)
                 (strncpy Scenario.cli_name MAX_MQ_NAME) IPC_CLIENT (Some O) NULL)
              Scenario.srv_name)
    as (w' & Hrun & Herr & _).
  - vm_compute. reflexivity.
  - vm_compute. reflexivity.
  - vm_compute. reflexivity.
  - exists w'. split; assumption.
Defined.

(** The deadline is the time of day plus the timeout, for every timeout
    of 32 bits: the one carry is enough. *)
Lemma connect_abs_time_spec (timeout : Z) (now : timeval) :
  0 <= timeout < 2 ^ 32 -> clock_ok now ->
  deadline_ns (connect_abs_time timeout now) = now_ns now + timeout * 1000000 /\
  0 <= ts_nsec (connect_abs_time timeout now) < 1000000000.
Proof.
  intros Ht [Hu Hs]. destruct now as [s u]. simpl in Hu, Hs.
  unfold connect_abs_time, deadline_ns, now_ns, to_uint32. cbn [tv_sec tv_usec].
  assert (Hm : 0 <= timeout mod 1000 < 1000) by (apply Z.mod_pos_bound; lia).
  assert (Hd : 0 <= timeout / 1000 < 2 ^ 32).
  { split; [apply Z.div_pos; lia |].
    apply Z.div_lt_upper_bound; lia. }
  assert (Ed : timeout = 1000 * (timeout / 1000) + timeout mod 1000)
    by (apply Z.div_mod; lia).
  rewrite (Z.mod_small (timeout mod 1000)) by lia.
  rewrite (Z.mod_small (timeout mod 1000 * 1000)) by lia.
  rewrite (Z.mod_small (timeout / 1000)) by lia.
  rewrite (to_long_small (u + _)) by lia.
  rewrite (to_long_small (s + _)) by lia.
  destruct (1000000 <=? u + timeout mod 1000 * 1000) eqn:E;
    [apply Z.leb_le in E | apply Z.leb_gt in E]; cbn [ts_sec ts_nsec].
  - rewrite (to_long_small (_ - 1000000)) by lia.
    rewrite (to_long_small (_ + 1)) by lia.
    rewrite to_long_small by lia. lia.
  - rewrite to_long_small by lia. lia.
Qed.

(** C5. A [connect] that sleeps in its timed wait sleeps until the time of
    day read just before the wait plus exactly 5000 ms, the microseconds
    carried into the seconds and the nanoseconds below a second; woken
    with the gate still closed once that time has come it returns -1
    (ETIMEDOUT), and before that time it goes on sleeping. *)
Theorem connect_wait_bounded (w w1 : world) (ipc ctx : ptr) (name : string)
    (k : prog Z) (abs_time : timespec) :
  clock_ok (w_now w) ->
  heap_at w ipc = Some (O_ipc ctx) ->
  run (_mq_connect ipc name) w = (w1, Blocked k) ->
  waits_until (Blocked k) = Some abs_time ->
  abs_time = connect_abs_time connect_timeout (w_now w) /\
  connect_timeout = 5000 /\
  deadline_ns abs_time = now_ns (w_now w) + 5000 * 1000000 /\
  0 <= ts_nsec abs_time < 1000000000 /\
  (forall w2 c2, ctx_at w2 ctx = Some c2 -> sem c2 = Some O ->
     (deadline_ns abs_time <= now_ns (w_now w2) ->
        exists w3, run k w2 = (w3, Done (-1)) /\ w_errno w3 = Some ETIMEDOUT) /\
     (now_ns (w_now w2) < deadline_ns abs_time -> run k w2 = (w2, Blocked k))).
Proof.
  intros Hclk Hipc Hrun Hwait.
  assert (E0 : step (IpcCtx ipc) w = Ok ctx w) by (cbn [step]; rewrite Hipc; reflexivity).
  revert Hrun. unfold _mq_connect, _mq_send. cbn [run bind sys printf]. rewrite E0.
  cbn [run bind sys printf record traced].
  repeat match goal with
  | |- context [step Gettimeofday ?w0] =>
      change (step Gettimeofday w0) with (Ok (w_now w0) w0);
      cbn [run bind sys printf record traced]
  | |- context [match step ?e ?w0 with _ => _ end] =>
      let E := fresh "E" in
      destruct (step e w0) as [? ? | |] eqn:E;
      cbn [run bind sys printf record traced]
  | |- context [if ?b then _ else _] => destruct b eqn:?; cbn [run bind sys printf record traced]
  end; intros [= <- <-]; try discriminate.
  all: cbn [waits_until] in Hwait; try discriminate.
  injection Hwait as <-.
  clear E8.
  repeat match goal with
  | E : step _ _ = Ok _ _ |- _ => apply step_now in E; cbn [w_now set_trace] in E
  end.
  assert (Hnow : w_now w8 = w_now w) by congruence.
  rewrite Hnow.
  destruct (connect_abs_time_spec connect_timeout (w_now w)) as [Hd Hn];
    [unfold connect_timeout; lia | exact Hclk |].
  split; [reflexivity |]. split; [reflexivity |].
  split; [exact Hd |]. split; [exact Hn |].
  intros w9 c2 (a & -> & Ha)%ctx_at_inv Hsem. split.
  - intros Hlate. apply Z.leb_le in Hlate.
    assert (Hv : (ts_nsec (connect_abs_time connect_timeout (w_now w)) <? 0)
                 || (1000000000 <=? ts_nsec (connect_abs_time connect_timeout (w_now w)))
                 = false).
    { apply orb_false_iff. split; [apply Z.ltb_ge | apply Z.leb_gt]; lia. }
    exec. eexists. split; reflexivity.
  - intros Hearly. apply Z.leb_gt in Hearly.
    assert (Hv : (ts_nsec (connect_abs_time connect_timeout (w_now w)) <? 0)
                 || (1000000000 <=? ts_nsec (connect_abs_time connect_timeout (w_now w)))
                 = false).
    { apply orb_false_iff. split; [apply Z.ltb_ge | apply Z.leb_gt]; lia. }
    exec. reflexivity.
Qed.

Lemma connect_wait_bounded_witness :
  let w := fst Scenario.accept_sleeps in
  clock_ok (w_now w) /\
  deadline_ns (connect_abs_time connect_timeout (w_now w))
  = now_ns (w_now w) + 5000 * 1000000.
Proof.
  intros w.
  assert (Hclk : clock_ok (w_now w)) by (vm_compute; intuition discriminate).
  split; [exact Hclk |].
  destruct (connect_wait_bounded w (fst Scenario.connect_sleeps) Scenario.cli
              (value_of (snd Scenario.cli_init)) Scenario.srv_name
              (match snd Scenario.connect_sleeps with
               | Blocked k => k
               | _ => Ret 0
               end)
              (connect_abs_time connect_timeout (w_now w)))
    as (_ & _ & Hd & _).
  - exact Hclk.
  - vm_compute. reflexivity.
  - vm_compute. reflexivity.
  - vm_compute. reflexivity.
  - exact Hd.
Defined.

(** ** The notification handlers *)

(** C8 (as amended). A firing of [on_recv] whose re-arm goes through and
    that finds a message makes exactly one receive, of up to
    MAX_IPC_MESSAGE_SIZE bytes, into the shared buffer; the message leaves
    the queue; with no callback registered nothing else is called (the
    message is dropped), and with one registered it is called exactly
    once, with the endpoint, the shared buffer and the length received. *)
Theorem on_recv_delivers_once (w : world) (sv : ptr) (c : mq_ctx) (q : nat)
    (oflag : Z) (mq : mqueue) (prio : Z) (data : string)
    (rest : list (Z * string)) (old : string) :
  finds_message w sv c q oflag mq prio data rest ->
  buf_at w (w_recv_buf w) = Some old ->
  let len := Z.of_nat (String.length data) in
  let receive := Called (MqReceive (mq_rd c) (w_recv_buf w) MAX_IPC_MESSAGE_SIZE) len in
  let callback := Called (RecvCb (w_recv_cb w) (parent c) (w_recv_buf w) len) tt in
  exists w',
    run (on_recv sv) w = (w', Done tt) /\
    since w w' =
      Called (MqNotify (mq_rd c) (rearm sv)) 0 :: receive ::
      (if w_recv_cb w =? NULL then [] else [callback]) /\
    calls_where is_mq_receive (since w w') = [receive] /\
    calls_where is_recv_cb (since w w') =
      (if w_recv_cb w =? NULL then [] else [callback]) /\
    queue_of w' (mq_rd c) =
      Some (q, oflag, Mqueue (q_maxmsg mq) (q_msgsize mq) rest
                        (Some (reg_self (rearm sv)))) /\
    buf_at w' (w_recv_buf w) = Some (overwrite data old).
Proof.
  intros [(a & -> & Ha)%ctx_at_inv (i & Hp & Hi)%ipc_at_inv
          (Hfd & Hq1 & Hq2)%queue_of_inv Hn Hr Hsz Hm Hlen]
         (b & Hb & Hb')%buf_at_inv len receive callback.
  assert (Hia : i <> a) by congruence.
  assert (Hba : b <> a) by congruence.
  assert (Hbi : b <> i) by congruence.
  apply Z.ltb_ge in Hsz.
  assert (E1 : (-1 =? Z.of_nat (String.length data)) = false)
    by (apply Z.eqb_neq; lia).
  assert (E2 : to_int (Z.of_nat (String.length data))
               = Z.of_nat (String.length data)).
  { apply to_int_small. apply Z.ltb_ge in Hsz.
    unfold MAX_IPC_MESSAGE_SIZE in Hsz. lia. }
  assert (E3 : (Z.of_nat (String.length data) =? -1) = false)
    by (apply Z.eqb_neq; lia).
  unfold on_recv, _mq_notify_update, _mq_recv. exec.
  rewrite E2. exec.
  subst receive callback len. rewrite Hp, Hb.
  destruct (w_recv_cb w =? NULL) eqn:Hcb; exec;
    (eexists; split; [reflexivity |]); since_tac; rewrite ?Hb;
    (split; [reflexivity |]); (split; [reflexivity |]);
    (split; [reflexivity |]); exec; split; reflexivity.
Qed.

Lemma on_recv_delivers_once_witness :
  exists w', run (on_recv Scenario.srv_ctx) Scenario.data_fires = (w', Done tt).
Proof.
  destruct (on_recv_delivers_once Scenario.data_fires Scenario.srv_ctx
              (ctx_of Scenario.data_fires Scenario.srv_ctx) 0%nat rflag
              (Mqueue MQ_MAXMSG MQ_MSGSIZE [(MQ_MSG_PRIO, "hello")] None)
              MQ_MSG_PRIO "hello" []
              (match buf_at Scenario.data_fires (w_recv_buf Scenario.data_fires) with
               | Some s => s
               | None => ""
               end))
    as (w' & Hrun & _).
  - split; vm_compute; first [reflexivity | discriminate].
  - vm_compute. reflexivity.
  - exists w'. exact Hrun.
Defined.

(** Against C8 as the specification words it: two messages reach the
    connected server, a callback being registered, before its thread runs.
    The thread receives the first and calls the callback once; the second
    is neither received nor handed to the callback, it stays in the queue,
    and no thread is left to come for it. *)
Lemma second_message_is_left_queued :
  (exists mq, named_queue Cases.burst_registered Scenario.srv_name = Some mq /\
              q_msgs mq = [(MQ_MSG_PRIO, "one"); (MQ_MSG_PRIO, "two")]) /\
  w_recv_cb Cases.burst_registered = Scenario.a_callback /\
  w_spawned Cases.burst_registered
  = [Sigevent SIGEV_THREAD cb_on_recv NULL Scenario.srv_ctx] /\
  snd Cases.burst_handled = Done tt /\
  map ret_Z (calls_where is_mq_receive
               (since Cases.burst_registered (fst Cases.burst_handled)))
  = [Some 3] /\
  calls_where is_recv_cb
    (since Cases.burst_registered (fst Cases.burst_handled))
  = [Called (RecvCb Scenario.a_callback Scenario.srv
               (w_recv_buf Cases.burst_registered) 3) tt] /\
  (exists mq, named_queue (fst Cases.burst_handled) Scenario.srv_name
              = Some mq /\
              q_msgs mq = [(MQ_MSG_PRIO, "two")]) /\
  w_spawned (fst Cases.burst_handled) = [] /\
  run_thread (fst Cases.burst_handled) = (fst Cases.burst_handled, Done tt).
Proof.
  split; [eexists; split; vm_compute; reflexivity |].
  do 5 (split; [vm_compute; reflexivity |]).
  split; [eexists; split; vm_compute; reflexivity |].
  split; vm_compute; reflexivity.
Qed.

(** C4 (as amended). One firing of the client-side [on_connect], the
    client's name field being terminated: the payload it receives signals
    the gate if and only if it is not empty and reads, as a C string (up to
    its first NUL), as the client's own read-queue name; otherwise the
    handler only logs and returns and the gate is left as it was.  The
    firing has re-armed the queue with [on_recv]: no payload that comes
    later is checked. *)
Theorem client_confirmation_check (w : world) (sv : ptr) (c : mq_ctx) (q : nat)
    (oflag : Z) (mq : mqueue) (prio : Z) (data : string)
    (rest : list (Z * string)) (n : nat) :
  finds_message w sv c q oflag mq prio data rest ->
  role c = IPC_CLIENT ->
  sem c = Some n ->
  terminated (mq_rd_name c) ->
  exists w' buf,
    run (on_connect sv) w = (w', Done tt) /\
    since w w' =
      Called (MqNotify (mq_rd c) (rearm sv)) 0 ::
      Called (MqReceive (mq_rd c) buf MAX_IPC_MESSAGE_SIZE)
             (Z.of_nat (String.length data)) ::
      (if echo_ok data (mq_rd_name c)
       then [Called (SemPost sv) 0]
       else [Called (Printf (if String.eqb data ""
                             then "_mq_recv failed!\n"
                             else "connect response check failed!\n")) tt]) /\
    gate w' sv = Some (if echo_ok data (mq_rd_name c) then S n else n) /\
    (gate w' sv = Some (S n) <->
     data <> "" /\ cstr data = cstr (mq_rd_name c)).
Proof.
  intros [(a & -> & Ha)%ctx_at_inv (i & Hp & Hi)%ipc_at_inv
          (Hfd & Hq1 & Hq2)%queue_of_inv Hn Hr Hsz Hm Hlen] Hrole Hsem _.
  assert (Hia : i <> a) by congruence.
  assert (Hba : fresh (dom (w_heap w)) <> a) by (eapply fresh_not_key, Ha).
  assert (Hbi : fresh (dom (w_heap w)) <> i) by (eapply fresh_not_key, Hi).
  assert (E1 : (-1 =? Z.of_nat (String.length data)) = false)
    by (apply Z.eqb_neq; lia).
  assert (E2 : to_int (Z.of_nat (String.length data))
               = Z.of_nat (String.length data)).
  { apply to_int_small. unfold MAX_IPC_MESSAGE_SIZE in Hsz. lia. }
  apply Z.ltb_ge in Hsz.
  assert (Hiff : forall g : option nat,
            g = Some (if echo_ok data (mq_rd_name c) then S n else n) ->
            g = Some (S n) <-> data <> "" /\ cstr data = cstr (mq_rd_name c)).
  { intros g ->. unfold echo_ok.
    destruct (String.eqb data "") eqn:Ed;
      [apply String.eqb_eq in Ed | apply String.eqb_neq in Ed];
      destruct (String.eqb (cstr data) (cstr (mq_rd_name c))) eqn:Ec;
      [apply String.eqb_eq in Ec | apply String.eqb_neq in Ec
      | apply String.eqb_eq in Ec | apply String.eqb_neq in Ec]; cbn [negb andb];
      split; try tauto; intros [= H]; lia. }
  unfold on_connect, on_connect_body, _mq_notify_update, _mq_recv. exec.
  rewrite E2. exec.
  destruct data as [| ch d].
  - exec. do 2 eexists. split; [reflexivity |]. since_tac.
    split; [reflexivity |].
    assert (G : forall g, g = Some n -> g = Some (if echo_ok "" (mq_rd_name c) then S n else n))
      by (intros g ->; reflexivity).
    split; [apply G | apply Hiff, G]; exec; exact Hsem.
  - assert (E3 : (Z.of_nat (String.length (String ch d)) <=? 0) = false)
      by (apply Z.leb_gt; cbn [String.length]; lia).
    rewrite E3. exec.
    rewrite strcmp_eqb, overwrite_zeros_self, cstr_overwrite_zeros.
    assert (Ee : echo_ok (String ch d) (mq_rd_name c)
                 = String.eqb (cstr (String ch d)) (cstr (mq_rd_name c)))
      by reflexivity.
    rewrite Ee in *.
    destruct (String.eqb (cstr (String ch d)) (cstr (mq_rd_name c))); exec;
      (do 2 eexists; split; [reflexivity |]); since_tac;
      (split; [reflexivity |]);
      (split; [| apply Hiff]); exec; first [reflexivity | exact Hsem].
Qed.

(** Against C4 as the specification words it: a payload that goes on
    after a NUL differs from the client's name, and yet the gate is
    signalled and connect returns 0. *)
Lemma forged_confirmation_opens_gate :
  (exists mq, named_queue Scenario.forged_fires Scenario.cli_name = Some mq /\
              q_msgs mq = [(MQ_MSG_PRIO, Scenario.forged)]) /\
  cstr (mq_rd_name (ctx_of Scenario.forged_fires Scenario.cli_ctx))
  = Scenario.cli_name /\
  Scenario.forged <> Scenario.cli_name /\
  gate Scenario.forged_fires Scenario.cli_ctx = Some 0%nat /\
  snd Scenario.forged_checked = Done tt /\
  gate (fst Scenario.forged_checked) Scenario.cli_ctx = Some 1%nat /\
  snd Scenario.forged_connect = Done 0.
Proof.
  split; [eexists; split; vm_compute; reflexivity |].
  split; [vm_compute; reflexivity |].
  split; [vm_compute; discriminate |].
  repeat split; vm_compute; reflexivity.
Qed.

Lemma client_confirmation_check_witness :
  gate (fst (run (on_connect Scenario.cli_ctx) Scenario.cli_fires))
       Scenario.cli_ctx = Some 1%nat.
Proof.
  destruct (client_confirmation_check Scenario.cli_fires Scenario.cli_ctx
              (ctx_of Scenario.cli_fires Scenario.cli_ctx) 1%nat rflag
              (Mqueue MQ_MAXMSG MQ_MSGSIZE
                      [(MQ_MSG_PRIO, Scenario.cli_name)] None)
              MQ_MSG_PRIO Scenario.cli_name [] 0%nat)
    as (w' & buf & Hrun & _ & Hgate & _).
  - split; vm_compute; first [reflexivity | discriminate].
  - vm_compute. reflexivity.
  - vm_compute. reflexivity.
  - vm_compute. lia.
  - rewrite Hrun. cbn [fst]. rewrite Hgate. vm_compute. reflexivity.
Defined.

(** A confirmation that fails the check is seen by connect as a timeout
    and as nothing else: it sleeps on, and returns -1 (ETIMEDOUT) at the
    deadline. *)
Lemma mismatch_surfaces_as_timeout :
  snd Scenario.wrong_checked = Done tt /\
  gate (fst Scenario.wrong_checked) Scenario.cli_ctx = Some 0%nat /\
  waits_until (snd Scenario.wrong_early)
  = waits_until (snd Scenario.connect_sleeps) /\
  snd Scenario.wrong_late = Done (-1) /\
  w_errno (fst Scenario.wrong_late) = Some ETIMEDOUT.
Proof. repeat split; vm_compute; reflexivity. Qed.

(** One firing, and no other, checks a payload.  After a check that
    failed, the genuine confirmation starts a thread on [on_recv], which
    takes it off the queue: the gate stays closed and connect sleeps on. *)
Lemma confirmation_after_mismatch_is_lost :
  gate (fst Scenario.wrong_checked) Scenario.cli_ctx = Some 0%nat /\
  snd Cases.late_confirmation = Done 0 /\
  payloads_sent (since (fst Scenario.wrong_checked)
                   (fst Cases.late_confirmation))
  = [Scenario.cli_name] /\
  w_spawned (fst Cases.late_confirmation)
  = [Sigevent SIGEV_THREAD cb_on_recv NULL Scenario.cli_ctx] /\
  snd Cases.late_taken = Done tt /\
  map ret_Z (calls_where is_mq_receive
               (since (fst Cases.late_confirmation) (fst Cases.late_taken)))
  = [Some (Z.of_nat (String.length Scenario.cli_name))] /\
  gate (fst Cases.late_taken) Scenario.cli_ctx = Some 0%nat /\
  (exists mq, named_queue (fst Cases.late_taken) Scenario.cli_name = Some mq /\
              q_msgs mq = []) /\
  waits_until (snd Cases.late_connect)
  = waits_until (snd Scenario.connect_sleeps).
Proof.
  do 7 (split; [vm_compute; reflexivity |]).
  split; [eexists; split; vm_compute; reflexivity |].
  vm_compute. reflexivity.
Qed.

(** X16. The server side of the same handler: the payload received, a name of
    less than MAX_MQ_NAME bytes, is what ends up in [mq_wr_name], and the
    gate is signalled. *)
Lemma server_stores_peer_name (w : world) (sv : ptr) (c : mq_ctx) (q : nat)
    (oflag : Z) (mq : mqueue) (prio : Z) (data : string)
    (rest : list (Z * string)) (n : nat) :
  finds_message w sv c q oflag mq prio data rest ->
  role c = IPC_SERVER ->
  sem c = Some n ->
  data <> "" ->
  (String.length (cstr data) < MAX_MQ_NAME)%nat ->
  exists w' c',
    run (on_connect sv) w = (w', Done tt) /\
    ctx_at w' sv = Some c' /\
    cstr (mq_wr_name c') = cstr data /\
    sem c' = Some (S n).
Proof.
  intros [(a & -> & Ha)%ctx_at_inv (i & Hp & Hi)%ipc_at_inv
          (Hfd & Hq1 & Hq2)%queue_of_inv Hn Hr Hsz Hm Hlen]
         Hrole Hsem Hne Hshort.
  assert (Hia : i <> a) by congruence.
  assert (Hba : fresh (dom (w_heap w)) <> a) by (eapply fresh_not_key, Ha).
  assert (Hbi : fresh (dom (w_heap w)) <> i) by (eapply fresh_not_key, Hi).
  assert (E1 : (-1 =? Z.of_nat (String.length data)) = false)
    by (apply Z.eqb_neq; lia).
  assert (E2 : to_int (Z.of_nat (String.length data))
               = Z.of_nat (String.length data)).
  { apply to_int_small. unfold MAX_IPC_MESSAGE_SIZE in Hsz. lia. }
  assert (E3 : (Z.of_nat (String.length data) <=? 0) = false).
  { apply Z.leb_gt. destruct data; [congruence | cbn [String.length]; lia]. }
  apply Z.ltb_ge in Hsz.
  unfold on_connect, on_connect_body, _mq_notify_update, _mq_recv. exec.
  rewrite E2, E3. exec.
  do 2 eexists. split; [reflexivity |]. exec.
  split; [reflexivity |]. cbn [mq_wr_name set_mq_wr_name sem set_sem].
  split; [| reflexivity].
  rewrite overwrite_zeros_self.
  rewrite cstr_strncpy; rewrite cstr_overwrite_zeros; [reflexivity | exact Hshort].
Qed.

(** C6 (as amended). In every firing, of [on_connect] as of [on_recv], the
    first call is the re-arm, on [on_recv], and there is no second one, so
    that it comes before any receive and is never retried.  When the
    re-arm fails the handler logs and returns, and leaves the endpoint's
    request on the queue as it found it (none, after a firing).  When the
    receive fails the handler logs and returns as well, but the request
    made at the start of the firing stays in place. *)
Theorem rearm_discipline (cb : mq_notify_cb) (sv : ptr) (c : mq_ctx)
    (w w' : world) (o : outcome unit) :
  ctx_at w sv = Some c ->
  run (notify_function cb sv) w = (w', o) ->
  exists r rest,
    since w w' = Called (MqNotify (mq_rd c) (rearm sv)) r :: rest /\
    calls_where is_mq_notify rest = [] /\
    (r = -1 ->
     o = Done tt /\
     rest = [Called (Printf "mq_notify failed %d: %s\n") tt;
             Called (Printf "_mq_notify_update failed!\n") tt] /\
     own_request w' (mq_rd c) = own_request w (mq_rd c)) /\
    (forall x rest',
       rest = x :: rest' -> is_mq_receive x = true -> ret_Z x = Some (-1) ->
       o = Done tt /\
       rest' = [Called (Printf "mq_receive failed %d: %s\n") tt;
                Called (Printf "_mq_recv failed!\n") tt] /\
       own_request w' (mq_rd c) = Some (rearm sv)).
Proof.
  intros Hctx. unfold rearm.
  destruct cb; cbn [notify_function].
  - (* on_connect: the local buffer first, then the same path as on_recv *)
    destruct (step (Alloca MAX_IPC_MESSAGE_SIZE) w) as [b w0 | |] eqn:EA;
      [| discriminate EA | discriminate EA].
    pose proof (alloca_keeps_ctx _ _ _ _ _ _ EA Hctx) as Hctx0.
    assert (E0 : step (CtxLoad sv) w0 = Ok c w0)
      by (cbn [step]; rewrite Hctx0; reflexivity).
    destruct (notify_total (mq_rd c) (Sigevent SIGEV_THREAD cb_on_recv NULL sv) w0)
      as (r & w1 & EN).
    destruct (notify_result _ _ _ _ _ EN) as [[-> Hreq] | [-> Hreq]];
      unfold on_connect, on_connect_body, _mq_notify_update, _mq_recv;
      repeat abs_step;
      intros [= <- <-]; try specialize (Hreq (mq_rd c)); facts (mq_rd c);
      (do 2 eexists; split; [trace_tac; reflexivity |]);
      (split; [reflexivity |]); close_leaf.
  - (* on_recv *)
    assert (E0 : step (CtxLoad sv) w = Ok c w)
      by (cbn [step]; rewrite Hctx; reflexivity).
    destruct (notify_total (mq_rd c) (Sigevent SIGEV_THREAD cb_on_recv NULL sv) w)
      as (r & w1 & EN).
    destruct (notify_result _ _ _ _ _ EN) as [[-> Hreq] | [-> Hreq]];
      unfold on_recv, _mq_notify_update, _mq_recv; repeat abs_step;
      intros [= <- <-]; try specialize (Hreq (mq_rd c)); facts (mq_rd c);
      (do 2 eexists; split; [trace_tac; reflexivity |]);
      (split; [reflexivity |]); close_leaf.
Qed.

(** Against C6 as the specification words it: when the receive fails
    (here the main thread took the message first) the handler has re-armed
    before, and the next message starts a thread again. *)
Lemma receive_failure_keeps_notifications :
  snd Scenario.raced_handler = Done tt /\
  map ret_Z
      (calls_where is_mq_receive
         (since (fst Scenario.raced_drained) (fst Scenario.raced_handler)))
  = [Some (-1)] /\
  w_errno (fst Scenario.raced_handler) = Some EAGAIN /\
  own_request (fst Scenario.raced_handler)
              (mq_rd (ctx_of Scenario.raced_fires Scenario.srv_ctx))
  = Some (rearm Scenario.srv_ctx) /\
  w_spawned (fst Scenario.raced_handler) = [] /\
  w_spawned Scenario.raced_later = [rearm Scenario.srv_ctx].
Proof. repeat split; vm_compute; reflexivity. Qed.

Lemma rearm_discipline_witness :
  exists r rest,
    since (fst Scenario.raced_drained) (fst Scenario.raced_handler)
    = Called (MqNotify (mq_rd (ctx_of Scenario.raced_fires Scenario.srv_ctx))
                       (rearm Scenario.srv_ctx)) r
      :: rest.
Proof.
  destruct (rearm_discipline cb_on_recv Scenario.srv_ctx
              (ctx_of Scenario.raced_fires Scenario.srv_ctx)
              (fst Scenario.raced_drained) (fst Scenario.raced_handler)
              (Done tt))
    as (r & rest & Hs & _).
  - vm_compute. reflexivity.
  - vm_compute. reflexivity.
  - exists r, rest. exact Hs.
Defined.

(** ** deinit *)

(** C2 (as amended). [deinit] of an endpoint whose two name fields are
    terminated closes the two descriptors and then unlinks two names, the
    endpoint's own read-queue name and the name held in [mq_wr_name], the
    peer's: whatever happens next, neither name is left in the name
    space. *)
Theorem deinit_unlinks_both_names (w w' : world) (ipc ctx : ptr) (c : mq_ctx)
    (o : outcome unit) :
  heap_at w ipc = Some (O_ipc ctx) ->
  ctx_at w ctx = Some c ->
  terminated (mq_rd_name c) ->
  terminated (mq_wr_name c) ->
  run (_mq_deinit ipc) w = (w', o) ->
  exists r1 r2 r3 r4 rest,
    since w w' =
      Called (MqClose (mq_rd c)) r1 :: Called (MqClose (mq_wr c)) r2 ::
      Called (MqUnlink (mq_rd_name c)) r3 ::
      Called (MqUnlink (mq_wr_name c)) r4 :: rest /\
    calls_where is_mq_unlink rest = [] /\
    (is_Some (w_names w !! cstr (mq_rd_name c)) -> r3 = 0) /\
    (is_Some (delete (cstr (mq_rd_name c)) (w_names w) !! cstr (mq_wr_name c)) ->
     r4 = 0) /\
    w_names w' =
      delete (cstr (mq_wr_name c)) (delete (cstr (mq_rd_name c)) (w_names w)).
Proof.
  intros Hipc Hctx _ _.
  assert (Hnn : (ipc =? NULL) = false).
  { destruct ipc; try discriminate Hipc; reflexivity. }
  assert (E0 : step (IpcCtx ipc) w = Ok ctx w)
    by (cbn [step]; rewrite Hipc; reflexivity).
  pose proof (load_ctx_ext w w ctx c eq_refl Hctx) as E1.
  destruct (close_total (mq_rd c) w) as (r1 & w1 & Ec1 & Hh1 & Hn1 & Hb1).
  set (t1 := w_trace w1 ++ [Called (MqClose (mq_rd c)) r1]).
  pose proof (load_ctx_ext w (set_trace t1 w1) ctx c Hh1 Hctx) as E2.
  destruct (close_total (mq_wr c) (set_trace t1 w1))
    as (r2 & w2 & Ec2 & Hh2 & Hn2 & Hb2).
  cbn [w_heap w_names w_recv_buf set_trace] in Hh2, Hn2, Hb2.
  set (t2 := w_trace w2 ++ [Called (MqClose (mq_wr c)) r2]).
  assert (Hh2' : w_heap (set_trace t2 w2) = w_heap w) by (cbn; congruence).
  pose proof (load_ctx_ext w (set_trace t2 w2) ctx c Hh2' Hctx) as E3.
  destruct (unlink_total (mq_rd_name c) (set_trace t2 w2))
    as (r3 & w3 & Eu3 & Hh3 & Hn3 & Hb3 & Hr3).
  cbn [w_heap w_names w_recv_buf set_trace] in Hh3, Hn3, Hb3, Hr3.
  set (t3 := w_trace w3 ++ [Called (MqUnlink (mq_rd_name c)) r3]).
  assert (Hh3' : w_heap (set_trace t3 w3) = w_heap w) by (cbn; congruence).
  pose proof (load_ctx_ext w (set_trace t3 w3) ctx c Hh3' Hctx) as E4.
  destruct (unlink_total (mq_wr_name c) (set_trace t3 w3))
    as (r4 & w4 & Eu4 & Hh4 & Hn4 & Hb4 & Hr4).
  cbn [w_heap w_names w_recv_buf set_trace] in Hh4, Hn4, Hb4, Hr4.
  subst t1 t2 t3.
  unfold _mq_deinit. rewrite Hnn.
  repeat abs_step; intros [= <- <-];
    repeat match goal with
    | E : step ?e ?wa = Ok _ ?wb |- _ =>
        first
          [ let H := fresh "N" in
            pose proof (proj2 (proj2 (step_off_queue e wa wb _ eq_refl E))) as H;
            cbn [w_names set_trace] in H
          | idtac ];
        apply step_trace in E; cbn [w_trace set_trace] in E
    end;
    (do 5 eexists; split; [trace_tac; reflexivity |]);
    (split; [reflexivity |]);
    (split; [intros Hs; apply Hr3; congruence |]);
    (split; [intros Hs; apply Hr4; congruence |]);
    cbn [w_names set_trace]; congruence.
Qed.

(** Against C2 as the specification words it: when the server of the
    scenario tears down, the client's name is unlinked too, and gone. *)
Lemma deinit_unlinks_peer_name :
  (exists c, ctx_at Scenario.connected Scenario.srv_ctx = Some c /\
             cstr (mq_wr_name c) = Scenario.cli_name) /\
  is_Some (w_names Scenario.connected !! Scenario.cli_name) /\
  snd Scenario.srv_deinit = Done tt /\
  map ret_Z (calls_where is_mq_unlink
               (since Scenario.connected (fst Scenario.srv_deinit)))
  = [Some 0; Some 0] /\
  w_names (fst Scenario.srv_deinit) !! Scenario.cli_name = None.
Proof.
  split; [eexists; split; vm_compute; reflexivity |].
  split; [vm_compute; eauto |].
  repeat split; vm_compute; reflexivity.
Qed.

Lemma deinit_unlinks_both_names_witness :
  w_names (fst Scenario.srv_deinit) = ∅.
Proof.
  destruct (deinit_unlinks_both_names
              Scenario.connected (fst Scenario.srv_deinit)
              Scenario.srv Scenario.srv_ctx
              (ctx_of Scenario.connected Scenario.srv_ctx) (Done tt))
    as (r1 & r2 & r3 & r4 & rest & _ & _ & _ & _ & Hn).
  - vm_compute. reflexivity.
  - vm_compute. reflexivity.
  - vm_compute. lia.
  - vm_compute. lia.
  - vm_compute. reflexivity.
  - rewrite Hn. vm_compute. reflexivity.
Defined.

(** * The rest of the backend

    The paths the claims do not walk: sending and receiving once
    connected, the other ways through accept, connect, init and deinit,
    and what no function of the backend ever does. *)

(** ** More reasoning about runs *)

(** The memory reads leave the world as it is. *)
Lemma step_same {X} (e : sysE X) (w w' : world) (x : X) :
  match e with
  | CtxLoad _ | IpcCtx _ | GetRecvCb | GetRecvBuf | BufLoad _ | Gettimeofday
  | Printf _ | RecvCb _ _ _ _ => True
  | _ => False
  end ->
  step e w = Ok x w' -> w' = w.
Proof.
  destruct e; intros []; cbn [step]; intros H; repeat case_match;
    congruence.
Qed.

Lemma heap_at_ext (w w' : world) (p : ptr) :
  w_heap w' = w_heap w -> heap_at w' p = heap_at w p.
Proof. intros E. unfold heap_at. rewrite E. reflexivity. Qed.

Lemma ctx_at_ext (w w' : world) (p : ptr) :
  w_heap w' = w_heap w -> ctx_at w' p = ctx_at w p.
Proof.
  intros E. unfold ctx_at. rewrite (heap_at_ext w w' p E). reflexivity.
Qed.

Lemma buf_at_ext (w w' : world) (p : ptr) :
  w_heap w' = w_heap w -> buf_at w' p = buf_at w p.
Proof.
  intros E. unfold buf_at. rewrite (heap_at_ext w w' p E). reflexivity.
Qed.

Lemma queue_of_set_trace (t : list call) (w : world) (mqd : Z) :
  queue_of (set_trace t w) mqd = queue_of w mqd.
Proof. reflexivity. Qed.

Lemma queue_of_insert (w w' : world) (mqd : Z) (q : nat) (oflag : Z)
    (mq mq' : mqueue) :
  w_fds w' = w_fds w -> w_queues w' = <[q := mq']> (w_queues w) ->
  queue_of w mqd = Some (q, oflag, mq) ->
  queue_of w' mqd = Some (q, oflag, mq').
Proof.
  intros Ef Eq (Hfd & Hq1 & Hq2)%queue_of_inv. unfold queue_of, fd_at.
  rewrite Ef, Eq, Hfd, Hq1, lookup_insert_eq. reflexivity.
Qed.

Lemma length_str_take (n : nat) (s : string) :
  (n <= String.length s)%nat -> String.length (str_take n s) = n.
Proof.
  revert s. induction n as [| n IH]; intros [| c s] H; cbn in *;
    try reflexivity; try lia.
  rewrite IH by lia. reflexivity.
Qed.

Lemma length_cstr (s : string) :
  (String.length (cstr s) <= String.length s)%nat.
Proof.
  induction s as [| c r IH]; [cbn; lia |].
  cbn [cstr]. destruct (is_nul c); cbn [String.length]; lia.
Qed.

Lemma cstr_append_long (s t : string) :
  (String.length (cstr s) <= String.length (cstr (String.append s t)))%nat.
Proof.
  induction s as [| c r IH]; [simpl; lia |].
  simpl. destruct (is_nul c); simpl; lia.
Qed.

Lemma str_take_append (n : nat) (s t : string) :
  (n <= String.length s)%nat -> str_take n (String.append s t) = str_take n s.
Proof.
  revert s. induction n as [| k IH]; intros [| c r] H; simpl in *;
    try reflexivity; try lia.
  rewrite IH by lia. reflexivity.
Qed.

(** A source with [n] bytes or more before its NUL fills the destination
    and leaves it without a NUL. *)
Lemma strncpy_full (s : string) (n : nat) :
  (n <= String.length (cstr s))%nat ->
  strncpy s n = str_take n s /\
  String.length (strncpy s n) = n /\
  cstr (strncpy s n) = strncpy s n.
Proof.
  revert s. induction n as [| k IH]; intros s H.
  - destruct s; repeat split; reflexivity.
  - destruct s as [| c r]; [cbn in H; lia |].
    cbn [cstr] in H. cbn [strncpy str_take].
    destruct (is_nul c) eqn:E; [cbn in H; lia |].
    cbn [String.length] in H.
    destruct (IH r) as (I1 & I2 & I3); [lia |].
    cbn [String.length cstr]. rewrite E, I1 in *. rewrite I2, I3.
    repeat split; reflexivity.
Qed.

(** *** Messages in a queue *)

(** With one priority in use, a queue is first in, first out. *)
Lemma mq_insert_last (m : Z * string) (l : list (Z * string)) :
  Forall (fun x => fst m <= fst x) l -> mq_insert m l = l ++ [m].
Proof.
  induction 1 as [| x l Hx _ IH]; [reflexivity |].
  cbn [mq_insert app]. apply Z.ltb_ge in Hx. rewrite Hx, IH. reflexivity.
Qed.

Lemma mq_insert_keeps (m x : Z * string) (l : list (Z * string)) :
  In x l -> In x (mq_insert m l).
Proof.
  induction l as [| y l IH]; [intros [] |]. cbn [mq_insert].
  destruct (fst y <? fst m); [right; assumption |].
  intros [-> | H]; [left; reflexivity | right; auto].
Qed.

Lemma deliver_names (q : nat) (prio : Z) (data : string) (w : world) :
  w_names (deliver q prio data w) = w_names w.
Proof. unfold deliver. repeat case_match; reflexivity. Qed.

Lemma deliver_fds (q : nat) (prio : Z) (data : string) (w : world) :
  w_fds (deliver q prio data w) = w_fds w.
Proof. unfold deliver. repeat case_match; reflexivity. Qed.

Lemma deliver_heap (q : nat) (prio : Z) (data : string) (w : world) :
  w_heap (deliver q prio data w) = w_heap w.
Proof. unfold deliver. repeat case_match; reflexivity. Qed.

Lemma deliver_errno (q : nat) (prio : Z) (data : string) (w : world) :
  w_errno (deliver q prio data w) = w_errno w.
Proof. unfold deliver. repeat case_match; reflexivity. Qed.

Lemma deliver_queue (q : nat) (prio : Z) (data : string) (w : world)
    (mq : mqueue) :
  w_queues w !! q = Some mq ->
  exists r,
    w_queues (deliver q prio data w)
    = <[q := Mqueue (q_maxmsg mq) (q_msgsize mq)
               (mq_insert (prio, data) (q_msgs mq)) r]> (w_queues w) /\
    w_heap (deliver q prio data w) = w_heap w /\
    w_fds (deliver q prio data w) = w_fds w /\
    w_names (deliver q prio data w) = w_names w.
Proof.
  intros Hq. unfold deliver. rewrite Hq.
  destruct (q_msgs mq) as [| x l]; [destruct (q_notify mq) as [[sev |] |] |];
    eexists; repeat split; reflexivity.
Qed.

(** On a queue that holds a message nothing that arrives starts a thread,
    and nothing that arrives takes a message away. *)
Lemma deliver_all_silent (q : nat) (l : list (Z * string)) (w : world)
    (mq : mqueue) (m : Z * string) :
  w_queues w !! q = Some mq -> In m (q_msgs mq) ->
  w_spawned (deliver_all q l w) = w_spawned w /\
  exists mq', w_queues (deliver_all q l w) !! q = Some mq' /\
              In m (q_msgs mq') /\ q_notify mq' = q_notify mq.
Proof.
  revert w mq. induction l as [| [p d] l IH]; intros w mq Hq Hin.
  - split; [reflexivity | eauto].
  - cbn [deliver_all fold_left fst snd].
    assert (Hne : q_msgs mq <> [])
      by (destruct (q_msgs mq); [destruct Hin | discriminate]).
    pose proof (deliver_silent q p d w mq Hq (or_intror Hne)) as Hs.
    assert (Hq' : w_queues (deliver q p d w) !! q
                  = Some (set_q_msgs (mq_insert (p, d) (q_msgs mq)) mq)).
    { unfold deliver. rewrite Hq. destruct (q_msgs mq) as [| y r];
        [congruence |]. cbn [w_queues set_queues]. apply lookup_insert_eq. }
    destruct (IH (deliver q p d w) _ Hq') as (IH1 & mq' & IH2 & IH3 & IH4).
    { cbn [q_msgs set_q_msgs]. apply mq_insert_keeps, Hin. }
    fold (deliver_all q l (deliver q p d w)).
    split; [congruence |]. exists mq'. auto.
Qed.

(** Symbolic execution through a send. *)
Ltac exec_send :=
  repeat (progress (exec;
                    rewrite ?deliver_heap, ?deliver_fds, ?deliver_names,
                      ?deliver_trace, ?deliver_now, ?deliver_errno)).

(** *** What single calls do *)

Lemma send_result (mqd : Z) (data : string) (len prio r : Z) (w w' : world) :
  step (MqSend mqd data len prio) w = Ok r w' ->
  (r = 0 /\ exists q oflag mq,
      queue_of w mqd = Some (q, oflag, mq) /\
      w' = deliver q prio (str_take (Z.to_nat len) data) w) \/
  (r = -1 /\ exists e, w' = set_errno (Some e) w).
Proof.
  cbn [step]. unfold do_mq_send, fails.
  destruct (queue_of w mqd) as [[[q oflag] mq] |]; [| intros [= <- <-]; eauto].
  destruct (negb (can_write oflag)); [intros [= <- <-]; eauto |].
  destruct (q_msgsize mq <? len); [intros [= <- <-]; eauto |].
  destruct (q_maxmsg mq <=? Z.of_nat (length (q_msgs mq))).
  - destruct (has_flag oflag O_NONBLOCK);
      [intros [= <- <-]; eauto | discriminate].
  - intros [= <- <-]. left. eauto 10.
Qed.

Lemma receive_sleeps (mqd : Z) (buf : ptr) (len : Z) (w : world) :
  step (MqReceive mqd buf len) w = Block ->
  exists q oflag,
    w_fds w !! Z.to_nat mqd = Some (q, oflag) /\ can_read oflag = true /\
    has_flag oflag O_NONBLOCK = false.
Proof.
  cbn [step]. unfold do_mq_receive, fails.
  destruct (queue_of w mqd) as [[[q oflag] mq] |] eqn:Hq; [| discriminate].
  apply queue_of_inv in Hq as (_ & Hfd & _).
  destruct (can_read oflag) eqn:Hr; [| discriminate]. cbn [negb].
  repeat case_match; try discriminate. eauto.
Qed.

Lemma close_closes (mqd : Z) (w : world) :
  exists r w', step (MqClose mqd) w = Ok r w' /\
    w_heap w' = w_heap w /\ w_names w' = w_names w /\
    w_recv_buf w' = w_recv_buf w /\
    queue_of w' mqd = None /\
    (forall m, queue_of w m = None -> queue_of w' m = None).
Proof.
  cbn [step]. unfold do_mq_close, fails.
  destruct (queue_of w mqd) as [[[q oflag] mq] |] eqn:Hq.
  - apply queue_of_inv in Hq as (Hneg & Hfd & Hq).
    do 2 eexists. split; [reflexivity |].
    cbn [w_heap w_names w_recv_buf set_fds set_queues].
    repeat split.
    + unfold queue_of, fd_at. cbn [w_fds set_fds]. rewrite Hneg.
      rewrite lookup_delete_eq. reflexivity.
    + intros m. unfold queue_of, fd_at.
      cbn [w_fds w_queues set_fds set_queues].
      destruct (m <? 0); [reflexivity |].
      destruct (decide (Z.to_nat mqd = Z.to_nat m)) as [<- | Hne];
        [rewrite lookup_delete_eq; reflexivity |].
      rewrite lookup_delete_ne by exact Hne.
      destruct (w_fds w !! Z.to_nat m) as [[q' fl] |]; [| reflexivity].
      destruct (decide (q = q')) as [<- | Hq'].
      * rewrite Hq. discriminate.
      * rewrite lookup_insert_ne by exact Hq'. trivial.
  - do 2 eexists. split; [reflexivity |].
    cbn [w_heap w_names w_recv_buf set_errno].
    repeat split; [exact Hq | trivial].
Qed.

Lemma unlink_keeps (name : string) (w : world) :
  exists r w', step (MqUnlink name) w = Ok r w' /\
    w_heap w' = w_heap w /\
    w_names w' = delete (cstr name) (w_names w) /\
    w_recv_buf w' = w_recv_buf w /\
    (forall m, queue_of w' m = queue_of w m).
Proof.
  cbn [step]. unfold do_mq_unlink, fails.
  destruct (w_names w !! cstr name) eqn:E.
  - do 2 eexists. split; [reflexivity |]. cbn. auto.
  - do 2 eexists. split; [reflexivity |]. cbn. rewrite delete_id by exact E.
    auto.
Qed.

Lemma step_keeps_names {X} (e : sysE X) (x : X) (w w' : world) :
  keeps_names X e = true -> step e w = Ok x w' -> w_names w' = w_names w.
Proof.
  intros HP. destruct (off_queue e) eqn:Hoff.
  { intros E. apply (step_off_queue e w w' x Hoff E). }
  destruct e; try discriminate Hoff; try discriminate HP; cbn [step]; exec;
    intros H; repeat (case_match; exec); try discriminate; simplify_eq;
    exec; rewrite ?deliver_names; try reflexivity.
  all: cbn [keeps_names] in HP; apply negb_true_iff in HP; congruence.
Qed.

Lemma step_keeps_fds {X} (e : sysE X) (x : X) (w w' : world) :
  keeps_all X e = true -> step e w = Ok x w' -> w_fds w ⊆ w_fds w'.
Proof.
  intros HP. destruct (off_queue e) eqn:Hoff.
  { intros E. destruct (step_off_queue e w w' x Hoff E) as (-> & _).
    reflexivity. }
  destruct e; try discriminate Hoff; try discriminate HP; cbn [step]; exec;
    intros H; repeat (case_match; exec); try discriminate; simplify_eq;
    exec; rewrite ?deliver_fds; try reflexivity.
  all: apply insert_subseteq, not_elem_of_dom, is_fresh.
Qed.

Lemma step_reads_nonblocking {X} (e : sysE X) (x : X) (w w' : world) :
  opens_nonblocking X e = true -> step e w = Ok x w' ->
  reads_nonblocking w -> reads_nonblocking w'.
Proof.
  intros HP. destruct (off_queue e) eqn:Hoff.
  { intros E Hw. destruct (step_off_queue e w w' x Hoff E) as (Hf & _).
    unfold reads_nonblocking. rewrite Hf. exact Hw. }
  unfold reads_nonblocking.
  destruct e; try discriminate Hoff; cbn [step]; exec;
    intros H Hw; repeat (case_match; exec); try discriminate; simplify_eq;
    exec; rewrite ?deliver_fds; try exact Hw.
  all: intros fd' q' fl'.
  all: try (intros [[<- [= <- <-]] | [_ Hl]]%lookup_insert_Some;
            [cbn [opens_nonblocking] in HP;
             intros Hr; rewrite Hr in HP; exact HP
            | eapply Hw, Hl]).
  all: intros [_ Hl]%lookup_delete_Some; eapply Hw, Hl.
Qed.

(** A thread sleeps in a receive only on a descriptor that blocks. *)
Lemma sleeps_in_receive {X} (e : sysE X) (w : world) :
  sleeps_in_receive_only X e = true -> step e w = Block ->
  reads_nonblocking w -> False.
Proof.
  intros HP E Hw.
  destruct e; try discriminate HP;
    try (cbn [step] in E; unfold do_alloc, do_calloc, do_free, do_mq_unlink,
           do_mq_open, do_mq_close, do_mq_notify, do_sem_init, do_sem_post,
           do_sem_destroy, open_on, fails in E;
         repeat case_match; discriminate).
  apply receive_sleeps in E as (q & oflag & Hfd & Hr & Hnb).
  rewrite (Hw _ _ _ Hfd Hr) in Hnb. discriminate.
Qed.

Lemma all_reads_nonblocking_spec (w : world) :
  all_reads_nonblocking w = true -> reads_nonblocking w.
Proof.
  unfold all_reads_nonblocking, reads_nonblocking.
  rewrite forallb_forall. intros H fd q oflag Hfd Hr.
  specialize (H (fd, (q, oflag))). cbn [snd] in H. rewrite Hr in H.
  apply H, list_elem_of_In, elem_of_map_to_list, Hfd.
Qed.

(** *** Every path of a program *)

Lemma always_bind {A B} (P : forall X, sysE X -> bool) (p : prog A)
    (f : A -> prog B) :
  always P p -> (forall a, always P (f a)) -> always P (bind p f).
Proof.
  intros Hp Hf. induction Hp as [a | X e k He _ IH]; cbn [bind].
  - apply Hf.
  - apply always_vis; [exact He | exact IH].
Qed.

(** A run only adds to the trace, and adds calls of its program; what is
    left of a thread that sleeps is a part of its program. *)
Lemma run_always {A} (P : forall X, sysE X -> bool) (p : prog A)
    (w w' : world) (o : outcome A) :
  always P p -> run p w = (w', o) ->
  w_trace w' = w_trace w ++ since w w' /\
  Forall (fun c => call_is P c = true) (since w w') /\
  (forall k, o = Blocked k -> always P k).
Proof.
  intros Hp. revert w. induction Hp as [a | X e k He Hk IH]; intros w;
    cbn [run].
  - intros [= <- <-]. unfold since. rewrite drop_all, app_nil_r.
    repeat split; [constructor | discriminate].
  - destruct (step e w) as [x w1 | |] eqn:E.
    + intros Hrun. destruct (IH x _ Hrun) as (Ht & Hall & Hb).
      pose proof (step_trace e w w1 x E) as Hw1.
      assert (Hr : exists l, w_trace (record e x w1) = w_trace w ++ l /\
                   Forall (fun c => call_is P c = true) l).
      { unfold record. destruct (traced e); cbn [w_trace set_trace].
        - exists [Called e x]. rewrite Hw1. split; [reflexivity |].
          constructor; [exact He | constructor].
        - exists []. rewrite Hw1, app_nil_r.
          split; [reflexivity | constructor]. }
      destruct Hr as (l & Hl & Hall').
      rewrite Hl, <- app_assoc in Ht.
      rewrite (since_app w w' _ Ht).
      split; [exact Ht |]. split; [| exact Hb].
      apply Forall_app. split; [exact Hall' | exact Hall].
    + intros [= <- <-]. unfold since. rewrite drop_all, app_nil_r.
      repeat split; [constructor |].
      intros k0 [= <-]. apply always_vis; assumption.
    + intros [= <- <-]. unfold since. rewrite drop_all, app_nil_r.
      repeat split; [constructor | discriminate].
Qed.

(** A property of the world that every permitted call keeps, and in which
    the trace plays no part, is kept by the run. *)
Lemma run_keeps {A} (P : forall X, sysE X -> bool) (I : world -> Prop)
    (p : prog A) (w w' : world) (o : outcome A) :
  (forall X (e : sysE X) (x : X) w0 w1,
     P X e = true -> step e w0 = Ok x w1 -> I w0 -> I w1) ->
  (forall t w0, I w0 -> I (set_trace t w0)) ->
  always P p -> run p w = (w', o) -> I w -> I w'.
Proof.
  intros Hstep Htr Hp. revert w.
  induction Hp as [a | X e k He Hk IH]; intros w; cbn [run].
  - intros [= <- <-]. trivial.
  - destruct (step e w) as [x w1 | |] eqn:E.
    + intros Hrun Hw. apply (IH x _ Hrun). unfold record.
      destruct (traced e); [apply Htr |]; eapply Hstep; eassumption.
    + intros [= <- <-]. trivial.
    + intros [= <- <-]. trivial.
Qed.

(** A thread that sleeps, sleeps in the first call of what is left of it. *)
Lemma run_blocked {A} (P : forall X, sysE X -> bool) (p : prog A)
    (w w' : world) (k : prog A) :
  always P p -> run p w = (w', Blocked k) ->
  exists X (e : sysE X) (k0 : X -> prog A),
    k = Vis e k0 /\ P X e = true /\ step e w' = Block.
Proof.
  intros Hp. revert w. induction Hp as [a | X e k1 He Hk IH]; intros w;
    cbn [run]; [discriminate |].
  destruct (step e w) as [x w1 | |] eqn:E.
  - apply IH.
  - intros [= <- <-]. eauto 10.
  - discriminate.
Qed.

Ltac unfold_backend :=
  unfold _mq_init, _mq_deinit, _mq_accept, _mq_connect, _mq_set_recv_cb,
    on_connect, on_connect_body, on_recv, _mq_notify_update, _mq_send,
    _mq_recv.

(** All the paths of a function of the backend, one call after the other. *)
Ltac always_tac :=
  repeat first
    [ apply always_ret
    | apply always_vis; [reflexivity | intros ?]
    | apply always_bind; [| intros ?]
    | progress unfold sys, printf
    | progress cbv zeta
    | match goal with
      | |- always _ (if ?b then _ else _) => destruct b
      | |- always _ (match role ?c with _ => _ end) => destruct (role c)
      end ].

Lemma service_always (P : forall X, sysE X -> bool) :
  (forall ipc, always P (_mq_accept ipc)) ->
  (forall ipc name, always P (_mq_connect ipc name)) ->
  (forall ipc buf len, always P (_mq_send ipc buf len)) ->
  (forall ipc buf len, always P (_mq_recv ipc buf len)) ->
  (forall ipc cb, always P (_mq_set_recv_cb ipc cb)) ->
  (forall cb sv, always P (notify_function cb sv)) ->
  forall A (p : prog A), in_service A p -> always P p.
Proof.
  intros H1 H2 H3 H4 H5 H6 A p Hp.
  induction Hp as [| | | | | | A p k w w' _ IH Hrun]; auto.
  eapply (run_always P p w w' (Blocked k) IH Hrun). reflexivity.
Qed.

Lemma service_keeps_all (A : Type) (p : prog A) :
  in_service A p -> always keeps_all p.
Proof.
  apply service_always; intros; try destruct cb; cbn [notify_function];
    unfold_backend; always_tac.
Qed.

Lemma service_keeps_names (A : Type) (p : prog A) :
  in_service A p -> always keeps_names p.
Proof.
  apply service_always; intros; try destruct cb; cbn [notify_function];
    unfold_backend; always_tac.
Qed.

Lemma backend_opens_nonblocking (A : Type) (p : prog A) :
  in_backend A p -> always opens_nonblocking p.
Proof.
  intros [name role | ipc | A' p' Hp].
  - unfold_backend; always_tac.
  - unfold_backend; always_tac.
  - revert A' p' Hp.
    apply service_always; intros; try destruct cb; cbn [notify_function];
      unfold_backend; always_tac.
Qed.

Lemma forall_keeps_all (l : list call) :
  Forall (fun c => call_is keeps_all c = true) l ->
  calls_where is_mq_close l = [] /\ calls_where is_mq_unlink l = [] /\
  calls_where is_free l = [].
Proof.
  induction 1 as [| [X e x] l Hc _ (IH1 & IH2 & IH3)]; [auto |].
  unfold calls_where in *. cbn [filter].
  unfold call_is in Hc. cbn [c_ty c_ev] in Hc.
  unfold is_mq_close, is_mq_unlink, is_free. cbn [c_ev].
  destruct e; try discriminate Hc; auto.
Qed.

Lemma forall_keeps_names (l : list call) :
  Forall (fun c => call_is keeps_names c = true) l ->
  calls_where is_mq_unlink l = [].
Proof.
  induction 1 as [| [X e x] l Hc _ IH]; [auto |].
  unfold calls_where in *. cbn [filter].
  unfold call_is in Hc. cbn [c_ty c_ev] in Hc.
  unfold is_mq_unlink. cbn [c_ev].
  destruct e; try discriminate Hc; auto.
Qed.

(** *** The worlds some runs leave *)

(** The world a [send] leaves when the message is taken. *)
Lemma send_run (w : world) (ipc ctx : ptr) (c : mq_ctx) (q : nat)
    (oflag : Z) (mq : mqueue) (buf : string) (len : Z) :
  heap_at w ipc = Some (O_ipc ctx) ->
  ctx_at w ctx = Some c ->
  queue_of w (mq_wr c) = Some (q, oflag, mq) ->
  can_write oflag = true ->
  0 <= len <= q_msgsize mq ->
  len < 2 ^ 31 ->
  Z.of_nat (length (q_msgs mq)) < q_maxmsg mq ->
  run (_mq_send ipc buf len) w =
  (set_trace (w_trace w ++ [Called (MqSend (mq_wr c) buf len MQ_MSG_PRIO) 0])
     (deliver q MQ_MSG_PRIO (str_take (Z.to_nat len) buf) w),
   Done len).
Proof.
  intros (i & -> & Hi)%ipc_at_inv (a & -> & Ha)%ctx_at_inv
         (Hfd & Hq1 & Hq2)%queue_of_inv Hw Hlen Hint Hroom.
  assert (E1 : (q_msgsize mq <? len) = false) by (apply Z.ltb_ge; lia).
  assert (E2 : (q_maxmsg mq <=? Z.of_nat (length (q_msgs mq))) = false)
    by (apply Z.leb_gt; lia).
  assert (E3 : to_int len = len) by (apply to_int_small; lia).
  unfold _mq_send. exec. rewrite E3, deliver_trace. reflexivity.
Qed.

(** The world an [on_recv] leaves when its re-arm goes through and it
    finds a message. *)
Lemma on_recv_run (w : world) (sv : ptr) (c : mq_ctx) (q : nat)
    (oflag : Z) (mq : mqueue) (prio : Z) (data : string)
    (rest : list (Z * string)) (old : string) :
  finds_message w sv c q oflag mq prio data rest ->
  buf_at w (w_recv_buf w) = Some old ->
  let len := Z.of_nat (String.length data) in
  run (on_recv sv) w =
  (set_trace
     (w_trace w ++
      Called (MqNotify (mq_rd c) (rearm sv)) 0 ::
      Called (MqReceive (mq_rd c) (w_recv_buf w) MAX_IPC_MESSAGE_SIZE) len ::
      (if w_recv_cb w =? NULL then []
       else [Called (RecvCb (w_recv_cb w) (parent c) (w_recv_buf w) len) tt]))
     (heap_put (w_recv_buf w) (O_buf (overwrite data old))
        (set_queues
           (<[q := Mqueue (q_maxmsg mq) (q_msgsize mq) rest
                     (Some (reg_self (rearm sv)))]> (w_queues w)) w)),
   Done tt).
Proof.
  intros [(a & -> & Ha)%ctx_at_inv (i & Hp & Hi)%ipc_at_inv
          (Hfd & Hq1 & Hq2)%queue_of_inv Hn Hr Hsz Hm Hlen]
         (b & Hb & Hb')%buf_at_inv len.
  assert (Hia : i <> a) by congruence.
  assert (Hba : b <> a) by congruence.
  assert (Hbi : b <> i) by congruence.
  apply Z.ltb_ge in Hsz.
  assert (E1 : (-1 =? Z.of_nat (String.length data)) = false)
    by (apply Z.eqb_neq; lia).
  assert (E2 : to_int (Z.of_nat (String.length data))
               = Z.of_nat (String.length data)).
  { apply to_int_small. apply Z.ltb_ge in Hsz.
    unfold MAX_IPC_MESSAGE_SIZE in Hsz. lia. }
  assert (E3 : (Z.of_nat (String.length data) =? -1) = false)
    by (apply Z.eqb_neq; lia).
  unfold on_recv, _mq_notify_update, _mq_recv. exec.
  rewrite E2. exec.
  subst len. rewrite ?Hp, ?Hb. unfold rearm.
  destruct (w_recv_cb w =? NULL) eqn:Hcb; exec;
    rewrite <- ?app_assoc; cbn [app]; rewrite ?Hb; reflexivity.
Qed.

(** [deinit] closes and unlinks whatever the world answers, and comes to
    the release of its memory with the heap as it found it. *)
Lemma deinit_reaches_release (w : world) (ipc ctx : ptr) (c : mq_ctx) :
  heap_at w ipc = Some (O_ipc ctx) ->
  ctx_at w ctx = Some c ->
  exists w0 t,
    run (_mq_deinit ipc) w = run (deinit_release ctx) w0 /\
    w_heap w0 = w_heap w /\
    w_recv_buf w0 = w_recv_buf w /\
    w_trace w0 = w_trace w ++ t /\
    calls_where is_free t = [] /\
    queue_of w0 (mq_rd c) = None /\
    queue_of w0 (mq_wr c) = None.
Proof.
  intros Hipc Hctx.
  assert (Hnn : (ipc =? NULL) = false).
  { destruct ipc; try discriminate Hipc; reflexivity. }
  assert (E0 : step (IpcCtx ipc) w = Ok ctx w)
    by (cbn [step]; rewrite Hipc; reflexivity).
  pose proof (load_ctx_ext w w ctx c eq_refl Hctx) as E1.
  destruct (close_closes (mq_rd c) w)
    as (r1 & w1 & Ec1 & Hh1 & Hn1 & Hb1 & Hc1 & Hf1).
  set (t1 := w_trace w1 ++ [Called (MqClose (mq_rd c)) r1]).
  pose proof (load_ctx_ext w (set_trace t1 w1) ctx c Hh1 Hctx) as E2.
  destruct (close_closes (mq_wr c) (set_trace t1 w1))
    as (r2 & w2 & Ec2 & Hh2 & Hn2 & Hb2 & Hc2 & Hf2).
  cbn [w_heap w_names w_recv_buf set_trace] in Hh2, Hn2, Hb2.
  set (t2 := w_trace w2 ++ [Called (MqClose (mq_wr c)) r2]).
  assert (Hh2' : w_heap (set_trace t2 w2) = w_heap w) by (cbn; congruence).
  pose proof (load_ctx_ext w (set_trace t2 w2) ctx c Hh2' Hctx) as E3.
  destruct (unlink_keeps (mq_rd_name c) (set_trace t2 w2))
    as (r3 & w3 & Eu3 & Hh3 & Hn3 & Hb3 & Hf3).
  cbn [w_heap w_names w_recv_buf set_trace] in Hh3, Hn3, Hb3.
  set (t3 := w_trace w3 ++ [Called (MqUnlink (mq_rd_name c)) r3]).
  assert (Hh3' : w_heap (set_trace t3 w3) = w_heap w) by (cbn; congruence).
  pose proof (load_ctx_ext w (set_trace t3 w3) ctx c Hh3' Hctx) as E4.
  destruct (unlink_keeps (mq_wr_name c) (set_trace t3 w3))
    as (r4 & w4 & Eu4 & Hh4 & Hn4 & Hb4 & Hf4).
  cbn [w_heap w_names w_recv_buf set_trace] in Hh4, Hn4, Hb4.
  exists (set_trace (w_trace w4 ++ [Called (MqUnlink (mq_wr_name c)) r4]) w4).
  exists [Called (MqClose (mq_rd c)) r1; Called (MqClose (mq_wr c)) r2;
          Called (MqUnlink (mq_rd_name c)) r3;
          Called (MqUnlink (mq_wr_name c)) r4].
  split.
  { unfold _mq_deinit, deinit_release. rewrite Hnn.
    cbn [run bind sys printf record traced].
    rewrite E0. cbn [run bind sys printf record traced].
    rewrite E1. cbn [run bind sys printf record traced].
    rewrite Ec1. cbn [run bind sys printf record traced]. fold t1.
    rewrite E2. cbn [run bind sys printf record traced].
    rewrite Ec2. cbn [run bind sys printf record traced]. fold t2.
    rewrite E3. cbn [run bind sys printf record traced].
    rewrite Eu3. cbn [run bind sys printf record traced]. fold t3.
    rewrite E4. cbn [run bind sys printf record traced].
    rewrite Eu4. cbn [run bind sys printf record traced].
    reflexivity. }
  cbn [w_heap w_recv_buf w_trace set_trace].
  split; [congruence |]. split; [congruence |].
  split.
  { apply step_trace in Ec1, Ec2, Eu3, Eu4.
    cbn [w_trace set_trace] in Ec2, Eu3, Eu4.
    rewrite Eu4. subst t3. rewrite Eu3. subst t2. rewrite Ec2. subst t1.
    rewrite Ec1. rewrite <- !app_assoc. reflexivity. }
  split; [reflexivity |].
  rewrite !queue_of_set_trace, !Hf4, !queue_of_set_trace, !Hf3,
    !queue_of_set_trace.
  split; [apply Hf2; rewrite queue_of_set_trace; exact Hc1 | exact Hc2].
Qed.

(** The release, with the shared buffer in place. *)
Lemma release_run (w0 : world) (a b : positive) (c : mq_ctx) (old : string) :
  w_heap w0 !! a = Some (O_ctx c) ->
  w_recv_buf w0 = Z.pos b ->
  w_heap w0 !! b = Some (O_buf old) ->
  run (deinit_release (Z.pos a)) w0 =
  (set_trace (w_trace w0 ++ [Called (SemDestroy (Z.pos a)) 0;
                             Called (Free (Z.pos b)) tt;
                             Called (Free (Z.pos a)) tt])
     (set_heap (delete a (delete b (<[a := O_ctx (set_sem None c)]>
                                       (w_heap w0)))) w0),
   Done tt).
Proof.
  intros Ha Hb Hb'. assert (Hba : b <> a) by congruence.
  unfold deinit_release. exec. rewrite Hb. exec.
  rewrite <- !app_assoc. reflexivity.
Qed.

(** *** For a run in several stages *)

Lemma cstr_cstr (s : string) : cstr (cstr s) = cstr s.
Proof.
  induction s as [| c r IH]; [reflexivity |].
  cbn [cstr]. destruct (is_nul c) eqn:E; [reflexivity |].
  cbn [cstr]. rewrite E, IH. reflexivity.
Qed.

Lemma fresh_not_fd {V} (m : gmap nat V) (k : nat) (v : V) :
  m !! k = Some v -> fresh (dom m) <> k.
Proof.
  intros H E. apply (is_fresh (dom m)). rewrite E. apply elem_of_dom. eauto.
Qed.

(** The clock read, as one step: the time computed from it can then be
    named before the wait is entered. *)
Lemma run_gettimeofday {A} (k : timeval -> prog A) (w : world) :
  run (Vis Gettimeofday k) w
  = run (k (w_now w))
      (set_trace (w_trace w ++ [Called Gettimeofday (w_now w)]) w).
Proof. reflexivity. Qed.

(** [deliver] on an empty queue with a request of the process, as a world. *)
Lemma deliver_fires_eq (q : nat) (prio : Z) (data : string) (w : world)
    (mq : mqueue) (sev : sigevent) :
  w_queues w !! q = Some mq -> q_msgs mq = [] ->
  q_notify mq = Some (reg_self sev) ->
  deliver q prio data w
  = set_spawned (w_spawned w ++ [sev])
      (set_queues
         (<[q := Mqueue (q_maxmsg mq) (q_msgsize mq) [(prio, data)] None]>
            (w_queues w)) w).
Proof.
  intros Hq Hm Hn. unfold deliver. rewrite Hq, Hm, Hn. reflexivity.
Qed.

(** What is known of a world that has just been reached is stated key by
    key, and the world is then taken as any world of which that much is
    known. *)
Ltac tidy H :=
  cbv delta [set_q_notify set_q_msgs set_mq_wr set_mq_rd set_mq_wr_name
             set_mq_rd_name set_role set_sem set_parent] beta in H;
  cbn [mq_insert app q_maxmsg q_msgsize q_msgs q_notify mq_wr mq_rd
       mq_wr_name mq_rd_name role sem parent] in H.

Ltac known := exec; first [eassumption | reflexivity].

(** ** send and receive *)

(** X1. A [send] of [len] bytes that the write queue has room for returns
    [len]: the queue gets exactly the first [len] bytes of the buffer, at
    the one priority the backend uses, placed before any message of lower
    priority and therefore last when every message came through the
    backend. *)
Theorem send_queues_payload (w : world) (ipc ctx : ptr) (c : mq_ctx) (q : nat)
    (oflag : Z) (mq : mqueue) (buf : string) (len : Z) :
  heap_at w ipc = Some (O_ipc ctx) ->
  ctx_at w ctx = Some c ->
  queue_of w (mq_wr c) = Some (q, oflag, mq) ->
  can_write oflag = true ->
  0 <= len <= q_msgsize mq ->
  len < 2 ^ 31 ->
  len <= Z.of_nat (String.length buf) ->
  Z.of_nat (length (q_msgs mq)) < q_maxmsg mq ->
  let payload := str_take (Z.to_nat len) buf in
  exists w' mq',
    run (_mq_send ipc buf len) w = (w', Done len) /\
    since w w' = [Called (MqSend (mq_wr c) buf len MQ_MSG_PRIO) 0] /\
    Z.of_nat (String.length payload) = len /\
    queue_of w' (mq_wr c) = Some (q, oflag, mq') /\
    q_msgs mq' = mq_insert (MQ_MSG_PRIO, payload) (q_msgs mq) /\
    (Forall (fun m => MQ_MSG_PRIO <= fst m) (q_msgs mq) ->
     q_msgs mq' = q_msgs mq ++ [(MQ_MSG_PRIO, payload)]).
Proof.
  intros Hipc Hctx Hq Hw Hlen Hint Hbuf Hroom payload.
  rewrite (send_run w ipc ctx c q oflag mq buf len) by assumption.
  fold payload.
  pose proof Hq as (Hfd & Hq1 & Hq2)%queue_of_inv.
  destruct (deliver_queue q MQ_MSG_PRIO payload w mq Hq2)
    as (r & Dq & Dh & Df & Dn).
  do 2 eexists. split; [reflexivity |].
  split; [apply since_app; reflexivity |].
  split; [subst payload; rewrite length_str_take by lia; lia |].
  split; [eapply queue_of_insert; [exact Df | exact Dq | exact Hq] |].
  split; [reflexivity |].
  intros Hall. cbn [q_msgs]. apply mq_insert_last. exact Hall.
Qed.

Lemma send_queues_payload_witness :
  exists w',
    run (_mq_send Scenario.cli "hello" 5) Scenario.connected = (w', Done 5).
Proof.
  destruct (send_queues_payload Scenario.connected Scenario.cli
              Scenario.cli_ctx (ctx_of Scenario.connected Scenario.cli_ctx)
              0%nat (Z.lor O_WRONLY O_EXCL)
              (Mqueue MQ_MAXMSG MQ_MSGSIZE []
                 (Some (reg_self (rearm Scenario.srv_ctx))))
              "hello" 5)
    as (w' & mq' & Hrun & _).
  - vm_compute. reflexivity.
  - vm_compute. reflexivity.
  - vm_compute. reflexivity.
  - vm_compute. reflexivity.
  - vm_compute. split; discriminate.
  - vm_compute. reflexivity.
  - vm_compute. discriminate.
  - vm_compute. reflexivity.
  - exists w'. exact Hrun.
Defined.

(** X2. A [send] of less than 2^31 bytes is all or nothing.  It returns the
    length, its one call being an mq_send that went through; or it returns
    -1 after an mq_send that failed and a log line, with errno set and the
    queues and the pending threads as they were; or the thread dies or
    sleeps in the call, and the world is as it was. *)
Theorem send_all_or_nothing (w w' : world) (ipc : ptr) (buf : string)
    (len : Z) (o : outcome Z) :
  0 <= len < 2 ^ 31 ->
  run (_mq_send ipc buf len) w = (w', o) ->
  (o = Done len /\
   exists fd, since w w' = [Called (MqSend fd buf len MQ_MSG_PRIO) 0]) \/
  (o = Done (-1) /\
   (exists fd, since w w' = [Called (MqSend fd buf len MQ_MSG_PRIO) (-1);
                             Called (Printf "mq_send failed %d: %s\n") tt]) /\
   w_queues w' = w_queues w /\ w_spawned w' = w_spawned w /\
   is_Some (w_errno w')) \/
  ((o = Crashed \/ exists k, o = Blocked k) /\ w' = w).
Proof.
  intros Hlen. unfold _mq_send.
  repeat abs_step; intros [= <- <-];
    repeat match goal with
    | E : step (IpcCtx _) ?wa = Ok _ ?wb |- _ =>
        apply step_same in E; [subst wb | exact I]
    | E : step (CtxLoad _) ?wa = Ok _ ?wb |- _ =>
        apply step_same in E; [subst wb | exact I]
    | E : step (Printf _) ?wa = Ok _ ?wb |- _ =>
        apply step_same in E; [subst wb | exact I]
    end;
    try (right; right; split; [eauto | reflexivity]).
  all: match goal with
       | E : step (MqSend _ _ _ _) _ = Ok _ _ |- _ =>
           destruct (send_result _ _ _ _ _ _ _ E)
             as [[-> (q & fl & mq & Hq & ->)] | [-> (e & ->)]]
       end; try discriminate.
  - right. left. split; [reflexivity |]. split.
    + eexists. unfold since. cbn [w_trace set_trace set_errno].
      rewrite <- ?app_assoc, drop_app_length. reflexivity.
    + cbn. eauto.
  - left. rewrite to_int_small by lia. split; [reflexivity |].
    eexists. unfold since. cbn [w_trace set_trace]. rewrite deliver_trace.
    rewrite drop_app_length. reflexivity.
Qed.

Lemma send_all_or_nothing_witness :
  exists fd,
    since Scenario.registered (fst Cases.cli_sends)
    = [Called (MqSend fd "hello" 5 MQ_MSG_PRIO) 0].
Proof.
  assert (Hlen : 0 <= 5 < 2 ^ 31)
    by (vm_compute; split; [discriminate | reflexivity]).
  assert (Hrun : run (_mq_send Scenario.cli "hello" 5) Scenario.registered
                 = (fst Cases.cli_sends, snd Cases.cli_sends))
    by (vm_compute; reflexivity).
  destruct (send_all_or_nothing _ _ _ _ _ _ Hlen Hrun)
    as [[_ H] | [[H _] | [[H | [k H]] _]]];
    [exact H | exfalso ..]; vm_compute in H; discriminate H.
Defined.

(** X3. A [recv] with a length no less than the queue's message size, on a
    queue that holds a message, returns the length of the message at the
    head: the message has left the queue for the start of the buffer, and
    the endpoint's notification request is as it was. *)
Theorem recv_takes_head (w : world) (ipc ctx : ptr) (c : mq_ctx) (q : nat)
    (oflag : Z) (mq : mqueue) (prio : Z) (data : string)
    (rest : list (Z * string)) (buf : ptr) (old : string) (len : Z) :
  heap_at w ipc = Some (O_ipc ctx) ->
  ctx_at w ctx = Some c ->
  queue_of w (mq_rd c) = Some (q, oflag, mq) ->
  can_read oflag = true ->
  q_msgsize mq <= len ->
  q_msgs mq = (prio, data) :: rest ->
  Z.of_nat (String.length data) < 2 ^ 31 ->
  buf_at w buf = Some old ->
  exists w',
    run (_mq_recv ipc buf len) w
    = (w', Done (Z.of_nat (String.length data))) /\
    since w w'
    = [Called (MqReceive (mq_rd c) buf len) (Z.of_nat (String.length data))] /\
    buf_at w' buf = Some (overwrite data old) /\
    queue_of w' (mq_rd c)
    = Some (q, oflag,
            Mqueue (q_maxmsg mq) (q_msgsize mq) rest (q_notify mq)).
Proof.
  intros (i & -> & Hi)%ipc_at_inv (a & -> & Ha)%ctx_at_inv
         (Hfd & Hq1 & Hq2)%queue_of_inv Hr Hsz Hm Hint (b & -> & Hb)%buf_at_inv.
  apply Z.ltb_ge in Hsz.
  assert (E1 : (-1 =? Z.of_nat (String.length data)) = false)
    by (apply Z.eqb_neq; lia).
  assert (E2 : to_int (Z.of_nat (String.length data))
               = Z.of_nat (String.length data))
    by (apply to_int_small; lia).
  unfold _mq_recv. exec. rewrite E2.
  eexists. split; [reflexivity |].
  split; [since_tac; reflexivity |]. exec. split; reflexivity.
Qed.

Lemma recv_takes_head_witness :
  snd Scenario.raced_drained = Done 5.
Proof.
  destruct (recv_takes_head Scenario.raced_fires Scenario.srv Scenario.srv_ctx
              (ctx_of Scenario.raced_fires Scenario.srv_ctx) 0%nat rflag
              (Mqueue MQ_MAXMSG MQ_MSGSIZE [(MQ_MSG_PRIO, "hello")] None)
              MQ_MSG_PRIO "hello" [] (w_recv_buf Scenario.raced_fires)
              (zeros 1024) MAX_IPC_MESSAGE_SIZE)
    as (w' & Hrun & _).
  - vm_compute. reflexivity.
  - vm_compute. reflexivity.
  - vm_compute. reflexivity.
  - vm_compute. reflexivity.
  - vm_compute. discriminate.
  - vm_compute. reflexivity.
  - vm_compute. reflexivity.
  - vm_compute. reflexivity.
  - unfold Scenario.raced_drained. rewrite Hrun. reflexivity.
Defined.

(** X4. A [recv] on an empty queue does not wait when the read descriptor is
    non-blocking, as [init] opens it: it returns -1 at once with EAGAIN,
    after one mq_receive and a log line, and changes nothing else. *)
Theorem recv_empty_returns_at_once (w : world) (ipc ctx : ptr) (c : mq_ctx)
    (q : nat) (oflag : Z) (mq : mqueue) (buf : ptr) (len : Z) :
  heap_at w ipc = Some (O_ipc ctx) ->
  ctx_at w ctx = Some c ->
  queue_of w (mq_rd c) = Some (q, oflag, mq) ->
  can_read oflag = true ->
  has_flag oflag O_NONBLOCK = true ->
  q_msgsize mq <= len ->
  q_msgs mq = [] ->
  run (_mq_recv ipc buf len) w
  = (set_trace (w_trace w ++ [Called (MqReceive (mq_rd c) buf len) (-1);
                              Called (Printf "mq_receive failed %d: %s\n") tt])
       (set_errno (Some EAGAIN) w),
     Done (-1)).
Proof.
  intros (i & -> & Hi)%ipc_at_inv (a & -> & Ha)%ctx_at_inv
         (Hfd & Hq1 & Hq2)%queue_of_inv Hr Hnb Hsz Hm.
  apply Z.ltb_ge in Hsz.
  unfold _mq_recv. exec. rewrite <- app_assoc. reflexivity.
Qed.

Lemma recv_empty_returns_at_once_witness :
  snd (run (_mq_recv Scenario.srv (w_recv_buf Scenario.connected)
              MAX_IPC_MESSAGE_SIZE) Scenario.connected) = Done (-1).
Proof.
  rewrite (recv_empty_returns_at_once Scenario.connected Scenario.srv
             Scenario.srv_ctx (ctx_of Scenario.connected Scenario.srv_ctx)
             0%nat rflag
             (Mqueue MQ_MAXMSG MQ_MSGSIZE []
                (Some (reg_self (rearm Scenario.srv_ctx)))));
    try (vm_compute; reflexivity).
  vm_compute. discriminate.
Defined.

(** X5. A [recv] with a length below the queue's message size is refused,
    whatever waits in the queue and however short the message at its head:
    it returns -1 with EMSGSIZE after one mq_receive and a log line, and
    the queue and the buffer are as they were. *)
Theorem recv_short_length_refused (w : world) (ipc ctx : ptr) (c : mq_ctx)
    (q : nat) (oflag : Z) (mq : mqueue) (buf : ptr) (len : Z) :
  heap_at w ipc = Some (O_ipc ctx) ->
  ctx_at w ctx = Some c ->
  queue_of w (mq_rd c) = Some (q, oflag, mq) ->
  can_read oflag = true ->
  len < q_msgsize mq ->
  run (_mq_recv ipc buf len) w
  = (set_trace (w_trace w ++ [Called (MqReceive (mq_rd c) buf len) (-1);
                              Called (Printf "mq_receive failed %d: %s\n") tt])
       (set_errno (Some EMSGSIZE) w),
     Done (-1)).
Proof.
  intros (i & -> & Hi)%ipc_at_inv (a & -> & Ha)%ctx_at_inv
         (Hfd & Hq1 & Hq2)%queue_of_inv Hr Hsz.
  apply Z.ltb_lt in Hsz.
  unfold _mq_recv. exec. rewrite <- app_assoc. reflexivity.
Qed.

Lemma recv_short_length_refused_witness :
  snd (run (_mq_recv Scenario.srv (w_recv_buf Scenario.raced_fires) 16)
         Scenario.raced_fires) = Done (-1).
Proof.
  rewrite (recv_short_length_refused Scenario.raced_fires Scenario.srv
             Scenario.srv_ctx (ctx_of Scenario.raced_fires Scenario.srv_ctx)
             0%nat rflag
             (Mqueue MQ_MAXMSG MQ_MSGSIZE [(MQ_MSG_PRIO, "hello")] None));
    vm_compute; reflexivity.
Defined.

(** ** A message and its notification *)

(** X6. Round trip, with both endpoints in one process.  Sent to a read queue
    that is idle (empty, [on_recv] asked for), [len] bytes start one
    thread; that thread hands the callback, once, the receiving endpoint,
    the shared buffer and [len], the buffer then starting with the bytes
    sent; and it leaves the queue idle, the two endpoints as they were and
    no thread pending, so that the next message goes the same way. *)
Theorem message_reaches_callback (w : world) (ipc ctx : ptr) (c : mq_ctx)
    (q : nat) (mq : mqueue) (buf old : string) (len : Z) :
  writes_to w ipc q mq ->
  reads_from w ctx c q mq ->
  idle ctx mq ->
  0 < q_maxmsg mq ->
  0 <= len <= q_msgsize mq ->
  len <= Z.of_nat (String.length buf) ->
  buf_at w (w_recv_buf w) = Some old ->
  w_spawned w = [] ->
  exists w1 w2,
    run (_mq_send ipc buf len) w = (w1, Done len) /\
    run_thread w1 = (w2, Done tt) /\
    calls_where is_recv_cb (since w1 w2)
    = (if w_recv_cb w =? NULL then []
       else [Called (RecvCb (w_recv_cb w) (parent c) (w_recv_buf w) len) tt]) /\
    buf_at w2 (w_recv_buf w)
    = Some (overwrite (str_take (Z.to_nat len) buf) old) /\
    writes_to w2 ipc q mq /\
    reads_from w2 ctx c q mq /\
    w_spawned w2 = [].
Proof.
  intros (ctxA & cA & flA & HipcA & HctxA & HqA & Hw)
         (flB & Hctx & Hipc & Hq & Hr & Hsz) [Hm Hn] Hmax Hlen Hbuf Hold Hsp.
  set (data := str_take (Z.to_nat len) buf).
  assert (L : Z.of_nat (String.length data) = len).
  { subst data. rewrite length_str_take by lia. lia. }
  pose proof Hq as (Hfd & Hq1 & Hq2)%queue_of_inv.
  destruct (deliver_fires q MQ_MSG_PRIO data w mq (rearm ctx) Hq2 Hm Hn)
    as [Dsp Dq].
  destruct (deliver_queue q MQ_MSG_PRIO data w mq Hq2)
    as (r & Dqs & Dh & Df & Dn).
  assert (Hr' : r = None).
  { rewrite Dqs, lookup_insert_eq in Dq. congruence. }
  subst r. rewrite Hm in Dqs. cbn [mq_insert] in Dqs.
  rewrite (send_run w ipc ctxA cA q flA mq buf len HipcA HctxA HqA Hw Hlen)
    by (unfold MAX_IPC_MESSAGE_SIZE in Hsz; rewrite ?Hm; cbn; lia).
  fold data.
  set (w1 := set_trace _ (deliver q MQ_MSG_PRIO data w)).
  set (w1' := set_spawned [] w1).
  assert (Hrun : run_thread w1 = run (on_recv ctx) w1').
  { unfold run_thread, next_thread. subst w1. cbn [w_spawned set_trace].
    rewrite Dsp, Hsp. reflexivity. }
  assert (Hh : w_heap w1' = w_heap w) by exact Dh.
  assert (Hb : w_recv_buf w1' = w_recv_buf w).
  { subst w1' w1. cbn [w_recv_buf set_spawned set_trace]. unfold deliver.
    repeat case_match; reflexivity. }
  assert (Hcb : w_recv_cb w1' = w_recv_cb w).
  { subst w1' w1. cbn [w_recv_cb set_spawned set_trace]. unfold deliver.
    repeat case_match; reflexivity. }
  assert (F : finds_message w1' ctx c q flB
                (Mqueue (q_maxmsg mq) (q_msgsize mq) [(MQ_MSG_PRIO, data)] None)
                MQ_MSG_PRIO data []).
  { split; cbn [q_msgs q_notify q_msgsize]; try reflexivity; try assumption.
    - rewrite (ctx_at_ext w w1' ctx Hh). exact Hctx.
    - rewrite (heap_at_ext w w1' _ Hh). exact Hipc.
    - eapply queue_of_insert; [exact Df | exact Dqs | exact Hq].
    - lia. }
  pose proof (on_recv_run w1' ctx c q flB _ MQ_MSG_PRIO data [] old F) as R.
  rewrite Hb, Hcb, L in R. cbn [q_maxmsg q_msgsize] in R.
  specialize (R ltac:(rewrite (buf_at_ext w w1' _ Hh); exact Hold)).
  cbn zeta in R.
  pose proof Hold as (b & Eb & Hb')%buf_at_inv.
  pose proof Hctx as (a & Ea & Ha)%ctx_at_inv.
  pose proof Hipc as (i & Ei & Hi)%ipc_at_inv.
  pose proof HctxA as (aA & EaA & HaA)%ctx_at_inv.
  pose proof HipcA as (iA & EiA & HiA)%ipc_at_inv.
  assert (b <> a) by congruence. assert (b <> i) by congruence.
  assert (b <> aA) by congruence. assert (b <> iA) by congruence.
  rewrite Eb in R |- *. cbn [heap_put] in R.
  assert (Hmq : Mqueue (q_maxmsg mq) (q_msgsize mq) []
                  (Some (reg_self (rearm ctx))) = mq).
  { destruct mq as [mm ms msgs ntf]. cbn in Hm, Hn. subst msgs ntf.
    reflexivity. }
  assert (Hqs : forall m fl, queue_of w m = Some (q, fl, mq) ->
                queue_of (fst (run (on_recv ctx) w1')) m = Some (q, fl, mq)).
  { intros m fl Hm0. rewrite R. cbn [fst].
    eapply queue_of_insert; [| | exact Hm0].
    - cbn [w_fds set_trace set_heap set_queues]. exact Df.
    - cbn [w_queues set_trace set_heap set_queues].
      change (w_queues w1') with (w_queues (deliver q MQ_MSG_PRIO data w)).
      rewrite Dqs, insert_insert_eq, Hmq. reflexivity. }
  assert (Hhs : forall k, b <> k ->
                w_heap (fst (run (on_recv ctx) w1')) !! k = w_heap w !! k).
  { intros k Hk. rewrite R. cbn [fst w_heap set_trace set_heap set_queues].
    rewrite lookup_insert_ne by exact Hk.
    change (w_heap w1') with (w_heap (deliver q MQ_MSG_PRIO data w)).
    rewrite Dh. reflexivity. }
  exists w1. eexists. split; [reflexivity |].
  split; [rewrite Hrun; exact R |].
  rewrite R in Hqs, Hhs. cbn [fst] in Hqs, Hhs.
  split.
  { erewrite since_app; [| cbn [w_trace set_trace]; reflexivity].
    destruct (w_recv_cb w =? NULL); reflexivity. }
  split.
  { unfold buf_at, heap_at. cbn [w_heap set_trace set_heap].
    rewrite lookup_insert_eq. reflexivity. }
  split.
  { exists ctxA, cA, flA. subst ipc ctxA. unfold ctx_at, heap_at.
    rewrite !Hhs, HiA, HaA by assumption.
    repeat split; [apply Hqs, HqA | exact Hw]. }
  split; [| reflexivity].
  exists flB. subst ctx. rewrite Ei. unfold ctx_at, heap_at.
  rewrite !Hhs, Hi, Ha by assumption.
  repeat split; [apply Hqs, Hq | exact Hr | exact Hsz].
Qed.

Lemma message_reaches_callback_witness :
  exists w1 w2,
    run (_mq_send Scenario.cli "hello" 5) Scenario.registered = (w1, Done 5) /\
    run_thread w1 = (w2, Done tt) /\
    calls_where is_recv_cb (since w1 w2)
    = [Called (RecvCb Scenario.a_callback Scenario.srv
                 (w_recv_buf Scenario.registered) 5) tt].
Proof.
  destruct (message_reaches_callback Scenario.registered Scenario.cli
              Scenario.srv_ctx (ctx_of Scenario.registered Scenario.srv_ctx)
              0%nat
              (Mqueue MQ_MAXMSG MQ_MSGSIZE []
                 (Some (reg_self (rearm Scenario.srv_ctx))))
              "hello" (zeros 1024) 5)
    as (w1 & w2 & H1 & H2 & H3 & _).
  - exists Scenario.cli_ctx, (ctx_of Scenario.registered Scenario.cli_ctx),
      (Z.lor O_WRONLY O_EXCL).
    repeat split; vm_compute; reflexivity.
  - exists rflag. repeat split; vm_compute; first [reflexivity | discriminate].
  - split; vm_compute; reflexivity.
  - vm_compute. reflexivity.
  - vm_compute. split; discriminate.
  - vm_compute. discriminate.
  - vm_compute. reflexivity.
  - vm_compute. reflexivity.
  - exists w1, w2. split; [exact H1 |]. split; [exact H2 |].
    rewrite H3. vm_compute. reflexivity.
Defined.

(** X7. A burst silences the queue.  When a second message has come before
    the thread of the first one runs, [on_recv] takes the first, and one
    only; the request it made stays, but on a queue that is not empty: no
    message that comes later, however many come, starts a thread, and the
    message left behind stays in the queue. *)
Theorem burst_silences_queue (w : world) (sv : ptr) (c : mq_ctx) (q : nat)
    (oflag : Z) (mq : mqueue) (prio : Z) (data : string) (m : Z * string)
    (rest : list (Z * string)) (old : string) :
  finds_message w sv c q oflag mq prio data (m :: rest) ->
  buf_at w (w_recv_buf w) = Some old ->
  exists w',
    run (on_recv sv) w = (w', Done tt) /\
    calls_where is_mq_receive (since w w')
    = [Called (MqReceive (mq_rd c) (w_recv_buf w) MAX_IPC_MESSAGE_SIZE)
              (Z.of_nat (String.length data))] /\
    own_request w' (mq_rd c) = Some (rearm sv) /\
    forall later : list (Z * string),
      w_spawned (deliver_all q later w') = w_spawned w /\
      exists mq', w_queues (deliver_all q later w') !! q = Some mq' /\
                  In m (q_msgs mq').
Proof.
  intros F Hold.
  pose proof (on_recv_run w sv c q oflag mq prio data _ old F Hold) as R.
  cbn zeta in R.
  destruct F as [Hctx Hipc Hq Hn Hr Hsz Hm Hlen].
  pose proof Hold as (b & Eb & Hb)%buf_at_inv.
  rewrite Eb in R. cbn [heap_put] in R.
  eexists. split; [exact R |].
  split.
  { erewrite since_app; [| cbn [w_trace set_trace]; reflexivity].
    rewrite Eb. destruct (w_recv_cb w =? NULL); reflexivity. }
  split.
  { unfold own_request.
    erewrite queue_of_insert;
      [| | cbn [w_queues set_trace set_heap set_queues]; reflexivity
       | exact Hq]; reflexivity. }
  intros later.
  match goal with |- context [deliver_all q later ?W] => set (w' := W) end.
  destruct (deliver_all_silent q later w'
              (Mqueue (q_maxmsg mq) (q_msgsize mq) (m :: rest)
                 (Some (reg_self (rearm sv)))) m)
    as (Hs & mq' & Hq' & Hin & _).
  - subst w'. cbn [w_queues set_trace set_heap set_queues].
    apply lookup_insert_eq.
  - left. reflexivity.
  - split; [exact Hs | eauto].
Qed.

Lemma burst_silences_queue_witness :
  exists w',
    run (on_recv Scenario.srv_ctx) Cases.burst_fires = (w', Done tt) /\
    w_spawned (deliver_all 0 [(MQ_MSG_PRIO, "three"); (MQ_MSG_PRIO, "four")] w')
    = [].
Proof.
  destruct (burst_silences_queue Cases.burst_fires Scenario.srv_ctx
              (ctx_of Cases.burst_fires Scenario.srv_ctx) 0%nat rflag
              (Mqueue MQ_MAXMSG MQ_MSGSIZE
                 [(MQ_MSG_PRIO, "one"); (MQ_MSG_PRIO, "two")] None)
              MQ_MSG_PRIO "one" (MQ_MSG_PRIO, "two") [] (zeros 1024))
    as (w' & Hrun & _ & _ & Hlater).
  - split; vm_compute; first [reflexivity | discriminate].
  - vm_compute. reflexivity.
  - exists w'. split; [exact Hrun |].
    destruct (Hlater [(MQ_MSG_PRIO, "three"); (MQ_MSG_PRIO, "four")])
      as [Hs _].
    rewrite Hs. vm_compute. reflexivity.
Defined.

(** ** What an endpoint in service never does *)

(** X8. Only [init] and [deinit] change the queue names.  Whatever the world
    answers, a run of accept, connect, send, recv, the registration of the
    callback or a notification function (also the rest of an accept or a
    connect that slept) leaves every name in place and adds none: it makes
    no call to mq_unlink and no open that may create. *)
Theorem service_leaves_names (A : Type) (p : prog A) (w w' : world)
    (o : outcome A) :
  in_service A p -> run p w = (w', o) ->
  w_names w' = w_names w /\ calls_where is_mq_unlink (since w w') = [].
Proof.
  intros Hp Hrun. apply service_keeps_names in Hp. split.
  - apply (run_keeps keeps_names (fun w0 => w_names w0 = w_names w) p w w' o);
      auto.
    intros X e x w0 w1 HP E H0. rewrite <- H0.
    eapply step_keeps_names; eassumption.
  - apply forall_keeps_names. eapply run_always; eassumption.
Qed.

Lemma service_leaves_names_witness :
  w_names (fst Scenario.connect_sleeps) = w_names (fst Scenario.accept_sleeps).
Proof.
  apply (service_leaves_names Z (_mq_connect Scenario.cli Scenario.srv_name)
           (fst Scenario.accept_sleeps) (fst Scenario.connect_sleeps)
           (snd Scenario.connect_sleeps)).
  - apply svc_connect.
  - vm_compute. reflexivity.
Defined.

(** X9. Nothing is given back before [deinit].  Whatever the world answers,
    and whether it succeeds or fails, a run of an endpoint in service
    makes no call to mq_close or to free, and every descriptor that was
    open is still open on the same queue: an accept or a connect that
    fails after its open leaves that descriptor open. *)
Theorem service_closes_nothing (A : Type) (p : prog A) (w w' : world)
    (o : outcome A) :
  in_service A p -> run p w = (w', o) ->
  calls_where is_mq_close (since w w') = [] /\
  calls_where is_free (since w w') = [] /\
  w_fds w ⊆ w_fds w'.
Proof.
  intros Hp Hrun. apply service_keeps_all in Hp.
  destruct (run_always keeps_all p w w' o Hp Hrun) as (_ & Hall & _).
  destruct (forall_keeps_all _ Hall) as (H1 & _ & H3).
  split; [exact H1 |]. split; [exact H3 |].
  apply (run_keeps keeps_all (fun w0 => w_fds w ⊆ w_fds w0) p w w' o);
    auto.
  intros X e x w0 w1 HP E H0. etransitivity; [exact H0 |].
  eapply step_keeps_fds; eassumption.
Qed.

Lemma service_closes_nothing_witness :
  w_fds (fst Scenario.accept_sleeps) ⊆ w_fds (fst Scenario.connect_sleeps).
Proof.
  apply (service_closes_nothing Z (_mq_connect Scenario.cli Scenario.srv_name)
           (fst Scenario.accept_sleeps) (fst Scenario.connect_sleeps)
           (snd Scenario.connect_sleeps)).
  - apply svc_connect.
  - vm_compute. reflexivity.
Defined.

(** X10. Every function of the backend keeps this: a descriptor of the process
    that can be read is non-blocking.  The one open for reading is that of
    [init], with O_NONBLOCK; accept and connect open for writing only. *)
Theorem reads_stay_nonblocking (A : Type) (p : prog A) (w w' : world)
    (o : outcome A) :
  in_backend A p -> run p w = (w', o) ->
  reads_nonblocking w -> reads_nonblocking w'.
Proof.
  intros Hp Hrun. apply backend_opens_nonblocking in Hp.
  apply (run_keeps opens_nonblocking reads_nonblocking p w w' o); auto.
  intros X e x w0 w1 HP E. eapply step_reads_nonblocking; eassumption.
Qed.

Lemma reads_stay_nonblocking_witness :
  reads_nonblocking (fst Scenario.srv_init).
Proof.
  apply (reads_stay_nonblocking ptr (_mq_init Scenario.srv_name IPC_SERVER)
           boot (fst Scenario.srv_init) (snd Scenario.srv_init)).
  - apply bk_init.
  - vm_compute. reflexivity.
  - apply all_reads_nonblocking_spec. vm_compute. reflexivity.
Defined.

(** X11. In a process whose readable descriptors are non-blocking, a
    notification thread never sleeps, and neither does a [recv]: each runs
    to its end, or dies, whatever the queues hold. *)
Theorem receiving_never_sleeps (w : world) :
  reads_nonblocking w ->
  (forall cb sv w' o,
     run (notify_function cb sv) w = (w', o) -> forall k, o <> Blocked k) /\
  (forall ipc buf len w' o,
     run (_mq_recv ipc buf len) w = (w', o) -> forall k, o <> Blocked k).
Proof.
  intros Hw.
  assert (G : forall A (p : prog A) w' k,
            in_service A p -> always sleeps_in_receive_only p ->
            run p w = (w', Blocked k) -> False).
  { intros A p w' k Hs Hp Hrun.
    destruct (run_blocked _ p w w' k Hp Hrun) as (X & e & k0 & _ & He & E).
    apply (sleeps_in_receive e w' He E).
    apply (run_keeps opens_nonblocking reads_nonblocking p w w' (Blocked k));
      auto.
    - intros X0 e0 x w0 w1 HP E0. eapply step_reads_nonblocking; eassumption.
    - apply backend_opens_nonblocking, bk_service, Hs. }
  split.
  - intros cb sv w' o Hrun k ->.
    apply (G _ _ _ _ (svc_notified cb sv)) in Hrun; [exact Hrun |].
    destruct cb; cbn [notify_function]; unfold_backend; always_tac.
  - intros ipc buf len w' o Hrun k ->.
    apply (G _ _ _ _ (svc_recv ipc buf len)) in Hrun; [exact Hrun |].
    unfold_backend; always_tac.
Qed.

Lemma receiving_never_sleeps_witness :
  exists w',
    Scenario.raced_handler = (w', Done tt) \/
    Scenario.raced_handler = (w', Crashed).
Proof.
  destruct (receiving_never_sleeps (fst Scenario.raced_drained)) as [H _].
  - apply all_reads_nonblocking_spec. vm_compute. reflexivity.
  - destruct Scenario.raced_handler as [w' o] eqn:E.
    exists w'. destruct o as [[] | k |]; [left | exfalso | right];
      try reflexivity.
    exact (H cb_on_recv Scenario.srv_ctx w' (Blocked k) E k eq_refl).
Defined.

(** ** accept and connect, the other paths *)

(** X12. An [accept] that finds the gate closed links the context with its
    endpoint and sleeps on the gate: but for [parent], the world is as it
    was, and no call has returned. *)
Theorem accept_links_then_sleeps (w : world) (ipc ctx : ptr) (c : mq_ctx) :
  heap_at w ipc = Some (O_ipc ctx) ->
  ctx_at w ctx = Some c ->
  sem c = Some O ->
  exists k,
    run (_mq_accept ipc) w
    = (heap_put ctx (O_ctx (set_parent ipc c)) w, Blocked k) /\
    sleeps_on_gate (Blocked k) = Some ctx.
Proof.
  intros (i & -> & Hi)%ipc_at_inv (a & -> & Ha)%ctx_at_inv Hsem.
  unfold _mq_accept. exec. eexists. split; reflexivity.
Qed.

Lemma accept_links_then_sleeps_witness :
  sleeps_on_gate (snd Scenario.accept_sleeps) = Some Scenario.srv_ctx.
Proof.
  destruct (accept_links_then_sleeps Scenario.both_up Scenario.srv
              Scenario.srv_ctx (ctx_of Scenario.both_up Scenario.srv_ctx))
    as (k & Hrun & Hs).
  - vm_compute. reflexivity.
  - vm_compute. reflexivity.
  - vm_compute. reflexivity.
  - unfold Scenario.accept_sleeps. rewrite Hrun. exact Hs.
Defined.

(** X13. An [accept] that finds the gate open, and no queue under the
    terminated name held in [mq_wr_name], returns -1 with ENOENT: it has
    taken the signal from the gate, stored the -1 of the open in [mq_wr]
    and logged, and it has sent nothing. *)
Theorem accept_fails_without_peer_queue (w : world) (ipc ctx : ptr)
    (c : mq_ctx) (n : nat) :
  heap_at w ipc = Some (O_ipc ctx) ->
  ctx_at w ctx = Some c ->
  sem c = Some (S n) ->
  terminated (mq_wr_name c) ->
  w_names w !! cstr (mq_wr_name c) = None ->
  exists w',
    run (_mq_accept ipc) w = (w', Done (-1)) /\
    since w w' =
      [Called (SemWait ctx) 0;
       Called (MqOpen (mq_wr_name c) O_WRONLY init_mode init_attr) (-1);
       Called (Printf "mq_open %s failed: %d:%s\n") tt] /\
    w_errno w' = Some ENOENT /\
    ctx_at w' ctx
    = Some (Mq_ctx (-1) (mq_rd c) (mq_wr_name c) (mq_rd_name c) (role c)
              (Some n) ipc).
Proof.
  intros (i & -> & Hi)%ipc_at_inv (a & -> & Ha)%ctx_at_inv Hsem _ Hn.
  assert (Hia : i <> a) by congruence.
  unfold _mq_accept. fold init_mode. fold init_attr. exec.
  eexists. split; [reflexivity |]. split; [since_tac; reflexivity |].
  split; [reflexivity |]. exec. reflexivity.
Qed.

Lemma accept_fails_without_peer_queue_witness :
  exists w',
    run (_mq_accept Scenario.srv) Cases.peer_gone = (w', Done (-1)) /\
    w_errno w' = Some ENOENT.
Proof.
  destruct (accept_fails_without_peer_queue Cases.peer_gone Scenario.srv
              Scenario.srv_ctx (ctx_of Cases.peer_gone Scenario.srv_ctx) 0)
    as (w' & Hrun & _ & Herr & _).
  - vm_compute. reflexivity.
  - vm_compute. reflexivity.
  - vm_compute. reflexivity.
  - vm_compute. lia.
  - vm_compute. reflexivity.
  - exists w'. split; assumption.
Defined.

(** X14. A [connect] to a name that bears a queue with room, from an
    endpoint whose own name field is terminated, announces itself: it opens
    the queue for writing, without creating, keeps the name in
    [mq_wr_name], and sends its own read-queue name, the bytes before the
    NUL and no NUL, at the backend's priority.  It then reads the clock and
    waits on its gate: with the gate open it returns 0 having taken the
    signal, with the gate closed it sleeps until the deadline. *)
Theorem connect_announces_itself (w : world) (ipc ctx : ptr) (c : mq_ctx)
    (name : string) (q : nat) (mq : mqueue) (g : nat) :
  heap_at w ipc = Some (O_ipc ctx) ->
  ctx_at w ctx = Some c ->
  sem c = Some g ->
  clock_ok (w_now w) ->
  w_names w !! cstr name = Some q ->
  w_queues w !! q = Some mq ->
  strlen (mq_rd_name c) <= q_msgsize mq ->
  q_msgsize mq < 2 ^ 31 ->
  Z.of_nat (length (q_msgs mq)) < q_maxmsg mq ->
  terminated (mq_rd_name c) ->
  let abs_time := connect_abs_time connect_timeout (w_now w) in
  exists w' o fd mq',
    run (_mq_connect ipc name) w = (w', o) /\
    since w w' =
      [Called (MqOpen name (Z.lor O_WRONLY O_EXCL) init_mode init_attr) fd;
       Called (MqSend fd (mq_rd_name c) (strlen (mq_rd_name c)) MQ_MSG_PRIO) 0;
       Called Gettimeofday (w_now w)] ++
      match g with
      | O => []
      | S _ => [Called (SemTimedwait ctx abs_time) 0]
      end /\
    payloads_sent (since w w') = [cstr (mq_rd_name c)] /\
    w_queues w' !! q = Some mq' /\
    q_msgs mq' = mq_insert (MQ_MSG_PRIO, cstr (mq_rd_name c)) (q_msgs mq) /\
    ctx_at w' ctx
    = Some (Mq_ctx fd (mq_rd c) (strncpy name MAX_MQ_NAME) (mq_rd_name c)
              (role c) (Some (pred g)) ipc) /\
    match g with
    | O => waits_until o = Some abs_time
    | S _ => o = Done 0
    end.
Proof.
  intros (i & -> & Hi)%ipc_at_inv (a & -> & Ha)%ctx_at_inv Hsem Hclk Hn Hq
         Hlen Hint Hroom _ abs_time.
  assert (Hia : i <> a) by congruence.
  assert (E1 : (q_msgsize mq <? strlen (mq_rd_name c)) = false)
    by (apply Z.ltb_ge; lia).
  assert (E2 : (q_maxmsg mq <=? Z.of_nat (length (q_msgs mq))) = false)
    by (apply Z.leb_gt; lia).
  assert (E3 : to_int (strlen (mq_rd_name c)) = strlen (mq_rd_name c)).
  { apply to_int_small. unfold strlen in *. lia. }
  assert (E4 : (strlen (mq_rd_name c) <? 0) = false)
    by (apply Z.ltb_ge; unfold strlen; lia).
  assert (exists t,
            t = abs_time /\
            (ts_nsec t <? 0) || (1000000000 <=? ts_nsec t) = false /\
            (deadline_ns t <=? now_ns (w_now w)) = false)
    as (t & Ea & E5 & E6).
  { exists abs_time. split; [reflexivity |].
    destruct (connect_abs_time_spec connect_timeout (w_now w)) as [Hd Hns];
      [unfold connect_timeout; lia | exact Hclk |].
    fold abs_time in Hd, Hns. split.
    - apply orb_false_iff. split; [apply Z.ltb_ge | apply Z.leb_gt]; lia.
    - apply Z.leb_gt. rewrite Hd. unfold connect_timeout. lia. }
  unfold _mq_connect, _mq_send. fold init_mode. fold init_attr. exec.
  change (can_write (Z.lor O_WRONLY O_EXCL)) with true. exec_send.
  rewrite E3, E4. cbv iota. rewrite run_gettimeofday. cbv beta.
  cbn [w_now set_trace]. rewrite deliver_now.
  cbn [w_now set_trace set_heap set_fds]. fold abs_time. rewrite <- Ea.
  rewrite str_take_strlen in *.
  match goal with
  | |- context [deliver q ?p ?d ?W] =>
      destruct (deliver_queue q p d W mq) as (r & Dq & _);
        [exec; reflexivity |]
  end.
  destruct g as [| g]; exec_send.
  all: do 4 eexists; split; [reflexivity |].
  all: split;
    [unfold since; exec_send; rewrite <- ?app_assoc, drop_app_length;
     rewrite ?Ea; reflexivity |].
  all: split;
    [unfold since; exec_send; rewrite <- ?app_assoc, drop_app_length;
     cbn [app payloads_sent omap list_omap sent_payload]; cbn [Z.eqb];
     rewrite str_take_strlen; reflexivity |].
  all: split; [exec_send; rewrite Dq, lookup_insert_eq; reflexivity |].
  all: split; [cbn [q_msgs]; rewrite ?str_take_strlen; reflexivity |].
  all: split; [| rewrite ?Ea; reflexivity].
  all: exec_send; unfold set_mq_wr_name, set_mq_wr, set_parent, set_sem;
    cbn [mq_wr mq_rd mq_wr_name mq_rd_name role sem parent];
    rewrite ?Hsem; reflexivity.
Qed.

Lemma connect_announces_itself_witness :
  payloads_sent (since (fst Scenario.accept_sleeps)
                   (fst Scenario.connect_sleeps)) = [Scenario.cli_name].
Proof.
  destruct (connect_announces_itself (fst Scenario.accept_sleeps)
              Scenario.cli Scenario.cli_ctx
              (ctx_of (fst Scenario.accept_sleeps) Scenario.cli_ctx)
              Scenario.srv_name 0%nat
              (Mqueue MQ_MAXMSG MQ_MSGSIZE []
                 (Some (reg_self (Sigevent SIGEV_THREAD cb_on_connect NULL
                                    Scenario.srv_ctx)))) 0%nat)
    as (w' & o & fd & mq' & Hrun & _ & Hsent & _).
  - vm_compute. reflexivity.
  - vm_compute. reflexivity.
  - vm_compute. reflexivity.
  - vm_compute. intuition discriminate.
  - vm_compute. reflexivity.
  - vm_compute. reflexivity.
  - vm_compute. discriminate.
  - vm_compute. reflexivity.
  - vm_compute. reflexivity.
  - vm_compute. lia.
  - unfold Scenario.connect_sleeps. rewrite Hrun. cbn [fst]. rewrite Hsent.
    vm_compute. reflexivity.
Defined.

(** X15. A [connect] that sleeps in its timed wait and is woken with the gate
    open returns 0: the wait takes one signal from the gate, and is the
    one call made. *)
Theorem connect_wakes_on_signal (w w1 w2 : world) (ipc ctx : ptr)
    (name : string) (k : prog Z) (abs_time : timespec) (c2 : mq_ctx)
    (n : nat) :
  heap_at w ipc = Some (O_ipc ctx) ->
  run (_mq_connect ipc name) w = (w1, Blocked k) ->
  waits_until (Blocked k) = Some abs_time ->
  ctx_at w2 ctx = Some c2 ->
  sem c2 = Some (S n) ->
  exists w3,
    run k w2 = (w3, Done 0) /\
    since w2 w3 = [Called (SemTimedwait ctx abs_time) 0] /\
    ctx_at w3 ctx = Some (set_sem (Some n) c2).
Proof.
  intros Hipc Hrun Hwait (a & -> & Ha)%ctx_at_inv Hsem.
  assert (E0 : step (IpcCtx ipc) w = Ok (Z.pos a) w)
    by (cbn [step]; rewrite Hipc; reflexivity).
  revert Hrun. unfold _mq_connect, _mq_send. cbn [run bind sys printf].
  rewrite E0. cbn [run bind sys printf record traced].
  repeat match goal with
  | |- context [step Gettimeofday ?w0] =>
      change (step Gettimeofday w0) with (Ok (w_now w0) w0);
      cbn [run bind sys printf record traced]
  | |- context [match step ?e ?w0 with _ => _ end] =>
      let E := fresh "E" in
      destruct (step e w0) as [? ? | |] eqn:E;
      cbn [run bind sys printf record traced]
  | |- context [if ?b then _ else _] =>
      destruct b eqn:?; cbn [run bind sys printf record traced]
  end; intros [= <- <-]; try discriminate.
  all: cbn [waits_until] in Hwait; try discriminate.
  injection Hwait as <-.
  exec. eexists. split; [reflexivity |].
  split; [since_tac; reflexivity |]. exec. reflexivity.
Qed.

Lemma connect_wakes_on_signal_witness :
  snd Scenario.connect_wakes = Done 0.
Proof.
  destruct (connect_wakes_on_signal (fst Scenario.accept_sleeps)
              (fst Scenario.connect_sleeps) (fst Scenario.cli_notified)
              Scenario.cli Scenario.cli_ctx Scenario.srv_name
              (match snd Scenario.connect_sleeps with
               | Blocked k => k
               | _ => Ret 0
               end)
              (connect_abs_time connect_timeout
                 (w_now (fst Scenario.accept_sleeps)))
              (ctx_of (fst Scenario.cli_notified) Scenario.cli_ctx) 0%nat)
    as (w3 & Hrun & _).
  - vm_compute. reflexivity.
  - vm_compute. reflexivity.
  - vm_compute. reflexivity.
  - vm_compute. reflexivity.
  - vm_compute. reflexivity.
  - assert (E : snd Scenario.connect_sleeps
                 = Blocked (match snd Scenario.connect_sleeps with
                            | Blocked k => k
                            | _ => Ret 0
                            end)) by (vm_compute; reflexivity).
    unfold Scenario.connect_wakes. rewrite E. cbn [resume].
    rewrite Hrun. reflexivity.
Defined.

(** ** The notification functions, the other paths *)

Lemma server_stores_peer_name_witness :
  exists w' c',
    run (on_connect Scenario.srv_ctx) Cases.srv_fires = (w', Done tt) /\
    ctx_at w' Scenario.srv_ctx = Some c' /\
    cstr (mq_wr_name c') = Scenario.cli_name.
Proof.
  destruct (server_stores_peer_name Cases.srv_fires Scenario.srv_ctx
              (ctx_of Cases.srv_fires Scenario.srv_ctx) 0%nat rflag
              (Mqueue MQ_MAXMSG MQ_MSGSIZE
                 [(MQ_MSG_PRIO, Scenario.cli_name)] None)
              MQ_MSG_PRIO Scenario.cli_name [] 0%nat)
    as (w' & c' & Hrun & Hctx & Hname & _).
  - split; vm_compute; first [reflexivity | discriminate].
  - vm_compute. reflexivity.
  - vm_compute. reflexivity.
  - vm_compute. discriminate.
  - vm_compute. lia.
  - exists w', c'. split; [exact Hrun |]. split; [exact Hctx |].
    rewrite Hname. vm_compute. reflexivity.
Defined.

(** X17. A peer name of MAX_MQ_NAME bytes or more overflows nothing but is
    kept without its end.  The server-side [on_connect] stores the first
    MAX_MQ_NAME bytes of the payload in [mq_wr_name], which then holds no
    NUL, and signals the gate all the same. *)
Theorem server_name_overflow (w : world) (sv : ptr) (c : mq_ctx) (q : nat)
    (oflag : Z) (mq : mqueue) (prio : Z) (data : string)
    (rest : list (Z * string)) (n : nat) :
  finds_message w sv c q oflag mq prio data rest ->
  role c = IPC_SERVER ->
  sem c = Some n ->
  (MAX_MQ_NAME <= String.length (cstr data))%nat ->
  exists w' c',
    run (on_connect sv) w = (w', Done tt) /\
    ctx_at w' sv = Some c' /\
    mq_wr_name c' = str_take MAX_MQ_NAME data /\
    String.length (mq_wr_name c') = MAX_MQ_NAME /\
    cstr (mq_wr_name c') = mq_wr_name c' /\
    sem c' = Some (S n).
Proof.
  intros [(a & -> & Ha)%ctx_at_inv (i & Hp & Hi)%ipc_at_inv
          (Hfd & Hq1 & Hq2)%queue_of_inv Hn Hr Hsz Hm Hlen]
         Hrole Hsem Hlong.
  assert (Hia : i <> a) by congruence.
  assert (Hba : fresh (dom (w_heap w)) <> a) by (eapply fresh_not_key, Ha).
  assert (Hbi : fresh (dom (w_heap w)) <> i) by (eapply fresh_not_key, Hi).
  pose proof (length_cstr data) as Hcl.
  assert (E1 : (-1 =? Z.of_nat (String.length data)) = false)
    by (apply Z.eqb_neq; lia).
  assert (E2 : to_int (Z.of_nat (String.length data))
               = Z.of_nat (String.length data)).
  { apply to_int_small. unfold MAX_IPC_MESSAGE_SIZE in Hsz. lia. }
  assert (E3 : (Z.of_nat (String.length data) <=? 0) = false).
  { apply Z.leb_gt. unfold MAX_MQ_NAME in Hlong. lia. }
  apply Z.ltb_ge in Hsz.
  unfold on_connect, on_connect_body, _mq_notify_update, _mq_recv. exec.
  rewrite E2, E3. exec.
  do 2 eexists. split; [reflexivity |]. exec.
  split; [reflexivity |]. cbn [mq_wr_name set_mq_wr_name sem set_sem].
  rewrite overwrite_zeros_self. unfold overwrite.
  match goal with
  | |- context [strncpy (String.append data ?t) MAX_MQ_NAME] =>
      destruct (strncpy_full (String.append data t) MAX_MQ_NAME)
        as (S1 & S2 & S3);
        [etransitivity; [exact Hlong | apply cstr_append_long] |];
      rewrite S1 in S2, S3 |- *; rewrite str_take_append in * by lia
  end.
  auto.
Qed.

Lemma server_name_overflow_witness :
  exists w' c',
    run (on_connect Scenario.srv_ctx) Cases.long_fires = (w', Done tt) /\
    ctx_at w' Scenario.srv_ctx = Some c' /\
    mq_wr_name c' = filled 256 "a".
Proof.
  destruct (server_name_overflow Cases.long_fires Scenario.srv_ctx
              (ctx_of Cases.long_fires Scenario.srv_ctx) 0%nat rflag
              (Mqueue MQ_MAXMSG MQ_MSGSIZE
                 [(MQ_MSG_PRIO, Cases.long_name)] None)
              MQ_MSG_PRIO Cases.long_name [] 0%nat)
    as (w' & c' & Hrun & Hctx & Hname & _).
  - split; vm_compute; first [reflexivity | discriminate].
  - vm_compute. reflexivity.
  - vm_compute. reflexivity.
  - vm_compute. lia.
  - exists w', c'. split; [exact Hrun |]. split; [exact Hctx |].
    rewrite Hname. vm_compute. reflexivity.
Defined.

(** X18. A notification that fires before accept or connect has linked the
    context ([parent] is still NULL) gets no further than its re-arm: the
    receive goes through the endpoint, and the thread dies on the NULL
    pointer, the message unread and the gate untouched. *)
Theorem handler_needs_endpoint (cb : mq_notify_cb) (w : world) (sv : ptr)
    (c : mq_ctx) (q : nat) (oflag : Z) (mq : mqueue) :
  ctx_at w sv = Some c ->
  parent c = NULL ->
  queue_of w (mq_rd c) = Some (q, oflag, mq) ->
  q_notify mq = None ->
  exists w',
    run (notify_function cb sv) w = (w', Crashed) /\
    since w w' = [Called (MqNotify (mq_rd c) (rearm sv)) 0] /\
    calls_where is_mq_receive (since w w') = [] /\
    queue_of w' (mq_rd c)
    = Some (q, oflag, set_q_notify (Some (reg_self (rearm sv))) mq) /\
    gate w' sv = sem c.
Proof.
  intros (a & -> & Ha)%ctx_at_inv Hp (Hfd & Hq1 & Hq2)%queue_of_inv Hn.
  assert (Hba : fresh (dom (w_heap w)) <> a) by (eapply fresh_not_key, Ha).
  destruct cb; cbn [notify_function];
    unfold on_connect, on_connect_body, on_recv, _mq_notify_update, _mq_recv;
    exec; rewrite ?Hp; exec;
    (eexists; split; [reflexivity |]);
    (split; [since_tac; reflexivity |]); rewrite ?Hp; since_tac;
    (split; [reflexivity |]); exec; split; reflexivity.
Qed.

Lemma handler_needs_endpoint_witness :
  exists w',
    run (on_connect Scenario.srv_ctx) Cases.early_fires = (w', Crashed).
Proof.
  destruct (handler_needs_endpoint cb_on_connect Cases.early_fires
              Scenario.srv_ctx (ctx_of Cases.early_fires Scenario.srv_ctx)
              0%nat rflag
              (Mqueue MQ_MAXMSG MQ_MSGSIZE
                 [(MQ_MSG_PRIO, Scenario.cli_name)] None))
    as (w' & Hrun & _).
  - vm_compute. reflexivity.
  - vm_compute. reflexivity.
  - vm_compute. reflexivity.
  - reflexivity.
  - exists w'. exact Hrun.
Defined.

(** ** init and deinit, the other paths *)

(** X19. With no memory for the context, [init] returns NULL after a log line
    and has touched nothing: no name, no queue, no descriptor. *)
Theorem init_out_of_memory (w : world) (name : string) (role : ipc_role) :
  w_calloc_left w = O ->
  run (_mq_init name role) w
  = (set_trace (w_trace w ++ [Called CallocCtx NULL;
                              Called (Printf "malloc failed!\n") tt])
       (set_errno (Some ENOMEM) w),
     Done NULL).
Proof.
  intros Hc. unfold _mq_init. exec. rewrite <- app_assoc. reflexivity.
Qed.

Lemma init_out_of_memory_witness :
  snd (run (_mq_init Scenario.srv_name IPC_SERVER) Cases.no_memory)
  = Done NULL.
Proof.
  rewrite (init_out_of_memory Cases.no_memory Scenario.srv_name IPC_SERVER);
    reflexivity.
Defined.

(** X20. When the machine takes no more queues, [init] returns NULL with
    ENOSPC, but not before its unlink: a queue that bore the name has lost
    it.  The context stays allocated, with the -1 of the open in [mq_rd]. *)
Theorem init_without_room (w : world) (name : string) (role : ipc_role)
    (n : nat) :
  w_calloc_left w = S n ->
  (w_queues_max w <= size (delete (cstr name) (w_names w)))%nat ->
  exists w' a r,
    run (_mq_init name role) w = (w', Done NULL) /\
    since w w' =
      [Called CallocCtx (Z.pos a);
       Called (MqUnlink name) r;
       Called (MqOpen name rflag init_mode init_attr) (-1);
       Called (Printf "mq_open %s failed %d:%s\n") tt] /\
    w_errno w' = Some ENOSPC /\
    w_names w' = delete (cstr name) (w_names w) /\
    ctx_at w' (Z.pos a) = Some (set_mq_rd (-1) zero_ctx).
Proof.
  intros Hc Hroom. apply Nat.leb_le in Hroom.
  unfold _mq_init. fold rflag. fold init_mode. fold init_attr.
  destruct (w_names w !! cstr name) as [q0 |] eqn:Hn.
  - exec. do 3 eexists. split; [reflexivity |].
    split; [since_tac; reflexivity |]. split; [reflexivity |].
    split; [reflexivity |]. exec. reflexivity.
  - rewrite delete_id in Hroom |- * by exact Hn.
    exec. do 3 eexists. split; [reflexivity |].
    split; [since_tac; reflexivity |]. split; [reflexivity |].
    split; [reflexivity |]. exec. reflexivity.
Qed.

Lemma init_without_room_witness :
  exists w',
    run (_mq_init Scenario.srv_name IPC_SERVER) Cases.no_room
    = (w', Done NULL) /\
    w_errno w' = Some ENOSPC.
Proof.
  destruct (init_without_room Cases.no_room Scenario.srv_name IPC_SERVER 63)
    as (w' & a & r & Hrun & _ & Herr & _).
  - reflexivity.
  - vm_compute. lia.
  - exists w'. split; assumption.
Defined.

(** X21. The receive buffer is one for the process.  An [init] that succeeds
    in a process that has a buffer already allocates another and points
    the shared variable to it; the earlier buffer is not freed, and stays
    allocated with its contents. *)
Theorem init_replaces_shared_buffer (w : world) (name : string)
    (role : ipc_role) (n : nat) (old : string) :
  w_calloc_left w = S (S n) ->
  w_sem_ok w = true ->
  (size (delete (cstr name) (w_names w)) < w_queues_max w)%nat ->
  buf_at w (w_recv_buf w) = Some old ->
  exists w' a,
    run (_mq_init name role) w = (w', Done (Z.pos a)) /\
    w_recv_buf w' <> w_recv_buf w /\
    buf_at w' (w_recv_buf w') = Some (zeros (Z.to_nat MAX_IPC_MESSAGE_SIZE)) /\
    buf_at w' (w_recv_buf w) = Some old /\
    calls_where is_free (since w w') = [].
Proof.
  intros Hc Hs Hroom (b0 & Eb & Hb0)%buf_at_inv.
  apply Nat.leb_gt in Hroom.
  unfold _mq_init, _mq_notify_update.
  fold rflag. fold init_mode. fold init_attr.
  assert (Hd : w_names w !! cstr name = None ->
               delete (cstr name) (w_names w) = w_names w)
    by apply delete_id.
  destruct (w_names w !! cstr name) as [q0 |] eqn:Hn;
    [clear Hd | rewrite Hd in Hroom by reflexivity; clear Hd]; exec.
  all: assert (Hab0 : fresh (dom (w_heap w)) <> b0)
    by (eapply fresh_not_key, Hb0).
  all: match goal with
       | |- context [<[?a := O_ctx ?c0]> (w_heap ?w0)] =>
           let b := constr:(fresh (dom (<[a := O_ctx c0]> (w_heap w0)))) in
           assert (Hba : b <> a);
           [ intros E; apply (is_fresh (dom (<[a := O_ctx c0]> (w_heap w0))));
             rewrite E; apply elem_of_dom; rewrite lookup_insert_eq; eauto
           | assert (Hbb0 : b <> b0);
             [ intros E;
               apply (is_fresh (dom (<[a := O_ctx c0]> (w_heap w0))));
               rewrite E; apply elem_of_dom;
               rewrite lookup_insert_ne by exact Hab0; eauto
             | ] ]
       end; exec.
  all: do 2 eexists; split; [reflexivity |].
  all: rewrite ?Eb; exec.
  all: split; [congruence |].
  all: split; [reflexivity |].
  all: split; [reflexivity |].
  all: since_tac; reflexivity.
Qed.

Lemma init_replaces_shared_buffer_witness :
  exists w' a,
    run (_mq_init Scenario.cli_name IPC_CLIENT) (snd Scenario.srv_ipc)
    = (w', Done (Z.pos a)) /\
    buf_at w' (w_recv_buf (snd Scenario.srv_ipc)) = Some (zeros 1024).
Proof.
  destruct (init_replaces_shared_buffer (snd Scenario.srv_ipc)
              Scenario.cli_name IPC_CLIENT 60 (zeros 1024))
    as (w' & a & Hrun & _ & _ & Hold & _).
  - vm_compute. reflexivity.
  - vm_compute. reflexivity.
  - vm_compute. lia.
  - vm_compute. reflexivity.
  - exists w', a. split; [exact Hrun | exact Hold].
Defined.

(** X22. [deinit] of a live endpoint always returns, whatever its closes and
    unlinks answer.  It frees the shared buffer and then the context, and
    nothing else: the [struct ipc] is the caller's and every other object
    stays.  Neither descriptor designates a queue afterwards.  The shared
    variable is not reset, and still holds the address of the buffer that
    has been freed. *)
Theorem deinit_releases (w : world) (ipc ctx : ptr) (c : mq_ctx)
    (old : string) :
  heap_at w ipc = Some (O_ipc ctx) ->
  ctx_at w ctx = Some c ->
  buf_at w (w_recv_buf w) = Some old ->
  exists w',
    run (_mq_deinit ipc) w = (w', Done tt) /\
    calls_where is_free (since w w')
    = [Called (Free (w_recv_buf w)) tt; Called (Free ctx) tt] /\
    heap_at w' ctx = None /\
    heap_at w' (w_recv_buf w) = None /\
    w_recv_buf w' = w_recv_buf w /\
    (forall p, p <> ctx -> p <> w_recv_buf w -> heap_at w' p = heap_at w p) /\
    queue_of w' (mq_rd c) = None /\
    queue_of w' (mq_wr c) = None.
Proof.
  intros Hipc Hctx Hbuf.
  destruct (deinit_reaches_release w ipc ctx c Hipc Hctx)
    as (w0 & t & Hrun & Hh & Hb & Ht & Hfree & Hrd & Hwr).
  pose proof Hctx as (a & -> & Ha)%ctx_at_inv.
  pose proof Hbuf as (b & Eb & Hb')%buf_at_inv.
  assert (Hba : b <> a) by congruence.
  rewrite (release_run w0 a b c old) in Hrun by congruence.
  eexists. split; [exact Hrun |].
  rewrite Eb.
  split.
  { erewrite since_app;
      [| cbn [w_trace set_trace]; rewrite Ht, <- app_assoc; reflexivity].
    unfold calls_where in *. rewrite List.filter_app, Hfree. reflexivity. }
  unfold heap_at. cbn [w_heap w_recv_buf set_trace set_heap].
  split; [apply lookup_delete_eq |].
  split; [rewrite lookup_delete_ne, lookup_delete_eq by congruence;
          reflexivity |].
  split; [congruence |].
  split.
  { intros [| p |] Hp1 Hp2; try reflexivity.
    rewrite !lookup_delete_ne, lookup_insert_ne, Hh by congruence.
    reflexivity. }
  split; [exact Hrd | exact Hwr].
Qed.

Lemma deinit_releases_witness :
  exists w', run (_mq_deinit Scenario.srv) Scenario.connected = (w', Done tt).
Proof.
  destruct (deinit_releases Scenario.connected Scenario.srv Scenario.srv_ctx
              (ctx_of Scenario.connected Scenario.srv_ctx)
              (match buf_at Scenario.connected (w_recv_buf Scenario.connected)
               with Some s => s | None => "" end))
    as (w' & Hrun & _).
  - vm_compute. reflexivity.
  - vm_compute. reflexivity.
  - vm_compute. reflexivity.
  - exists w'. exact Hrun.
Defined.

(** X23. Two endpoints of one process cannot both be torn down.  The first
    [deinit] frees the shared buffer and leaves its address in the shared
    variable; the second closes, unlinks and destroys its semaphore, and
    then frees that same address again: its thread dies there, before any
    free has returned. *)
Theorem second_deinit_frees_again (w : world) (ipc1 ctx1 ipc2 ctx2 : ptr)
    (c1 c2 : mq_ctx) (old : string) :
  heap_at w ipc1 = Some (O_ipc ctx1) ->
  ctx_at w ctx1 = Some c1 ->
  heap_at w ipc2 = Some (O_ipc ctx2) ->
  ctx_at w ctx2 = Some c2 ->
  ctx1 <> ctx2 ->
  buf_at w (w_recv_buf w) = Some old ->
  exists w1 w2,
    run (_mq_deinit ipc1) w = (w1, Done tt) /\
    w_recv_buf w1 = w_recv_buf w /\
    heap_at w1 (w_recv_buf w1) = None /\
    run (_mq_deinit ipc2) w1 = (w2, Crashed) /\
    calls_where is_free (since w1 w2) = [] /\
    ctx_at w2 ctx2 = Some (set_sem None c2).
Proof.
  intros Hipc1 Hctx1 Hipc2 Hctx2 Hne Hbuf.
  destruct (deinit_reaches_release w ipc1 ctx1 c1 Hipc1 Hctx1)
    as (w0 & t & Hrun & Hh & Hb & Ht & Hfree & _).
  pose proof Hctx1 as (a1 & -> & Ha1)%ctx_at_inv.
  pose proof Hctx2 as (a2 & -> & Ha2)%ctx_at_inv.
  pose proof Hipc2 as (i2 & -> & Hi2)%ipc_at_inv.
  pose proof Hbuf as (b & Eb & Hb')%buf_at_inv.
  assert (Hba : b <> a1) by congruence.
  assert (a1 <> a2) by congruence.
  assert (b <> a2) by congruence.
  assert (b <> i2) by congruence.
  assert (a1 <> i2) by congruence.
  rewrite (release_run w0 a1 b c1 old) in Hrun by congruence.
  match type of Hrun with _ = (?W, _) => set (w1 := W) in * end.
  assert (Hi2' : heap_at w1 (Z.pos i2) = Some (O_ipc (Z.pos a2))).
  { unfold heap_at. subst w1. cbn [w_heap set_trace set_heap].
    rewrite !lookup_delete_ne, lookup_insert_ne, Hh by congruence.
    exact Hi2. }
  assert (Ha2' : ctx_at w1 (Z.pos a2) = Some c2).
  { unfold ctx_at, heap_at. subst w1. cbn [w_heap set_trace set_heap].
    rewrite !lookup_delete_ne, lookup_insert_ne, Hh, Ha2 by congruence.
    reflexivity. }
  destruct (deinit_reaches_release w1 (Z.pos i2) (Z.pos a2) c2 Hi2' Ha2')
    as (w3 & t' & Hrun' & Hh' & Hb3 & Ht' & Hfree' & _).
  exists w1. eexists. split; [exact Hrun |].
  split; [subst w1; cbn [w_recv_buf set_trace set_heap]; congruence |].
  assert (Hb1 : w_recv_buf w1 = Z.pos b)
    by (subst w1; cbn [w_recv_buf set_trace set_heap]; congruence).
  assert (Hgone : w_heap w1 !! b = None).
  { subst w1. cbn [w_heap set_trace set_heap].
    rewrite lookup_delete_ne, lookup_delete_eq by congruence. reflexivity. }
  split; [rewrite Hb1; exact Hgone |].
  assert (Ha3 : w_heap w3 !! a2 = Some (O_ctx c2)).
  { rewrite Hh'. apply ctx_at_inv in Ha2' as (? & [= <-] & ?). assumption. }
  assert (Hb3' : w_recv_buf w3 = Z.pos b) by congruence.
  assert (Hgone3 : w_heap w3 !! b = None) by (rewrite Hh'; exact Hgone).
  rewrite Hrun'. unfold deinit_release. exec. rewrite Hb3'. exec.
  split; [reflexivity |]. split.
  - erewrite since_app;
      [| cbn [w_trace set_trace]; rewrite Ht', <- app_assoc; reflexivity].
    unfold calls_where in *. rewrite List.filter_app, Hfree'. reflexivity.
  - exec. reflexivity.
Qed.

Lemma second_deinit_frees_again_witness :
  exists w2,
    run (_mq_deinit Scenario.cli) (fst Scenario.srv_deinit) = (w2, Crashed).
Proof.
  destruct (second_deinit_frees_again Scenario.connected Scenario.srv
              Scenario.srv_ctx Scenario.cli Scenario.cli_ctx
              (ctx_of Scenario.connected Scenario.srv_ctx)
              (ctx_of Scenario.connected Scenario.cli_ctx)
              (match buf_at Scenario.connected (w_recv_buf Scenario.connected)
               with Some s => s | None => "" end))
    as (w1 & w2 & H1 & _ & _ & H2 & _).
  - vm_compute. reflexivity.
  - vm_compute. reflexivity.
  - vm_compute. reflexivity.
  - vm_compute. reflexivity.
  - vm_compute. discriminate.
  - vm_compute. reflexivity.
  - exists w2. unfold Scenario.srv_deinit. rewrite H1. exact H2.
Defined.

(** ** The handshake, from end to end *)

(** X24. The handshake completes.  Take a server and a client endpoint as
    [init] leaves them, on two queues, the client's name not empty and
    shorter than MAX_MQ_NAME.  The server accepts and sleeps; the client
    connects to the server's name and sleeps; the server's [on_connect]
    runs and accept, woken, returns 0; the client's [on_connect] runs and
    connect, woken, returns 0.  Each endpoint then writes to the queue the
    other reads, both read queues are idle (empty, [on_recv] asked for),
    no thread is pending, and the name the server keeps for its peer reads
    as the client's own. *)
Theorem handshake_completes (w : world) (srv sctx : ptr) (sc : mq_ctx)
    (sq : nat) (cli cctx : ptr) (cc : mq_ctx) (cq : nat) (name : string) :
  ready w srv sctx sc sq IPC_SERVER ->
  ready w cli cctx cc cq IPC_CLIENT ->
  sq <> cq ->
  w_names w !! cstr name = Some sq ->
  (0 < String.length (cstr (mq_rd_name cc)) < MAX_MQ_NAME)%nat ->
  w_spawned w = [] ->
  clock_ok (w_now w) ->
  exists w1 ka w2 kc w3 w4 w5 w6 sc' cc' smq cmq,
    run (_mq_accept srv) w = (w1, Blocked ka) /\
    run (_mq_connect cli name) w1 = (w2, Blocked kc) /\
    run_thread w2 = (w3, Done tt) /\
    run ka w3 = (w4, Done 0) /\
    run_thread w4 = (w5, Done tt) /\
    run kc w5 = (w6, Done 0) /\
    reads_from w6 sctx sc' sq smq /\ idle sctx smq /\
    writes_to w6 srv cq cmq /\
    reads_from w6 cctx cc' cq cmq /\ idle cctx cmq /\
    writes_to w6 cli sq smq /\
    w_spawned w6 = [] /\
    cstr (mq_wr_name sc') = cstr (mq_rd_name cc').
Proof.
  intros [(si & -> & Hsi)%ipc_at_inv (sa & -> & Hsa)%ctx_at_inv Hsrole Hssem
          (Hsneg & Hsfd & Hsq)%queue_of_inv Hsn]
         [(ci & -> & Hci)%ipc_at_inv (ca & -> & Hca)%ctx_at_inv Hcrole Hcsem
          (Hcneg & Hcfd & Hcq)%queue_of_inv Hcn]
         Hqq Hname Hshort Hsp Hclk.
  assert (Hsc : sa <> ca) by congruence.
  assert (Hsisa : si <> sa) by congruence.
  assert (Hsica : si <> ca) by congruence.
  assert (Hcisa : ci <> sa) by congruence.
  assert (Hcica : ci <> ca) by congruence.
  assert (Hsici : si <> ci) by congruence.
  assert (Hfds : Z.to_nat (mq_rd sc) <> Z.to_nat (mq_rd cc)) by congruence.
  set (cn := cstr (mq_rd_name cc)) in *.
  (* accept sleeps *)
  eassert (R1 : run (_mq_accept (Z.pos si)) w = (_, Blocked _)).
  { unfold _mq_accept. exec. reflexivity. }
  match type of R1 with _ = (?W, Blocked ?K) =>
    set (ka := K) in *;
    eassert (H1si : w_heap W !! si = _) by known;
    eassert (H1sa : w_heap W !! sa = _) by known;
    eassert (H1ci : w_heap W !! ci = _) by known;
    eassert (H1ca : w_heap W !! ca = _) by known;
    eassert (H1sfd : w_fds W !! Z.to_nat (mq_rd sc) = _) by known;
    eassert (H1cfd : w_fds W !! Z.to_nat (mq_rd cc) = _) by known;
    eassert (H1sq : w_queues W !! sq = _) by known;
    eassert (H1cq : w_queues W !! cq = _) by known;
    eassert (H1n : w_names W !! cstr name = _) by known;
    eassert (H1cn : w_names W !! cn = _) by known;
    eassert (H1sp : w_spawned W = _) by known;
    eassert (H1now : w_now W = _) by known;
    revert R1 H1si H1sa H1ci H1ca H1sfd H1cfd H1sq H1cq H1n H1cn H1sp H1now;
    generalize W
  end.
  intros w1 R1 H1si H1sa H1ci H1ca H1sfd H1cfd H1sq H1cq H1n H1cn H1sp H1now.
  tidy H1si. tidy H1sa. tidy H1ci. tidy H1ca. tidy H1sfd. tidy H1cfd.
  tidy H1sq. tidy H1cq. tidy H1n. tidy H1cn. tidy H1sp. tidy H1now.
  (* connect announces itself and sleeps *)
  assert (Ecn : str_take (Z.to_nat (strlen (mq_rd_name cc))) (mq_rd_name cc)
                = cn) by apply str_take_strlen.
  assert (Elen : strlen (mq_rd_name cc) = Z.of_nat (String.length cn))
    by reflexivity.
  assert (E1 : (MQ_MSGSIZE <? strlen (mq_rd_name cc)) = false).
  { apply Z.ltb_ge. rewrite Elen. unfold MQ_MSGSIZE, MAX_MQ_NAME in *. lia. }
  assert (E3 : to_int (strlen (mq_rd_name cc)) = strlen (mq_rd_name cc)).
  { apply to_int_small. rewrite Elen. unfold MAX_MQ_NAME in *. lia. }
  assert (E4 : (strlen (mq_rd_name cc) <? 0) = false)
    by (apply Z.ltb_ge; rewrite Elen; lia).
  assert (exists abs_time,
            abs_time = connect_abs_time connect_timeout (w_now w) /\
            (ts_nsec abs_time <? 0) || (1000000000 <=? ts_nsec abs_time)
            = false /\
            (deadline_ns abs_time <=? now_ns (w_now w)) = false)
    as (abs_time & Eabs & E5 & E6).
  { eexists. split; [reflexivity |].
    destruct (connect_abs_time_spec connect_timeout (w_now w)) as [Hd Hns];
      [unfold connect_timeout; lia | exact Hclk |].
    split.
    - apply orb_false_iff. split; [apply Z.ltb_ge | apply Z.leb_gt]; lia.
    - apply Z.leb_gt. rewrite Hd. unfold connect_timeout. lia. }
  assert (F1s : fresh (dom (w_fds w1)) <> Z.to_nat (mq_rd sc))
    by (eapply fresh_not_fd, H1sfd).
  assert (F1c : fresh (dom (w_fds w1)) <> Z.to_nat (mq_rd cc))
    by (eapply fresh_not_fd, H1cfd).
  eassert (R2 : run (_mq_connect (Z.pos ci) name) w1 = (_, Blocked _)).
  { unfold _mq_connect, _mq_send. exec.
    change (can_write (Z.lor O_WRONLY O_EXCL)) with true. exec_send.
    rewrite E3, E4, Ecn. cbv iota. rewrite run_gettimeofday. cbv beta.
    cbn [w_now set_trace]. rewrite deliver_now.
    cbn [w_now set_trace set_heap set_fds]. rewrite H1now, <- Eabs.
    exec_send. rewrite ?H1now. exec_send.
    erewrite deliver_fires_eq; [| known | reflexivity | reflexivity].
    exec. rewrite ?H1sp. reflexivity. }
  set (fd2 := fresh (dom (w_fds w1))) in *.
  match type of R2 with _ = (?W, Blocked ?K) =>
    set (kc := K) in *;
    eassert (H2si : w_heap W !! si = _) by known;
    eassert (H2sa : w_heap W !! sa = _) by known;
    eassert (H2ci : w_heap W !! ci = _) by known;
    eassert (H2ca : w_heap W !! ca = _) by known;
    eassert (H2sfd : w_fds W !! Z.to_nat (mq_rd sc) = _) by known;
    eassert (H2cfd : w_fds W !! Z.to_nat (mq_rd cc) = _) by known;
    eassert (H2fd2 : w_fds W !! fd2 = _) by known;
    eassert (H2sq : w_queues W !! sq = _) by known;
    eassert (H2cq : w_queues W !! cq = _) by known;
    eassert (H2cn : w_names W !! cn = _) by known;
    eassert (H2sp : w_spawned W = _) by known;
    revert R2 H2si H2sa H2ci H2ca H2sfd H2cfd H2fd2 H2sq H2cq H2cn H2sp;
    generalize W
  end.
  intros w2 R2 H2si H2sa H2ci H2ca H2sfd H2cfd H2fd2 H2sq H2cq H2cn H2sp.
  tidy H2si. tidy H2sa. tidy H2ci. tidy H2ca. tidy H2sfd. tidy H2cfd.
  tidy H2fd2. tidy H2sq. tidy H2cq. tidy H2cn. tidy H2sp.
  (* the server's on_connect keeps the name and opens the gate *)
  assert (B3sa : fresh (dom (w_heap w2)) <> sa)
    by (eapply fresh_not_key, H2sa).
  assert (B3si : fresh (dom (w_heap w2)) <> si)
    by (eapply fresh_not_key, H2si).
  assert (B3ca : fresh (dom (w_heap w2)) <> ca)
    by (eapply fresh_not_key, H2ca).
  assert (B3ci : fresh (dom (w_heap w2)) <> ci)
    by (eapply fresh_not_key, H2ci).
  assert (L1 : (-1 =? Z.of_nat (String.length cn)) = false)
    by (apply Z.eqb_neq; lia).
  assert (L2 : to_int (Z.of_nat (String.length cn))
               = Z.of_nat (String.length cn)).
  { apply to_int_small. unfold MAX_MQ_NAME in *. lia. }
  assert (L3 : (Z.of_nat (String.length cn) <=? 0) = false)
    by (apply Z.leb_gt; lia).
  eassert (R3 : run_thread w2 = (_, Done tt)).
  { unfold run_thread, next_thread. rewrite H2sp.
    cbn [notify_function sigev_notify_function sigev_value].
    unfold on_connect, on_connect_body, _mq_notify_update, _mq_recv. exec.
    change (MAX_IPC_MESSAGE_SIZE <? MQ_MSGSIZE) with false. exec.
    rewrite L2, L3. exec. rewrite ?Hsrole. exec. reflexivity. }
  match type of R3 with _ = (?W, Done tt) =>
    eassert (H3si : w_heap W !! si = _) by known;
    eassert (H3sa : w_heap W !! sa = _) by known;
    eassert (H3ci : w_heap W !! ci = _) by known;
    eassert (H3ca : w_heap W !! ca = _) by known;
    eassert (H3sfd : w_fds W !! Z.to_nat (mq_rd sc) = _) by known;
    eassert (H3cfd : w_fds W !! Z.to_nat (mq_rd cc) = _) by known;
    eassert (H3fd2 : w_fds W !! fd2 = _) by known;
    eassert (H3sq : w_queues W !! sq = _) by known;
    eassert (H3cq : w_queues W !! cq = _) by known;
    eassert (H3cn : w_names W !! cn = _) by known;
    eassert (H3sp : w_spawned W = _) by known;
    revert R3 H3si H3sa H3ci H3ca H3sfd H3cfd H3fd2 H3sq H3cq H3cn H3sp;
    generalize W
  end.
  intros w3 R3 H3si H3sa H3ci H3ca H3sfd H3cfd H3fd2 H3sq H3cq H3cn H3sp.
  tidy H3si. tidy H3sa. tidy H3ci. tidy H3ca. tidy H3sfd. tidy H3cfd.
  tidy H3fd2. tidy H3sq. tidy H3cq. tidy H3cn. tidy H3sp.
  rewrite overwrite_zeros_self in H3sa.
  set (pn := strncpy (overwrite cn (zeros (Z.to_nat MAX_IPC_MESSAGE_SIZE)))
               MAX_MQ_NAME) in *.
  (* accept wakes, opens the queue of that name and answers with it *)
  assert (Epn : cstr pn = cn).
  { unfold pn. rewrite cstr_strncpy; rewrite cstr_overwrite_zeros;
      unfold cn; rewrite cstr_cstr; [reflexivity | fold cn; lia]. }
  assert (H3pn : w_names w3 !! cstr pn = Some cq)
    by (rewrite Epn; exact H3cn).
  assert (P1 : str_take (Z.to_nat (strlen pn)) pn = cn)
    by (rewrite str_take_strlen; exact Epn).
  assert (Plen : strlen pn = Z.of_nat (String.length cn))
    by (unfold strlen; rewrite Epn; reflexivity).
  assert (P2 : (MQ_MSGSIZE <? strlen pn) = false).
  { apply Z.ltb_ge. rewrite Plen. unfold MQ_MSGSIZE, MAX_MQ_NAME in *. lia. }
  assert (P3 : to_int (strlen pn) = strlen pn).
  { apply to_int_small. rewrite Plen. unfold MAX_MQ_NAME in *. lia. }
  assert (P4 : (strlen pn <? 0) = false)
    by (apply Z.ltb_ge; rewrite Plen; lia).
  assert (F3s : fresh (dom (w_fds w3)) <> Z.to_nat (mq_rd sc))
    by (eapply fresh_not_fd, H3sfd).
  assert (F3c : fresh (dom (w_fds w3)) <> Z.to_nat (mq_rd cc))
    by (eapply fresh_not_fd, H3cfd).
  assert (F3w : fresh (dom (w_fds w3)) <> fd2)
    by (eapply fresh_not_fd, H3fd2).
  eassert (R4 : run ka w3 = (_, Done 0)).
  { unfold ka, _mq_send. exec.
    change (can_write O_WRONLY) with true. exec_send.
    rewrite ?P3, ?P4, ?P1. exec_send.
    erewrite deliver_fires_eq; [| known | reflexivity | reflexivity].
    exec. rewrite ?H3sp. reflexivity. }
  set (fd4 := fresh (dom (w_fds w3))) in *.
  match type of R4 with _ = (?W, Done 0) =>
    eassert (H4si : w_heap W !! si = _) by known;
    eassert (H4sa : w_heap W !! sa = _) by known;
    eassert (H4ci : w_heap W !! ci = _) by known;
    eassert (H4ca : w_heap W !! ca = _) by known;
    eassert (H4sfd : w_fds W !! Z.to_nat (mq_rd sc) = _) by known;
    eassert (H4cfd : w_fds W !! Z.to_nat (mq_rd cc) = _) by known;
    eassert (H4fd2 : w_fds W !! fd2 = _) by known;
    eassert (H4fd4 : w_fds W !! fd4 = _) by known;
    eassert (H4sq : w_queues W !! sq = _) by known;
    eassert (H4cq : w_queues W !! cq = _) by known;
    eassert (H4sp : w_spawned W = _) by known;
    revert R4 H4si H4sa H4ci H4ca H4sfd H4cfd H4fd2 H4fd4 H4sq H4cq H4sp;
    generalize W
  end.
  intros w4 R4 H4si H4sa H4ci H4ca H4sfd H4cfd H4fd2 H4fd4 H4sq H4cq H4sp.
  tidy H4si. tidy H4sa. tidy H4ci. tidy H4ca. tidy H4sfd. tidy H4cfd.
  tidy H4fd2. tidy H4fd4. tidy H4sq. tidy H4cq. tidy H4sp.
  (* the client's on_connect finds its own name and opens the gate *)
  assert (B5sa : fresh (dom (w_heap w4)) <> sa)
    by (eapply fresh_not_key, H4sa).
  assert (B5si : fresh (dom (w_heap w4)) <> si)
    by (eapply fresh_not_key, H4si).
  assert (B5ca : fresh (dom (w_heap w4)) <> ca)
    by (eapply fresh_not_key, H4ca).
  assert (B5ci : fresh (dom (w_heap w4)) <> ci)
    by (eapply fresh_not_key, H4ci).
  assert (L4 : String.eqb
                 (cstr (overwrite cn (zeros (Z.to_nat MAX_IPC_MESSAGE_SIZE))))
                 (cstr (mq_rd_name cc)) = true).
  { rewrite cstr_overwrite_zeros. unfold cn. rewrite cstr_cstr.
    apply String.eqb_refl. }
  eassert (R5 : run_thread w4 = (_, Done tt)).
  { unfold run_thread, next_thread. rewrite H4sp.
    cbn [notify_function sigev_notify_function sigev_value].
    unfold on_connect, on_connect_body, _mq_notify_update, _mq_recv. exec.
    change (MAX_IPC_MESSAGE_SIZE <? MQ_MSGSIZE) with false. exec.
    rewrite L2, L3. exec. rewrite ?Hcrole. exec.
    rewrite ?overwrite_zeros_self, ?strcmp_eqb, ?L4. exec.
    reflexivity. }
  match type of R5 with _ = (?W, Done tt) =>
    eassert (H5si : w_heap W !! si = _) by known;
    eassert (H5sa : w_heap W !! sa = _) by known;
    eassert (H5ci : w_heap W !! ci = _) by known;
    eassert (H5ca : w_heap W !! ca = _) by known;
    eassert (H5sfd : w_fds W !! Z.to_nat (mq_rd sc) = _) by known;
    eassert (H5cfd : w_fds W !! Z.to_nat (mq_rd cc) = _) by known;
    eassert (H5fd2 : w_fds W !! fd2 = _) by known;
    eassert (H5fd4 : w_fds W !! fd4 = _) by known;
    eassert (H5sq : w_queues W !! sq = _) by known;
    eassert (H5cq : w_queues W !! cq = _) by known;
    eassert (H5sp : w_spawned W = _) by known;
    revert R5 H5si H5sa H5ci H5ca H5sfd H5cfd H5fd2 H5fd4 H5sq H5cq H5sp;
    generalize W
  end.
  intros w5 R5 H5si H5sa H5ci H5ca H5sfd H5cfd H5fd2 H5fd4 H5sq H5cq H5sp.
  tidy H5si. tidy H5sa. tidy H5ci. tidy H5ca. tidy H5sfd. tidy H5cfd.
  tidy H5fd2. tidy H5fd4. tidy H5sq. tidy H5cq. tidy H5sp.
  (* connect wakes *)
  eassert (R6 : run kc w5 = (_, Done 0)).
  { unfold kc. exec. reflexivity. }
  match type of R6 with _ = (?W, Done 0) =>
    eassert (H6si : w_heap W !! si = _) by known;
    eassert (H6sa : w_heap W !! sa = _) by known;
    eassert (H6ci : w_heap W !! ci = _) by known;
    eassert (H6ca : w_heap W !! ca = _) by known;
    eassert (H6sfd : w_fds W !! Z.to_nat (mq_rd sc) = _) by known;
    eassert (H6cfd : w_fds W !! Z.to_nat (mq_rd cc) = _) by known;
    eassert (H6fd2 : w_fds W !! fd2 = _) by known;
    eassert (H6fd4 : w_fds W !! fd4 = _) by known;
    eassert (H6sq : w_queues W !! sq = _) by known;
    eassert (H6cq : w_queues W !! cq = _) by known;
    eassert (H6sp : w_spawned W = _) by known;
    revert R6 H6si H6sa H6ci H6ca H6sfd H6cfd H6fd2 H6fd4 H6sq H6cq H6sp;
    generalize W
  end.
  intros w6 R6 H6si H6sa H6ci H6ca H6sfd H6cfd H6fd2 H6fd4 H6sq H6cq H6sp.
  tidy H6si. tidy H6sa. tidy H6ci. tidy H6ca. tidy H6sfd. tidy H6cfd.
  tidy H6fd2. tidy H6fd4. tidy H6sq. tidy H6cq. tidy H6sp.
  pose proof (of_nat_not_neg fd2) as N2.
  pose proof (of_nat_not_neg fd4) as N4.
  exists w1, ka, w2, kc, w3, w4, w5, w6. do 4 eexists.
  split; [exact R1 |]. split; [exact R2 |]. split; [exact R3 |].
  split; [exact R4 |]. split; [exact R5 |]. split; [exact R6 |].
  unfold reads_from, writes_to, idle, ctx_at, queue_of, fd_at, heap_at, rearm.
  split; [| split; [| split; [| split; [| split; [| split; [| split]]]]]].
  - exists rflag. rewrite H6sa. split; [reflexivity |].
    cbn [parent mq_rd]. rewrite H6si, Hsneg, H6sfd, H6sq.
    repeat split; reflexivity.
  - split; reflexivity.
  - do 3 eexists. rewrite H6si. split; [reflexivity |].
    cbv beta iota. rewrite H6sa. split; [reflexivity |]. cbn [mq_wr].
    rewrite N4, Nat2Z.id, H6fd4, H6cq. split; reflexivity.
  - exists rflag. rewrite H6ca. split; [reflexivity |].
    cbn [parent mq_rd]. rewrite H6ci, Hcneg, H6cfd, H6cq.
    repeat split; reflexivity.
  - split; reflexivity.
  - do 3 eexists. rewrite H6ci. split; [reflexivity |].
    cbv beta iota. rewrite H6ca. split; [reflexivity |]. cbn [mq_wr].
    rewrite N2, Nat2Z.id, H6fd2, H6sq. split; reflexivity.
  - exact H6sp.
  - cbn [mq_wr_name mq_rd_name]. exact Epn.
Qed.

Lemma handshake_completes_witness :
  exists w1 ka w2 kc w3 w4 w5 w6,
    run (_mq_accept Scenario.srv) Scenario.both_up = (w1, Blocked ka) /\
    run (_mq_connect Scenario.cli Scenario.srv_name) w1 = (w2, Blocked kc) /\
    run_thread w2 = (w3, Done tt) /\
    run ka w3 = (w4, Done 0) /\
    run_thread w4 = (w5, Done tt) /\
    run kc w5 = (w6, Done 0) /\
    w_spawned w6 = [].
Proof.
  destruct (handshake_completes Scenario.both_up
              Scenario.srv Scenario.srv_ctx
              (ctx_of Scenario.both_up Scenario.srv_ctx) 0%nat
              Scenario.cli Scenario.cli_ctx
              (ctx_of Scenario.both_up Scenario.cli_ctx) 1%nat
              Scenario.srv_name)
    as (w1 & ka & w2 & kc & w3 & w4 & w5 & w6 & sc' & cc' & smq & cmq &
        R1 & R2 & R3 & R4 & R5 & R6 & _ & _ & _ & _ & _ & _ & Hsp & _).
  - split; vm_compute; reflexivity.
  - split; vm_compute; reflexivity.
  - discriminate.
  - vm_compute. reflexivity.
  - vm_compute. lia.
  - vm_compute. reflexivity.
  - unfold clock_ok. vm_compute. repeat split; congruence.
  - exists w1, ka, w2, kc, w3, w4, w5, w6.
    repeat split; assumption.
Defined.
